(** * Chronos: the Zoom edge functions and the functions of the schema

    A shallow embedding of the Deno edge functions and of the properties
    the design document states about them:
    - the webhook receiver, [supabase/functions/zoom-webhook/index.ts]
      (module [Webhook]);
    - the cron trigger with its token refresh and its bulk syncs, the
      second function of [supabase/functions/zoom-oauth/index.ts] (module
      [Cron]);
    - the user sync, the first function of
      [supabase/functions/zoom-users/index.ts] (module [ZoomUsers]).
    The tables are those of [schema.sql].

    The other functions of these files are embedded too, with properties
    read off their code:
    - the OAuth endpoint, the first function of
      [supabase/functions/zoom-oauth/index.ts] (module [ZoomOAuth]);
    - the refresh by an administrator and the meeting sync, the two
      functions of [supabase/functions/refresh-zoom-token/index.ts]
      (modules [RefreshToken] and [ZoomMeetings]);
    - [is_admin], [is_first_user] and the trigger [handle_new_user] of
      [schema.sql] (module [Schema]).

    Conventions of the embedding:
    - a JS string is a [string] whose characters are code units below 256;
      [TextEncoder_encode] is the UTF-8 encoding of such a string;
    - a byte is a [Z] in [0, 256); a 32-bit word is a [Z] reduced modulo
      [2^32];
    - instants are integers, milliseconds since the epoch ([Date.now()]);
      an ISO timestamp written to the store is kept as that integer;
    - JSON numbers are integers. *)

From Stdlib Require Import ZArith Lia List Bool.
From Stdlib Require Import Ascii.
From stdpp Require Import base option list gmap strings pretty.

Local Open Scope Z_scope.

(** ** Strings *)

Module Str.

Definition code (c : ascii) : Z := Z.of_N (Ascii.N_of_ascii c).
Definition chr (z : Z) : ascii := Ascii.ascii_of_N (Z.to_N z).

(** [s.startsWith(p)] *)
Fixpoint startsWith (p s : string) : bool :=
  match p, s with
  | EmptyString, _ => true
  | String a p', String b s' => if Ascii.eqb a b then startsWith p' s' else false
  | String _ _, EmptyString => false
  end.

(** the rest of [s] after the prefix [p] (when [startsWith p s]) *)
Fixpoint drop_prefix (p s : string) : string :=
  match p, s with
  | String _ p', String _ s' => drop_prefix p' s'
  | _, _ => s
  end.

(** [s.includes(p)] *)
Fixpoint includes (p s : string) : bool :=
  startsWith p s ||
  match s with
  | EmptyString => false
  | String _ s' => includes p s'
  end.

(** [s.replace(p, '')] with a string pattern: the first occurrence of [p]
    is removed. *)
Fixpoint remove_first (p s : string) : string :=
  if startsWith p s then drop_prefix p s
  else match s with
       | EmptyString => EmptyString
       | String c s' => String c (remove_first p s')
       end.

Definition is_empty (s : string) : bool :=
  match s with EmptyString => true | _ => false end.

End Str.

(** [new TextEncoder().encode(s)]: UTF-8, on code units below 256. *)
Fixpoint TextEncoder_encode (s : string) : list Z :=
  match s with
  | EmptyString => []
  | String c s' =>
      let n := Str.code c in
      if n <? 128 then n :: TextEncoder_encode s'
      else (192 + n / 64) :: (128 + n mod 64) :: TextEncoder_encode s'
  end.

(** [b.toString(16)] for one hexadecimal digit. *)
Definition hex_digit (d : Z) : ascii :=
  if d <? 10 then Str.chr (48 + d) else Str.chr (87 + d).

(** [hashArray.map(b => b.toString(16).padStart(2, '0')).join('')] *)
Fixpoint hex (bs : list Z) : string :=
  match bs with
  | [] => EmptyString
  | b :: bs' => String (hex_digit (b / 16)) (String (hex_digit (b mod 16)) (hex bs'))
  end.

(** ** SHA-256 and HMAC (FIPS 180-4, RFC 2104), as [crypto.subtle] computes
    them *)

Module SHA256.

Definition w32 (x : Z) : Z := x mod 2 ^ 32.
Definition add (x y : Z) : Z := w32 (x + y).
Definition rotr (n x : Z) : Z := Z.lor (Z.shiftr x n) (w32 (Z.shiftl x (32 - n))).
Definition Ch (x y z : Z) : Z := Z.lxor (Z.land x y) (Z.land (Z.lnot x) z).
Definition Maj (x y z : Z) : Z :=
  Z.lxor (Z.lxor (Z.land x y) (Z.land x z)) (Z.land y z).
Definition Sig0 (x : Z) : Z := Z.lxor (Z.lxor (rotr 2 x) (rotr 13 x)) (rotr 22 x).
Definition Sig1 (x : Z) : Z := Z.lxor (Z.lxor (rotr 6 x) (rotr 11 x)) (rotr 25 x).
Definition sig0 (x : Z) : Z := Z.lxor (Z.lxor (rotr 7 x) (rotr 18 x)) (Z.shiftr x 3).
Definition sig1 (x : Z) : Z := Z.lxor (Z.lxor (rotr 17 x) (rotr 19 x)) (Z.shiftr x 10).

(** The constants are derived as the standard defines them: the first 32
    bits of the fractional parts of the cube roots (for [K]) and of the
    square roots (for [H0]) of the first primes. *)
Definition is_prime (n : Z) : bool :=
  forallb (fun d => negb (n mod d =? 0)) (map Z.of_nat (seq 2 (Z.to_nat (Z.sqrt n) - 1))).

Definition primes : list Z :=
  List.filter is_prime (map Z.of_nat (seq 2 310)).

(** the integer cube root, found bit by bit from bit [n] down *)
Fixpoint cube_root (n : nat) (x acc : Z) : Z :=
  match n with
  | O => acc
  | S n' =>
      let c := acc + 2 ^ Z.of_nat n' in
      if c * c * c <=? x then cube_root n' x c else cube_root n' x acc
  end.

Definition K : list Z :=
  Eval vm_compute in map (fun p => w32 (cube_root 40 (p * 2 ^ 96) 0)) primes.

Definition H0 : list Z :=
  Eval vm_compute in map (fun p => w32 (Z.sqrt (p * 2 ^ 64))) (firstn 8 primes).

(** big-endian bytes of a word, and back *)
Definition word_bytes (x : Z) : list Z :=
  [ (x / 2 ^ 24) mod 256; (x / 2 ^ 16) mod 256; (x / 2 ^ 8) mod 256; x mod 256 ].

Fixpoint words (bs : list Z) : list Z :=
  match bs with
  | a :: b :: c :: d :: bs' => (((a * 256 + b) * 256 + c) * 256 + d) :: words bs'
  | _ => []
  end.

(** the message schedule, newest word first *)
Fixpoint schedule (n : nat) (rev_w : list Z) : list Z :=
  match n with
  | O => rev_w
  | S n' =>
      let w := add (add (sig1 (nth 1 rev_w 0)) (nth 6 rev_w 0))
                   (add (sig0 (nth 14 rev_w 0)) (nth 15 rev_w 0)) in
      schedule n' (w :: rev_w)
  end.

Definition round (st : list Z) (kw : Z * Z) : list Z :=
  match st with
  | [a; b; c; d; e; f; g; h] =>
      let t1 := add (add (add h (Sig1 e)) (add (Ch e f g) (fst kw))) (snd kw) in
      let t2 := add (Sig0 a) (Maj a b c) in
      [add t1 t2; a; b; c; add d t1; e; f; g]
  | _ => st
  end.

Definition compress (st : list Z) (block : list Z) : list Z :=
  let w := rev (schedule 48 (rev (words block))) in
  let st' := fold_left round (combine K w) st in
  map (fun p => add (fst p) (snd p)) (combine st st').

Definition pad (msg : list Z) : list Z :=
  let len := Z.of_nat (length msg) in
  let zeros := Z.to_nat ((55 - len) mod 64) in
  msg ++ [128] ++ repeat 0 zeros
      ++ word_bytes ((len * 8) / 2 ^ 32) ++ word_bytes (w32 (len * 8)).

Fixpoint blocks (fuel : nat) (st : list Z) (bs : list Z) : list Z :=
  match fuel, bs with
  | S fuel', _ :: _ => blocks fuel' (compress st (firstn 64 bs)) (skipn 64 bs)
  | _, _ => st
  end.

Definition hash (msg : list Z) : list Z :=
  let p := pad msg in
  flat_map word_bytes (blocks (length p) H0 p).

Definition xor_pad (c : Z) (key : list Z) : list Z :=
  map (Z.lxor c) (key ++ repeat 0 (64 - length key)%nat).

(** [crypto.subtle.sign('HMAC', key, msg)] with hash SHA-256 *)
Definition hmac (key msg : list Z) : list Z :=
  let k := if (64 <? Z.of_nat (length key)) then hash key else key in
  hash (xor_pad 0x5c k ++ hash (xor_pad 0x36 k ++ msg)).

End SHA256.

(** ** JavaScript values *)

(** The fields of an object have distinct keys. *)
#[warnings="-register-all"]
Inductive jsval :=
| JUndefined
| JNull
| JBool (b : bool)
| JNum (n : Z)
| JStr (s : string)
| JArr (xs : list jsval)
| JObj (fields : list (string * jsval)).

(** What the engine throws. [Error m] is [throw new Error(m)] (and a store
    error object re-thrown with its message); [Raised what] is an exception
    raised by the platform itself (a TypeError, a SyntaxError of
    [JSON.parse], a rejected [fetch], ...), whose message text is the
    platform's. *)
Inductive Exn :=
| Error (message : string)
| Raised (what : string).

(** The outcome of a computation: a value, an exception, or no answer
    within the fuel given to a loop. *)
Inductive Res (A : Type) :=
| Ok (a : A)
| Throw (e : Exn)
| Diverge.
Arguments Ok {A} a.
Arguments Throw {A} e.
Arguments Diverge {A}.

Module JS.

Fixpoint assoc (k : string) (fs : list (string * jsval)) : option jsval :=
  match fs with
  | [] => None
  | (k', v) :: fs' => if String.eqb k k' then Some v else assoc k fs'
  end.

Definition has_key (k : string) (fs : list (string * jsval)) : bool :=
  match assoc k fs with Some _ => true | None => false end.

(** [v.k] for the data keys the handlers read (none of them is a property
    of a built-in prototype): a TypeError on [undefined] and [null], the
    own property of an object, [undefined] otherwise. *)
Definition prop (v : jsval) (k : string) : Res jsval :=
  match v with
  | JUndefined | JNull => Throw (Raised "TypeError: cannot read properties")
  | JObj fs => Ok (default JUndefined (assoc k fs))
  | _ => Ok JUndefined
  end.

(** [v.k] once [v] is known not to be [undefined] or [null] (an earlier
    read of a property of [v] succeeded) *)
Definition get (v : jsval) (k : string) : jsval :=
  match v with
  | JObj fs => default JUndefined (assoc k fs)
  | _ => JUndefined
  end.

(** truthiness: [!v], [v || d], [if (v)] *)
Definition truthy (v : jsval) : bool :=
  match v with
  | JUndefined | JNull => false
  | JBool b => b
  | JNum n => negb (n =? 0)
  | JStr s => negb (Str.is_empty s)
  | JArr _ | JObj _ => true
  end.

Definition or_else (v d : jsval) : jsval := if truthy v then v else d.

(** [v === 'literal'] *)
Definition is_str (lit : string) (v : jsval) : bool :=
  match v with
  | JStr s => String.eqb s lit
  | _ => false
  end.

(** [String(v)] and template interpolation; [None] is the TypeError of an
    object whose own [toString] is not callable. *)
Fixpoint to_string (v : jsval) : option string :=
  match v with
  | JUndefined => Some "undefined"%string
  | JNull => Some "null"%string
  | JBool true => Some "true"%string
  | JBool false => Some "false"%string
  | JNum n => Some (pretty n)
  | JStr s => Some s
  | JObj fs => if has_key "toString" fs then None else Some "[object Object]"%string
  | JArr xs =>
      (fix join (xs : list jsval) : option string :=
         match xs with
         | [] => Some EmptyString
         | x :: xs' =>
             match (match x with
                    | JUndefined | JNull => Some EmptyString
                    | _ => to_string x
                    end), join xs' with
             | Some s, Some r =>
                 Some (match xs' with
                       | [] => s
                       | _ => String.append s (String.append "," r)
                       end)
             | _, _ => None
             end
         end) xs
  end.

Definition String_ (v : jsval) : Res string :=
  match to_string v with
  | Some s => Ok s
  | None => Throw (Raised "TypeError: cannot convert object to primitive value")
  end.

(** [v.toString()] *)
Definition toString (v : jsval) : Res string :=
  match v with
  | JUndefined | JNull => Throw (Raised "TypeError: cannot read properties")
  | _ => match to_string v with
         | Some s => Ok s
         | None => Throw (Raised "TypeError: toString is not a function")
         end
  end.

(** [v?.toString()] *)
Definition opt_toString (v : jsval) : Res jsval :=
  match v with
  | JUndefined | JNull => Ok JUndefined
  | _ => match toString v with
         | Ok s => Ok (JStr s)
         | Throw e => Throw e
         | Diverge => Diverge
         end
  end.

(** [for (const x of v)]: an array gives its elements, a string its
    characters, anything else is not iterable. *)
Definition iterate (v : jsval) : Res (list jsval) :=
  match v with
  | JArr xs => Ok xs
  | JStr s => Ok (map (fun c => JStr (String c EmptyString)) (String.list_ascii_of_string s))
  | _ => Throw (Raised "TypeError: not iterable")
  end.

(** [Object.keys(o).forEach(key => o[key] === undefined && delete o[key])] *)
Definition strip_undefined (fs : list (string * jsval)) : list (string * jsval) :=
  List.filter (fun kv => match snd kv with JUndefined => false | _ => true end) fs.

Definition is_ws (c : ascii) : bool :=
  let n := Str.code c in
  ((9 <=? n) && (n <=? 13)) || (n =? 32) || (n =? 160).

Fixpoint trim_ws (s : string) : string :=
  match s with
  | String c s' => if is_ws c then trim_ws s' else s
  | EmptyString => s
  end.

Definition digit_val (radix : Z) (c : ascii) : option Z :=
  let n := Str.code c in
  let d := if (48 <=? n) && (n <=? 57) then n - 48
           else if (97 <=? n) && (n <=? 122) then n - 87
           else if (65 <=? n) && (n <=? 90) then n - 55
           else radix in
  if d <? radix then Some d else None.

Fixpoint digits (radix : Z) (s : string) (acc : option Z) : option Z :=
  match s with
  | String c s' =>
      match digit_val radix c with
      | Some d => digits radix s' (Some (default 0 acc * radix + d))
      | None => acc
      end
  | EmptyString => acc
  end.

(** [parseInt(s)]: leading white space, a sign, a [0x] prefix, then the
    longest run of digits; [None] is NaN. The value is the exact integer
    (the comparison it feeds is insensitive to the rounding of a double). *)
Definition parseInt (s : string) : option Z :=
  let s1 := trim_ws s in
  let '(neg, s2) :=
    match s1 with
    | String "-" r => (true, r)
    | String "+" r => (false, r)
    | _ => (false, s1)
    end in
  let '(radix, s3) :=
    match s2 with
    | String "0" (String "x" r) => (16, r)
    | String "0" (String "X" r) => (16, r)
    | _ => (10, s2)
    end in
  match digits radix s3 None with
  | Some n => Some (if neg then - n else n)
  | None => None
  end.

End JS.

(** ** The store, the provider and the platform *)

(** A stored row: its columns; SQL NULL is [JNull], and a column that was
    never written is absent. *)
Abbreviation Row := (gmap string jsval).

(** The Authorization header of an outbound request: [Basic c] is
    [`Basic ${btoa(c)}`], [Bearer t] is [`Bearer ${t}`]. *)
Inductive Auth :=
| Basic (credentials : string)
| Bearer (token : string).

(** An outbound request. A URL written as a string is [http_url] alone; the
    parameters set through [url.searchParams] are [http_query]; the form
    body is [http_form]. *)
Record HttpRequest := {
  http_method : string;
  http_url : string;
  http_query : list (string * string);
  http_auth : Auth;
  http_form : list (string * string);
}.

Record HttpResponse := {
  resp_ok : bool;
  resp_text : string;
}.

(** What an invocation does to the outside, in order. *)
Inductive Effect :=
| DbCall (table verb : string) (succeeded : bool)
| HttpCall (req : HttpRequest)
| ConsoleError (msg : string).

(** The tables of the schema, the outcomes the store will give to the next
    calls ([true]: the call fails and changes nothing; an exhausted list:
    no more failures) and the effects performed so far. *)
Record World := {
  zoom_tokens : option Row;
  zoom_users : gmap string Row;
  zoom_meetings : gmap string Row;
  zoom_events : list Row;
  faults : list bool;
  trace : list Effect;
}.

(** What the functions read from the platform: the secrets, [JSON.parse]
    (also behind [req.json()] and [response.json()]), the provider answering
    [fetch] ([None]: the request is rejected) and the message text of the
    exceptions the platform raises. *)
Record Platform := {
  Deno_env_get : string -> option string;
  JSON_parse : string -> option jsval;
  fetch : HttpRequest -> option HttpResponse;
  engine_message : string -> string;
}.

(** An inbound request. Header names are compared without case. *)
Record Request := {
  req_method : string;
  req_headers : list (string * string);
  req_text : string;
}.

Inductive Body :=
| Text (s : string)
| Json (v : jsval).

(** [new Response(body, { status })]; [Json v] is [JSON.stringify(v)]. *)
Record Response := {
  status : Z;
  body : Body;
}.

Definition lower (c : ascii) : ascii :=
  let n := Str.code c in
  if (65 <=? n) && (n <=? 90) then Str.chr (n + 32) else c.

Fixpoint lowercase (s : string) : string :=
  match s with
  | EmptyString => EmptyString
  | String c s' => String (lower c) (lowercase s')
  end.

(** [req.headers.get(name)] *)
Fixpoint headers_get (name : string) (hs : list (string * string)) : option string :=
  match hs with
  | [] => None
  | (k, v) :: hs' =>
      if String.eqb (lowercase k) (lowercase name) then Some v
      else headers_get name hs'
  end.

(** ** Computations *)

Definition M (A : Type) : Type := World -> Res A * World.

Definition ret {A} (a : A) : M A := fun w => (Ok a, w).

Definition bind {A B} (m : M A) (k : A -> M B) : M B :=
  fun w =>
    match m w with
    | (Ok a, w') => k a w'
    | (Throw e, w') => (Throw e, w')
    | (Diverge, w') => (Diverge, w')
    end.

Definition throw {A} (e : Exn) : M A := fun w => (Throw e, w).

Definition lift {A} (r : Res A) : M A := fun w => (r, w).

(** [try { m } catch (error) { h error }] *)
Definition try_catch {A} (m : M A) (h : Exn -> M A) : M A :=
  fun w =>
    match m w with
    | (Throw e, w') => h e w'
    | r => r
    end.

Declare Scope js_scope.
Delimit Scope js_scope with js.
Notation "'let*' x ':=' m 'in' k" := (bind m (fun x => k))
  (at level 10, x pattern, m at level 100, k at level 200) : js_scope.
Notation "m ';;' k" := (bind m (fun _ => k))
  (at level 100, k at level 200, right associativity) : js_scope.
Local Open Scope js_scope.

Definition with_trace (f : list Effect -> list Effect) (w : World) : World :=
  {| zoom_tokens := zoom_tokens w; zoom_users := zoom_users w;
     zoom_meetings := zoom_meetings w; zoom_events := zoom_events w;
     faults := faults w; trace := f (trace w) |}.

Definition with_faults (fs : list bool) (w : World) : World :=
  {| zoom_tokens := zoom_tokens w; zoom_users := zoom_users w;
     zoom_meetings := zoom_meetings w; zoom_events := zoom_events w;
     faults := fs; trace := trace w |}.

Definition with_tokens (t : option Row) (w : World) : World :=
  {| zoom_tokens := t; zoom_users := zoom_users w;
     zoom_meetings := zoom_meetings w; zoom_events := zoom_events w;
     faults := faults w; trace := trace w |}.

Definition with_users (u : gmap string Row) (w : World) : World :=
  {| zoom_tokens := zoom_tokens w; zoom_users := u;
     zoom_meetings := zoom_meetings w; zoom_events := zoom_events w;
     faults := faults w; trace := trace w |}.

Definition with_meetings (m : gmap string Row) (w : World) : World :=
  {| zoom_tokens := zoom_tokens w; zoom_users := zoom_users w;
     zoom_meetings := m; zoom_events := zoom_events w;
     faults := faults w; trace := trace w |}.

Definition with_events (l : list Row) (w : World) : World :=
  {| zoom_tokens := zoom_tokens w; zoom_users := zoom_users w;
     zoom_meetings := zoom_meetings w; zoom_events := l;
     faults := faults w; trace := trace w |}.

Definition emit (e : Effect) : M unit :=
  fun w => (Ok tt, with_trace (fun t => t ++ [e]) w).

(** [console.error(...)] *)
Definition console_error (msg : string) : M unit := emit (ConsoleError msg).

(** ** The store client

    The store is the generic one of the design: rows read, upserted and
    deleted by key. Every call is one atomic statement: it fails, changing
    nothing and answering [{ error }], or it is applied. [db] gives [None]
    for a call that failed. A call fails when the store says so ([faults]:
    an outage, a constraint of the schema on the values) or when the
    statement has no usable key ([apply] gives [None]). *)

Definition db {A} (table verb : string) (apply : World -> option (A * World)) : M (option A) :=
  fun w =>
    let bad := match faults w with b :: _ => b | [] => false end in
    let w1 := with_faults (tail (faults w)) w in
    match (if bad then None else apply w1) with
    | Some (a, w2) => (Ok (Some a), with_trace (fun t => t ++ [DbCall table verb true]) w2)
    | None => (Ok None, with_trace (fun t => t ++ [DbCall table verb false]) w1)
    end.

(** The columns an object handed to the client writes. As the webhook says
    of its user upsert, a key that is present with the value [undefined]
    overwrites the column with NULL. *)
Definition sql (v : jsval) : jsval :=
  match v with JUndefined => JNull | _ => v end.

Definition row_of (obj : list (string * jsval)) : Row :=
  list_to_map (map (fun kv => (fst kv, sql (snd kv))) obj).

(** The text of a key column; the store refuses a key that is absent, NULL
    or not a scalar. *)
Definition key_text (v : option jsval) : option string :=
  match v with
  | Some (JStr s) => Some s
  | Some (JNum n) => Some (pretty n)
  | Some (JBool true) => Some "true"%string
  | Some (JBool false) => Some "false"%string
  | _ => None
  end.

(** insert-or-update of one row by its key: the columns of the object
    replace the stored ones, the other columns stay. *)
Definition upsert_row (key : string) (obj : list (string * jsval))
    (t : gmap string Row) : option (gmap string Row) :=
  match key_text (JS.assoc key obj) with
  | Some k => Some (<[k := row_of obj ∪ default ∅ (t !! k)]> t)
  | None => None
  end.

(** [ON DELETE SET NULL] of [zoom_meetings.host_id] *)
Definition unhost (id : string) (row : Row) : Row :=
  match row !! "host_id"%string with
  | Some (JStr h) => if String.eqb h id then <["host_id"%string := JNull]> row else row
  | _ => row
  end.

Module Store.

(** [from('zoom_events').insert([row])] *)
Definition insert_event (obj : list (string * jsval)) : M (option unit) :=
  db "zoom_events" "insert"
     (fun w => Some (tt, with_events (zoom_events w ++ [row_of obj]) w)).

(** [from('zoom_meetings').upsert(obj, { onConflict: 'meeting_id' })] *)
Definition upsert_meeting (obj : list (string * jsval)) : M (option unit) :=
  db "zoom_meetings" "upsert"
     (fun w => m ← upsert_row "meeting_id" obj (zoom_meetings w);
               Some (tt, with_meetings m w)).

(** [from('zoom_users').upsert(obj, { onConflict: 'id' })] *)
Definition upsert_user (obj : list (string * jsval)) : M (option unit) :=
  db "zoom_users" "upsert"
     (fun w => u ← upsert_row "id" obj (zoom_users w);
               Some (tt, with_users u w)).

(** [from('zoom_meetings').delete().eq('meeting_id', k)] *)
Definition delete_meeting (k : string) : M (option unit) :=
  db "zoom_meetings" "delete"
     (fun w => Some (tt, with_meetings (delete k (zoom_meetings w)) w)).

(** [from('zoom_users').delete().eq('id', k)], with the cascade of the
    schema on the meetings the user hosts. *)
Definition delete_user (k : string) : M (option unit) :=
  db "zoom_users" "delete"
     (fun w => Some (tt, with_users (delete k (zoom_users w))
                           (with_meetings (unhost k <$> zoom_meetings w) w))).

(** [from('zoom_tokens').select('*').eq('id', 1).single()]: [data], which
    is [null] when the call fails or finds no row. *)
Definition select_tokens : M (option Row) :=
  db "zoom_tokens" "select"
     (fun w => r ← zoom_tokens w; Some (r, w)).

(** [from('zoom_tokens').update(obj).eq('id', 1)] *)
Definition update_tokens (obj : list (string * jsval)) : M (option unit) :=
  db "zoom_tokens" "update"
     (fun w => Some (tt, with_tokens ((fun r => row_of obj ∪ r) <$> zoom_tokens w) w)).

(** [from('zoom_users').select('id').eq('status', 'active')]: the [id]
    column of the rows whose status is ['active']. *)
Definition select_active_users : M (option (list jsval)) :=
  db "zoom_users" "select"
     (fun w =>
        Some (omap (fun kr : string * Row =>
                      match snd kr !! "status"%string with
                      | Some (JStr s) =>
                          if String.eqb s "active"
                          then Some (JObj [("id"%string, default JNull (snd kr !! "id"%string))])
                          else None
                      | _ => None
                      end) (map_to_list (zoom_users w)), w)).

(** the bulk form [upsert(rows, { onConflict })]: one statement for all the
    rows, which the store refuses when two of them have the same key. *)
Fixpoint upsert_rows (key : string) (objs : list (list (string * jsval)))
    (seen : list string) (t : gmap string Row) : option (gmap string Row) :=
  match objs with
  | [] => Some t
  | obj :: objs' =>
      match key_text (JS.assoc key obj) with
      | Some k =>
          if bool_decide (k ∈ seen) then None
          else upsert_rows key objs' (k :: seen)
                           (<[k := row_of obj ∪ default ∅ (t !! k)]> t)
      | None => None
      end
  end.

Definition upsert_users (objs : list (list (string * jsval))) : M (option unit) :=
  db "zoom_users" "upsert"
     (fun w => u ← upsert_rows "id" objs [] (zoom_users w);
               Some (tt, with_users u w)).

End Store.

(** ** Calls to the provider *)

(** [await fetch(...)] *)
Definition do_fetch (P : Platform) (req : HttpRequest) : M HttpResponse :=
  emit (HttpCall req);;
  match fetch P req with
  | Some r => ret r
  | None => throw (Raised "TypeError: fetch failed")
  end.

(** [await response.json()] *)
Definition response_json (P : Platform) (r : HttpResponse) : Res jsval :=
  match JSON_parse P (resp_text r) with
  | Some v => Ok v
  | None => Throw (Raised "SyntaxError")
  end.

(** [error.message || 'Unknown error'] *)
Definition error_message (P : Platform) (e : Exn) : string :=
  let message := match e with
                 | Error m => m
                 | Raised what => engine_message P what
                 end in
  if Str.is_empty message then "Unknown error"%string else message.

(** a column of a row read back from the store *)
Definition col (r : Row) (k : string) : jsval := default JNull (r !! k).

(** [new Date(v).getTime()] for a stored instant; [None] is NaN *)
Definition date_ms (v : jsval) : option Z :=
  match v with
  | JNum t => Some t
  | JNull => Some 0
  | JBool b => Some (if b then 1 else 0)
  | _ => None
  end.

Fixpoint all_digits (s : string) : bool :=
  match s with
  | EmptyString => true
  | String c s' =>
      let n := Str.code c in (48 <=? n) && (n <=? 57) && all_digits s'
  end.

(** [v * 1000] needs a number: of the strings, the runs of decimal digits
    (and the empty string, which is 0) convert in this embedding; [None]
    is NaN. *)
Definition to_number (v : jsval) : option Z :=
  match v with
  | JNum n => Some n
  | JNull => Some 0
  | JBool b => Some (if b then 1 else 0)
  | JStr s => if all_digits s then Some (default 0 (JS.digits 10 s None)) else None
  | _ => None
  end.

(** [new Date(ms).toISOString()]: the instant, or a RangeError when it is
    NaN or out of the range of dates. *)
Definition toISOString (ms : option Z) : Res jsval :=
  match ms with
  | Some t => if Z.abs t <=? 8640000000000000 then Ok (JNum t)
              else Throw (Raised "RangeError: invalid time value")
  | None => Throw (Raised "RangeError: invalid time value")
  end.

(** ** The webhook receiver (zoom-webhook/index.ts) *)

Module Webhook.
Section Webhook.

Variable P : Platform.
(** [Date.now()], in milliseconds *)
Variable now : Z.

(** [crypto.subtle.importKey('raw', encoder.encode(secretToken), HMAC...)]:
    an unset secret encodes to no bytes, and a key of length zero is
    refused. *)
Definition importKey (secretToken : option string) : Res (list Z) :=
  match TextEncoder_encode (default EmptyString secretToken) with
  | [] => Throw (Raised "DataError: key length is zero")
  | key => Ok key
  end.

(** [`v0:${timestamp}:${body}`] *)
Definition signed_message (timestamp body : string) : string :=
  String.append "v0:" (String.append timestamp (String.append ":" body)).

Definition verifyZoomSignature (req : Request) (body : string) : Res bool :=
  match headers_get "x-zm-signature" (req_headers req),
        headers_get "x-zm-request-timestamp" (req_headers req) with
  | Some signature, Some timestamp =>
      if Str.is_empty signature || Str.is_empty timestamp then Ok false
      else
        let now_s := now / 1000 in
        let stale := match JS.parseInt timestamp with
                     | Some t => 300 <? Z.abs (now_s - t)
                     | None => false
                     end in
        if stale then Ok false
        else
          let secretToken := Deno_env_get P "ZOOM_WEBHOOK_SECRET_TOKEN" in
          let message := signed_message timestamp body in
          match importKey secretToken with
          | Ok key =>
              let hashArray := SHA256.hmac key (TextEncoder_encode message) in
              let computedSignature := String.append "v0=" (hex hashArray) in
              Ok (String.eqb signature computedSignature)
          | Throw e => Throw e
          | Diverge => Diverge
          end
  | _, _ => Ok false
  end.

Definition relevantEvents : list string :=
  [ "meeting.started"; "meeting.ended"; "meeting.created";
    "meeting.updated"; "meeting.deleted" ]%string.

(** [relevantEvents.includes(v)] *)
Definition is_relevant (v : jsval) : bool :=
  existsb (fun e => JS.is_str e v) relevantEvents.

Definition json_response (st : Z) (v : jsval) : Response :=
  {| status := st; body := Json v |}.

(** [encoder.encode(v)]: [undefined] is the empty default, anything else is
    converted to a string. *)
Definition encode_value (v : jsval) : Res (list Z) :=
  match v with
  | JUndefined => Ok []
  | _ => match JS.String_ v with
         | Ok s => Ok (TextEncoder_encode s)
         | Throw e => Throw e
         | Diverge => Diverge
         end
  end.

(** the [endpoint.url_validation] branch *)
Definition url_validation (body : jsval) : M Response :=
  let* payload := lift (JS.prop body "payload") in
  let* plainToken := lift (JS.prop payload "plainToken") in
  let secretToken := Deno_env_get P "ZOOM_WEBHOOK_SECRET_TOKEN" in
  if Str.is_empty (default EmptyString secretToken) then
    ret (json_response 500 (JObj [("error", JStr "Configuration error")]%string))
  else
    let* key := lift (importKey secretToken) in
    let* data := lift (encode_value plainToken) in
    let encryptedToken := hex (SHA256.hmac key data) in
    ret (json_response 200
           (JObj [("plainToken", plainToken);
                  ("encryptedToken", JStr encryptedToken)]%string)).

(** 1. the row written to [zoom_events] *)
Definition log_meeting_event (body event : jsval) : M jsval :=
  let* payload := lift (JS.prop body "payload") in
  let* object := lift (JS.prop payload "object") in
  let* id := lift (JS.prop object "id") in
  let* meeting_id := lift (JS.opt_toString id) in
  let* uuid := lift (JS.prop object "uuid") in
  let* host_id := lift (JS.prop object "host_id") in
  let* topic := lift (JS.prop object "topic") in
  let* start_time := lift (JS.prop object "start_time") in
  let* end_time := lift (JS.prop object "end_time") in
  let* timezone := lift (JS.prop object "timezone") in
  let* duration := lift (JS.prop object "duration") in
  let* event_ts := lift (JS.prop body "event_ts") in
  let meetingData :=
    [ ("event_type", event); ("meeting_id", meeting_id);
      ("meeting_uuid", uuid); ("host_id", host_id); ("topic", topic);
      ("start_time", start_time); ("end_time", end_time);
      ("timezone", timezone); ("duration", duration);
      ("event_timestamp", event_ts); ("raw_data", body) ]%string in
  let* logged := Store.insert_event meetingData in
  (if logged is None then console_error "Error guardando log:" else ret tt);;
  ret object.

(** the object literal [syncData], [m.id.toString()] being [meeting_id] *)
Definition syncData (m : jsval) (meeting_id : string) : list (string * jsval) :=
  [ ("meeting_id", JStr meeting_id); ("uuid", JS.get m "uuid");
    ("host_id", JS.get m "host_id"); ("topic", JS.get m "topic");
    ("type", JS.get m "type"); ("duration", JS.get m "duration");
    ("timezone", JS.get m "timezone"); ("join_url", JS.get m "join_url");
    ("updated_at", JNum now) ]%string.

(** 2. the current state kept in [zoom_meetings] *)
Definition sync_meeting (event m : jsval) : M unit :=
  let* id := lift (JS.prop m "id") in
  if JS.is_str "meeting.deleted" event then
    let* key := lift (JS.toString id) in
    let* deleted := Store.delete_meeting key in
    if deleted is None then console_error "Error eliminando meeting sync:" else ret tt
  else
    let* meeting_id := lift (JS.toString id) in
    let* synced := Store.upsert_meeting (syncData m meeting_id) in
    if synced is None then console_error "Error sincronizando meeting:" else ret tt.

(** what the statement of [sync_meeting] does to the table *)
Definition meeting_delta (event m : jsval) (key : string)
    (t : gmap string Row) : gmap string Row :=
  if JS.is_str "meeting.deleted" event then delete key t
  else <[key := row_of (syncData m key) ∪ default ∅ (t !! key)]> t.

(** the object literal [userData], before the [undefined] values are
    removed *)
Definition userData (u : jsval) : list (string * jsval) :=
  [ ("id", JS.get u "id"); ("first_name", JS.get u "first_name");
    ("last_name", JS.get u "last_name");
    ("display_name", JS.get u "display_name"); ("email", JS.get u "email");
    ("type", JS.get u "type"); ("status", JS.get u "status");
    ("pmi", JS.get u "pmi"); ("timezone", JS.get u "timezone");
    ("dept", JS.get u "dept"); ("updated_at", JNum now) ]%string.

(** the [user.*] branch *)
Definition sync_user (body event : jsval) : M unit :=
  let* payload := lift (JS.prop body "payload") in
  let* u := lift (JS.prop payload "object") in
  if JS.is_str "user.deleted" event || JS.is_str "user.disassociated" event then
    let* id := lift (JS.prop u "id") in
    let* key := lift (JS.String_ id) in
    let* deleted := Store.delete_user key in
    if deleted is None then console_error "Error eliminando usuario:" else ret tt
  else
    let* id := lift (JS.prop u "id") in
    let userData := JS.strip_undefined (userData u) in
    let* synced := Store.upsert_user userData in
    if synced is None then console_error "Error actualizando usuario:" else ret tt.

(** [body.event.startsWith('user.')] *)
Definition event_startsWith (prefix : string) (event : jsval) : Res bool :=
  match event with
  | JStr s => Ok (Str.startsWith prefix s)
  | JUndefined | JNull => Throw (Raised "TypeError: cannot read properties")
  | _ => Throw (Raised "TypeError: startsWith is not a function")
  end.

Definition success : Response :=
  json_response 200 (JObj [("success", JBool true)]%string).

(** the events handled once the signature is verified *)
Definition apply_event (body event : jsval) : M Response :=
  if is_relevant event then
    let* m := log_meeting_event body event in
    sync_meeting event m;;
    ret success
  else
    let* is_user := lift (event_startsWith "user." event) in
    if is_user then
      sync_user body event;;
      ret success
    else
      ret (json_response 200 (JObj [("message", JStr "Event received")]%string)).

Definition unauthorized : Response := {| status := 401; body := Text "Unauthorized" |}.

(** the body of the [try] *)
Definition handle (req : Request) : M Response :=
  let rawBody := req_text req in
  let* body := lift (match JSON_parse P rawBody with
                     | Some v => Ok v
                     | None => Throw (Raised "SyntaxError")
                     end) in
  let* event := lift (JS.prop body "event") in
  if JS.is_str "endpoint.url_validation" event then url_validation body
  else
    let* isValid := lift (verifyZoomSignature req rawBody) in
    if negb isValid then
      console_error "Firma inválida o timestamp expirado";;
      ret unauthorized
    else apply_event body event.

(** the [catch] *)
Definition internal_error (error : Exn) : M Response :=
  console_error "Error interno:";;
  ret (json_response 500 (JObj [("error", JStr "Internal server error")]%string)).

Definition serve (req : Request) : M Response :=
  if String.eqb (req_method req) "OPTIONS" then
    ret {| status := 200; body := Text "ok" |}
  else try_catch (handle req) internal_error.

End Webhook.
End Webhook.

(** ** The cron trigger (second function of zoom-oauth/index.ts) *)

Module Cron.
Section Cron.

Variable P : Platform.
(** [Date.now()], in milliseconds *)
Variable now : Z.

(** [`${v}`] of a secret, which may be unset *)
Definition env_text (name : string) : string :=
  default "undefined"%string (Deno_env_get P name).

Definition refreshZoomToken : M jsval :=
  let* tokenData := Store.select_tokens in
  match tokenData with
  | None => throw (Error "No Zoom tokens found")
  | Some tokenData =>
      let expiresAt := date_ms (col tokenData "expires_at") in
      let fiveMinutes := 5 * 60 * 1000 in
      if (match expiresAt with
          | Some t => fiveMinutes <? t - now
          | None => false
          end)
      then ret (col tokenData "access_token")
      else
        let authString :=
          String.append (env_text "ZOOM_CLIENT_ID")
            (String.append ":" (env_text "ZOOM_CLIENT_SECRET")) in
        let* refresh_token := lift (JS.String_ (col tokenData "refresh_token")) in
        let* response :=
          do_fetch P {| http_method := "POST";
                        http_url := "https://zoom.us/oauth/token";
                        http_query := [];
                        http_auth := Basic authString;
                        http_form := [("grant_type", "refresh_token");
                                      ("refresh_token", refresh_token)]%string |} in
        if negb (resp_ok response) then
          throw (Error (String.append "Failed to refresh token: " (resp_text response)))
        else
          let* tokens := lift (response_json P response) in
          let* expires_in := lift (JS.prop tokens "expires_in") in
          let* newExpiresAt :=
            lift (toISOString (n ← to_number expires_in; Some (now + n * 1000))) in
          let* access_token := lift (JS.prop tokens "access_token") in
          let* new_refresh_token := lift (JS.prop tokens "refresh_token") in
          Store.update_tokens
            [ ("access_token", access_token);
              ("refresh_token", new_refresh_token);
              ("expires_at", newExpiresAt);
              ("updated_at", JNum now) ]%string;;
          ret access_token
  end.

(** one [upsert] of the [for] loop of [syncZoomUsers] *)
Definition upsert_listed_user (user : jsval) : M unit :=
  let* id := lift (JS.prop user "id") in
  let* email := lift (JS.prop user "email") in
  let* first_name := lift (JS.prop user "first_name") in
  let* last_name := lift (JS.prop user "last_name") in
  let* display_name := lift (JS.prop user "display_name") in
  let* type := lift (JS.prop user "type") in
  let* status := lift (JS.prop user "status") in
  let* pmi := lift (JS.prop user "pmi") in
  let* timezone := lift (JS.prop user "timezone") in
  let* dept := lift (JS.prop user "dept") in
  let* created_at := lift (JS.prop user "created_at") in
  let* last_login_time := lift (JS.prop user "last_login_time") in
  Store.upsert_user
    [ ("id", id); ("email", email); ("first_name", first_name);
      ("last_name", last_name); ("display_name", display_name);
      ("type", type); ("status", status); ("pmi", pmi);
      ("timezone", timezone); ("dept", dept); ("created_at", created_at);
      ("last_login_time", last_login_time); ("updated_at", JNum now) ]%string;;
  ret tt.

Fixpoint upsert_listed_users (users : list jsval) (totalSynced : Z) : M Z :=
  match users with
  | [] => ret totalSynced
  | user :: users' =>
      upsert_listed_user user;;
      upsert_listed_users users' (totalSynced + 1)
  end.

(** The [do ... while (nextPageToken)] loop of [syncZoomUsers]; [fuel]
    bounds the number of pages. *)
Fixpoint syncZoomUsers_pages (fuel : nat) (accessToken nextPageToken : jsval)
    (totalSynced : Z) : M Z :=
  match fuel with
  | O => lift Diverge
  | S fuel' =>
      let* cursor :=
        (if JS.truthy nextPageToken then
           let* t := lift (JS.String_ nextPageToken) in
           ret [("next_page_token"%string, t)]
         else ret []) in
      let* bearer := lift (JS.String_ accessToken) in
      let* response :=
        do_fetch P {| http_method := "GET";
                      http_url := "https://api.zoom.us/v2/users";
                      http_query := ("page_size", "300")%string :: cursor;
                      http_auth := Bearer bearer;
                      http_form := [] |} in
      if negb (resp_ok response) then
        throw (Error (String.append "Zoom API error: " (resp_text response)))
      else
        let* data := lift (response_json P response) in
        let* users := lift (JS.prop data "users") in
        let* users := lift (JS.iterate (JS.or_else users (JArr []))) in
        let* totalSynced := upsert_listed_users users totalSynced in
        let* next_page_token := lift (JS.prop data "next_page_token") in
        let nextPageToken := JS.or_else next_page_token (JStr "") in
        if JS.truthy nextPageToken
        then syncZoomUsers_pages fuel' accessToken nextPageToken totalSynced
        else ret totalSynced
  end.

Definition syncZoomUsers (fuel : nat) (accessToken : jsval) : M Z :=
  syncZoomUsers_pages fuel accessToken (JStr "") 0.

(** one [upsert] of the inner [for] loop of [syncZoomMeetings] *)
Definition upsert_listed_meeting (meeting : jsval) : M unit :=
  let* id := lift (JS.prop meeting "id") in
  let* meeting_id := lift (JS.String_ id) in
  let* uuid := lift (JS.prop meeting "uuid") in
  let* host_id := lift (JS.prop meeting "host_id") in
  let* topic := lift (JS.prop meeting "topic") in
  let* type := lift (JS.prop meeting "type") in
  let* duration := lift (JS.prop meeting "duration") in
  let* timezone := lift (JS.prop meeting "timezone") in
  let* join_url := lift (JS.prop meeting "join_url") in
  let* created_at := lift (JS.prop meeting "created_at") in
  Store.upsert_meeting
    [ ("meeting_id", JStr meeting_id); ("uuid", uuid); ("host_id", host_id);
      ("topic", topic); ("type", type); ("duration", duration);
      ("timezone", timezone); ("join_url", join_url);
      ("created_at", created_at); ("updated_at", JNum now) ]%string;;
  ret tt.

(** The inner loop under the [try] of one user: an exception ends the
    loop, is logged, and keeps the count reached. *)
Fixpoint upsert_listed_meetings (meetings : list jsval) (totalSynced : Z) : M Z :=
  match meetings with
  | [] => ret totalSynced
  | meeting :: meetings' =>
      let* done := try_catch (upsert_listed_meeting meeting;; ret true)
                     (fun e => console_error "Error syncing meetings for user";;
                               ret false) in
      if (done : bool) then upsert_listed_meetings meetings' (totalSynced + 1)
      else ret totalSynced
  end.

(** the body of the outer [for] loop of [syncZoomMeetings], for one user *)
Definition sync_meetings_of (accessToken user : jsval) (totalSynced : Z) : M Z :=
  let* meetings :=
    try_catch
      (let* id := lift (JS.prop user "id") in
       let* id := lift (JS.String_ id) in
       let* bearer := lift (JS.String_ accessToken) in
       let* response :=
         do_fetch P {| http_method := "GET";
                       http_url := String.append "https://api.zoom.us/v2/users/"
                                     (String.append id "/meetings?type=scheduled&page_size=300");
                       http_query := [];
                       http_auth := Bearer bearer;
                       http_form := [] |} in
       if negb (resp_ok response) then ret []
       else
         let* data := lift (response_json P response) in
         let* meetings := lift (JS.prop data "meetings") in
         lift (JS.iterate (JS.or_else meetings (JArr []))))
      (fun e => console_error "Error syncing meetings for user";; ret []) in
  upsert_listed_meetings meetings totalSynced.

Fixpoint sync_meetings_of_all (accessToken : jsval) (users : list jsval)
    (totalSynced : Z) : M Z :=
  match users with
  | [] => ret totalSynced
  | user :: users' =>
      let* totalSynced := sync_meetings_of accessToken user totalSynced in
      sync_meetings_of_all accessToken users' totalSynced
  end.

Definition syncZoomMeetings (accessToken : jsval) : M Z :=
  let* users := Store.select_active_users in
  sync_meetings_of_all accessToken (default [] users) 0.

Definition json_response (st : Z) (v : jsval) : Response :=
  {| status := st; body := Json v |}.

Definition valid_actions : jsval :=
  JArr [JStr "sync-users"; JStr "sync-meetings"; JStr "sync-all"; JStr "refresh-token"].

(** [authHeader?.replace('Bearer ', '')] *)
Definition bearer_token (authHeader : option string) : option string :=
  Str.remove_first "Bearer " <$> authHeader.

(** the body of the [try] *)
Definition handle (fuel : nat) (req : Request) : M Response :=
  let authHeader := headers_get "Authorization" (req_headers req) in
  let CRON_SECRET := Deno_env_get P "CRON_SECRET" in
  if Str.is_empty (default EmptyString CRON_SECRET) then
    ret (json_response 500 (JObj [("error", JStr "CRON_SECRET not configured")]%string))
  else if negb (bool_decide (bearer_token authHeader = CRON_SECRET)) then
    ret (json_response 401 (JObj [("error", JStr "Unauthorized")]%string))
  else
    let body := default (JObj []) (JSON_parse P (req_text req)) in
    let* action := lift (JS.prop body "action") in
    let* accessToken := refreshZoomToken in
    let* result :=
      (if JS.is_str "sync-users" action then
         let* usersCount := syncZoomUsers fuel accessToken in
         ret (Some [("action", JStr "sync-users"); ("synced", JNum usersCount)]%string)
       else if JS.is_str "sync-meetings" action then
         let* meetingsCount := syncZoomMeetings accessToken in
         ret (Some [("action", JStr "sync-meetings"); ("synced", JNum meetingsCount)]%string)
       else if JS.is_str "sync-all" action then
         let* users := syncZoomUsers fuel accessToken in
         let* meetings := syncZoomMeetings accessToken in
         ret (Some [("action", JStr "sync-all"); ("users", JNum users);
                    ("meetings", JNum meetings)]%string)
       else if JS.is_str "refresh-token" action then
         ret (Some [("action", JStr "refresh-token");
                    ("message", JStr "Token refreshed successfully")]%string)
       else ret None) in
    match result with
    | None =>
        ret (json_response 400
               (JObj [("error", JStr "Unknown action"); ("valid", valid_actions)]%string))
    | Some result =>
        ret (json_response 200
               (JObj ([("success", JBool true)]%string ++ result
                      ++ [("timestamp", JNum now)]%string)))
    end.

Definition serve (fuel : nat) (req : Request) : M Response :=
  if String.eqb (req_method req) "OPTIONS" then
    ret {| status := 200; body := Text "ok" |}
  else
    try_catch (handle fuel req)
      (fun error =>
         console_error "Error:";;
         ret (json_response 500 (JObj [("error", JStr (error_message P error))]%string))).

End Cron.
End Cron.

(** ** The user sync (first function of zoom-users/index.ts) *)

Module ZoomUsers.
Section ZoomUsers.

Variable P : Platform.
(** [Date.now()], in milliseconds *)
Variable now : Z.

Definition verifyCronAuth (req : Request) : Res unit :=
  match headers_get "Authorization" (req_headers req) with
  | None => Throw (Error "Missing Authorization header")
  | Some authHeader =>
      if Str.is_empty authHeader then Throw (Error "Missing Authorization header")
      else
        let token := Str.remove_first "Bearer " authHeader in
        match Deno_env_get P "CRON_SECRET" with
        | None => Throw (Error "CRON_SECRET not configured")
        | Some cronSecret =>
            if Str.is_empty cronSecret then Throw (Error "CRON_SECRET not configured")
            else if negb (String.eqb token cronSecret) then Throw (Error "Invalid authorization")
            else Ok tt
        end
  end.

Definition env_text (name : string) : string :=
  default "undefined"%string (Deno_env_get P name).

(** steps 1 and 2: the saved token, refreshed if needed *)
Definition access_token : M jsval :=
  let* tokenData := Store.select_tokens in
  match tokenData with
  | None => throw (Error "No Zoom tokens found.")
  | Some tokenData =>
      let accessToken := col tokenData "access_token" in
      let refreshToken := col tokenData "refresh_token" in
      (* expiresAt is in seconds, a fraction; now is whole seconds *)
      let expiresAt_ms := date_ms (col tokenData "expires_at") in
      let now_s := now / 1000 in
      if (match expiresAt_ms with
          | Some t => t - 300 * 1000 <=? now_s * 1000
          | None => false
          end)
      then
        let* refreshToken := lift (JS.String_ refreshToken) in
        let tokenUrl :=
          String.append
            "https://zoom.us/oauth/token?grant_type=refresh_token&refresh_token="
            refreshToken in
        let authHeader :=
          Basic (String.append (env_text "ZOOM_CLIENT_ID")
                   (String.append ":" (env_text "ZOOM_CLIENT_SECRET"))) in
        let* refreshRes :=
          do_fetch P {| http_method := "POST"; http_url := tokenUrl;
                        http_query := []; http_auth := authHeader;
                        http_form := [] |} in
        if negb (resp_ok refreshRes) then throw (Error "Token refresh failed")
        else
          let* newTokens := lift (response_json P refreshRes) in
          let* accessToken := lift (JS.prop newTokens "access_token") in
          let* refresh_token := lift (JS.prop newTokens "refresh_token") in
          let* expires_in := lift (JS.prop newTokens "expires_in") in
          let* expires_at :=
            lift (toISOString (n ← to_number expires_in; Some (now + n * 1000))) in
          Store.update_tokens
            [ ("access_token", accessToken);
              ("refresh_token", refresh_token);
              ("expires_at", expires_at);
              ("updated_at", JNum now) ]%string;;
          ret accessToken
      else ret accessToken
  end.

(** step 3: the [do ... while (nextPageToken)] loop; [fuel] bounds the
    number of pages. *)
Fixpoint all_users (fuel : nat) (accessToken nextPageToken : jsval)
    (allUsers : list jsval) : M (list jsval) :=
  match fuel with
  | O => lift Diverge
  | S fuel' =>
      let* cursor := lift (JS.String_ nextPageToken) in
      let* bearer := lift (JS.String_ accessToken) in
      let usersUrl :=
        String.append
          "https://api.zoom.us/v2/users?page_size=300&status=active&next_page_token="
          cursor in
      let* usersRes :=
        do_fetch P {| http_method := "GET"; http_url := usersUrl;
                      http_query := []; http_auth := Bearer bearer;
                      http_form := [] |} in
      if negb (resp_ok usersRes) then throw (Error "Failed to fetch Zoom users")
      else
        let* data := lift (response_json P usersRes) in
        let* users := lift (JS.prop data "users") in
        let* users := lift (JS.iterate users) in
        let allUsers := allUsers ++ users in
        let* next_page_token := lift (JS.prop data "next_page_token") in
        let nextPageToken := JS.or_else next_page_token (JStr "") in
        if JS.truthy nextPageToken
        then all_users fuel' accessToken nextPageToken allUsers
        else ret allUsers
  end.

(** step 4: one element of [allUsers.map(u => ({ ... }))] *)
Definition upsert_datum (u : jsval) : Res (list (string * jsval)) :=
  match JS.prop u "id" with
  | Ok id =>
      let f k := match JS.prop u k with Ok v => v | _ => JUndefined end in
      Ok [ ("id", id); ("first_name", f "first_name");
           ("last_name", f "last_name"); ("display_name", f "display_name");
           ("email", f "email"); ("type", f "type"); ("status", f "status");
           ("pmi", f "pmi"); ("timezone", f "timezone"); ("dept", f "dept");
           ("created_at", f "created_at");
           ("last_login_time", f "last_login_time");
           ("updated_at", JNum now) ]%string
  | Throw e => Throw e
  | Diverge => Diverge
  end.

Fixpoint upsert_data (us : list jsval) : Res (list (list (string * jsval))) :=
  match us with
  | [] => Ok []
  | u :: us' =>
      match upsert_datum u, upsert_data us' with
      | Ok d, Ok ds => Ok (d :: ds)
      | Throw e, _ => Throw e
      | Diverge, _ => Diverge
      | Ok _, Throw e => Throw e
      | Ok _, Diverge => Diverge
      end
  end.

(** the body of the [try] *)
Definition handle (fuel : nat) (req : Request) : M Response :=
  lift (verifyCronAuth req);;
  let* accessToken := access_token in
  let* allUsers := all_users fuel accessToken (JStr "") [] in
  let* upsertData := lift (upsert_data allUsers) in
  (if (0 <? Z.of_nat (length upsertData)) then
     let* stored := Store.upsert_users upsertData in
     if stored is None then throw (Raised "PostgrestError") else ret tt
   else ret tt);;
  ret {| status := 200;
         body := Json (JObj [("success", JBool true);
                             ("users_synced", JNum (Z.of_nat (length upsertData)))]%string) |}.

(** the status the [catch] derives from the message *)
Definition error_status (message : string) : Z :=
  let status := 500 in
  let status := if Str.includes "Authorization" message || Str.includes "token" message
                then 401 else status in
  if Str.includes "Admin" message then 403 else status.

Definition serve (fuel : nat) (req : Request) : M Response :=
  if String.eqb (req_method req) "OPTIONS" then
    ret {| status := 200; body := Text "ok" |}
  else
    try_catch (handle fuel req)
      (fun error =>
         console_error "error";;
         let message := error_message P error in
         ret {| status := error_status message;
                body := Json (JObj [("error", JStr message)]%string) |}).

End ZoomUsers.
End ZoomUsers.

(** ** What a bulk pull can see

    The keys of the items a response of the provider lists under [field]
    (["users"] or ["meetings"]), as the sync functions read them. *)

Definition listed_keys (P : Platform) (field : string)
    (key : jsval -> option string) (resp : HttpResponse) : list string :=
  match response_json P resp with
  | Ok data =>
      match JS.prop data field with
      | Ok items =>
          match JS.iterate (JS.or_else items (JArr [])) with
          | Ok us => omap (fun u => match JS.prop u "id" with
                                    | Ok id => key id
                                    | _ => None
                                    end) us
          | _ => []
          end
      | _ => []
      end
  | _ => []
  end.

(** the key of a listed user is its [id]; of a listed meeting, [String(id)] *)
Definition user_key (id : jsval) : option string := key_text (Some id).
Definition meeting_key (id : jsval) : option string := JS.to_string id.

(** No answer of the provider lists the user (the meeting) with key [k]. *)
Definition omits_user (P : Platform) (k : string) : Prop :=
  forall req resp, fetch P req = Some resp -> k ∉ listed_keys P "users" user_key resp.

Definition omits_meeting (P : Platform) (k : string) : Prop :=
  forall req resp, fetch P req = Some resp -> k ∉ listed_keys P "meetings" meeting_key resp.

(** the store calls among the effects *)
Definition is_db (e : Effect) : bool :=
  match e with DbCall _ _ _ => true | _ => false end.

Definition is_http (e : Effect) : bool :=
  match e with HttpCall _ => true | _ => false end.

Definition db_calls (w : World) : list Effect := List.filter is_db (trace w).
Definition http_calls (w : World) : list Effect := List.filter is_http (trace w).

(** the calls made to the event log *)
Definition is_event_call (e : Effect) : bool :=
  match e with
  | DbCall table _ _ => String.eqb table "zoom_events"
  | _ => false
  end.

Definition event_calls (w : World) : list Effect := List.filter is_event_call (trace w).

(** the next store call is not going to fail *)
Definition up (fs : list bool) : Prop := head fs <> Some true.
Definition store_up (w : World) : Prop := up (faults w).

(** ** The signature the design document describes

    ['v0='] followed by the lowercase hexadecimal encoding of
    HMAC-SHA256(secret, ['v0:' + timestamp + ':' + rawBody]). *)

Module Spec.

Definition signature (secret timestamp rawBody : string) : string :=
  String.append "v0="
    (hex (SHA256.hmac (TextEncoder_encode secret)
            (TextEncoder_encode
               (String.append "v0:"
                  (String.append timestamp (String.append ":" rawBody)))))).

End Spec.

(** ** A concrete deployment, for the examples *)

Module Example.

Local Open Scope string_scope.

(** JSON texts are written with ['] for the double quote. *)
Fixpoint dq (s : string) : string :=
  match s with
  | EmptyString => EmptyString
  | String c s' =>
      String (if Ascii.eqb c "'"%char then Str.chr 34 else c) (dq s')
  end.

Definition secret : string := "s3cret".

Definition env (name : string) : option string :=
  if String.eqb name "ZOOM_WEBHOOK_SECRET_TOKEN" then Some secret
  else if String.eqb name "CRON_SECRET" then Some "cron-secret"
  else if String.eqb name "ZOOM_CLIENT_ID" then Some "client"
  else if String.eqb name "ZOOM_CLIENT_SECRET" then Some "hush"
  else None.

(** the bodies Zoom posts to the webhook *)
Definition validation_text : string :=
  dq "{'event':'endpoint.url_validation','payload':{'plainToken':'abc123'}}".
Definition user_deleted_text : string :=
  dq "{'event':'user.deleted','payload':{'object':{'id':'u0'}}}".
Definition user_updated_text : string :=
  dq "{'event':'user.updated','payload':{'object':{'id':'u0','email':'u0@example.org','timezone':'UTC'}}}".
Definition meeting_deleted_text : string :=
  dq "{'event':'meeting.deleted','payload':{'object':{'id':123}}}".
Definition meeting_updated_text : string :=
  dq "{'event':'meeting.updated','payload':{'object':{'id':123,'duration':45}}}".
(** [meeting_updated_text] with one byte changed *)
Definition meeting_mutated_text : string :=
  dq "{'event':'meeting.updated','payload':{'object':{'id':123,'duration':46}}}".

(** the bodies sent to the cron trigger *)
Definition sync_users_text : string := dq "{'action':'sync-users'}".
Definition sync_all_text : string := dq "{'action':'sync-all'}".
Definition unknown_action_text : string := dq "{'action':'purge'}".

(** the answers of the provider *)
Definition page1_text : string :=
  dq "{'users':[{'id':'u1','email':'u1@example.org'}],'next_page_token':'X'}".
Definition page2_text : string :=
  dq "{'users':[{'id':'u2','email':'u2@example.org'}],'next_page_token':''}".
Definition meetings_text : string :=
  dq "{'meetings':[{'id':456,'topic':'Retro','host_id':'u0'}]}".
Definition tokens_text : string :=
  dq "{'access_token':'new-token','refresh_token':'r2','expires_in':3600}".

Definition user (id email : string) : jsval :=
  JObj [("id", JStr id); ("email", JStr email)].

Definition event (name : string) (object : jsval) : jsval :=
  JObj [("event", JStr name); ("payload", JObj [("object", object)])].

(** [JSON.parse] on the texts above *)
Definition parse (text : string) : option jsval :=
  if String.eqb text validation_text then
    Some (JObj [("event", JStr "endpoint.url_validation");
                ("payload", JObj [("plainToken", JStr "abc123")])])
  else if String.eqb text user_deleted_text then
    Some (event "user.deleted" (JObj [("id", JStr "u0")]))
  else if String.eqb text user_updated_text then
    Some (event "user.updated"
            (JObj [("id", JStr "u0"); ("email", JStr "u0@example.org");
                   ("timezone", JStr "UTC")]))
  else if String.eqb text meeting_deleted_text then
    Some (event "meeting.deleted" (JObj [("id", JNum 123)]))
  else if String.eqb text meeting_updated_text then
    Some (event "meeting.updated" (JObj [("id", JNum 123); ("duration", JNum 45)]))
  else if String.eqb text meeting_mutated_text then
    Some (event "meeting.updated" (JObj [("id", JNum 123); ("duration", JNum 46)]))
  else if String.eqb text sync_users_text then
    Some (JObj [("action", JStr "sync-users")])
  else if String.eqb text sync_all_text then
    Some (JObj [("action", JStr "sync-all")])
  else if String.eqb text unknown_action_text then
    Some (JObj [("action", JStr "purge")])
  else if String.eqb text page1_text then
    Some (JObj [("users", JArr [user "u1" "u1@example.org"]);
                ("next_page_token", JStr "X")])
  else if String.eqb text page2_text then
    Some (JObj [("users", JArr [user "u2" "u2@example.org"]);
                ("next_page_token", JStr "")])
  else if String.eqb text meetings_text then
    Some (JObj [("meetings",
                 JArr [JObj [("id", JNum 456); ("topic", JStr "Retro");
                             ("host_id", JStr "u0")]])])
  else if String.eqb text tokens_text then
    Some (JObj [("access_token", JStr "new-token"); ("refresh_token", JStr "r2");
                ("expires_in", JNum 3600)])
  else None.

Definition answer (text : string) : option HttpResponse :=
  Some {| resp_ok := true; resp_text := text |}.

(** The provider: two pages of users (the cursor of the first is ["X"]),
    the meetings of a user, and the token endpoint. *)
Definition provider (req : HttpRequest) : option HttpResponse :=
  let url := http_url req in
  if String.eqb url "https://zoom.us/oauth/token" then answer tokens_text
  else if Str.startsWith "https://zoom.us/oauth/token?grant_type=refresh_token" url
  then answer tokens_text
  else if String.eqb url "https://api.zoom.us/v2/users" then
    match JS.assoc "next_page_token"
            (map (fun kv => (fst kv, JStr (snd kv))) (http_query req)) with
    | None => answer page1_text
    | Some (JStr "X") => answer page2_text
    | _ => None
    end
  else if String.eqb url
            "https://api.zoom.us/v2/users?page_size=300&status=active&next_page_token="
  then answer page1_text
  else if String.eqb url
            "https://api.zoom.us/v2/users?page_size=300&status=active&next_page_token=X"
  then answer page2_text
  else if Str.startsWith "https://api.zoom.us/v2/users/" url then answer meetings_text
  else None.

Definition platform : Platform :=
  {| Deno_env_get := env; JSON_parse := parse; fetch := provider;
     engine_message := fun what => what |}.

Definition now : Z := 1700000100000.
Definition timestamp : string := "1700000000".

(** the signature Zoom sends for a body, 100 seconds before [now] *)
Definition signed (text : string) : Request :=
  {| req_method := "POST";
     req_headers := [("x-zm-signature", Spec.signature secret timestamp text);
                     ("x-zm-request-timestamp", timestamp)];
     req_text := text |}.

Definition cron_request (text : string) : Request :=
  {| req_method := "POST";
     req_headers := [("Authorization", "Bearer cron-secret")];
     req_text := text |}.

Definition credential (expires_at : Z) : Row :=
  {[ "access_token" := JStr "old-token"; "refresh_token" := JStr "r1";
     "expires_at" := JNum expires_at; "updated_at" := JNum 1699990000000 ]}.

(** a store with one user, one meeting he hosts and a credential that is
    valid for another hour *)
Definition world : World :=
  {| zoom_tokens := Some (credential (now + 3600000));
     zoom_users := {[ "u0" := {[ "id" := JStr "u0"; "email" := JStr "u0@example.org";
                                 "status" := JStr "active"; "timezone" := JStr "CET" ]} ]};
     zoom_meetings := {[ "123" := {[ "meeting_id" := JStr "123"; "topic" := JStr "Standup";
                                     "host_id" := JStr "u0"; "duration" := JNum 30 ]} ]};
     zoom_events := [];
     faults := [];
     trace := [] |}.

End Example.

(** ** The vocabulary of the properties *)

Definition is_bytes (bs : list Z) : Prop := Forall (fun b => 0 <= b < 256) bs.

(** ** Reasoning about computations

    [sat R Q m]: running [m] relates the worlds before and after by [R], and
    a value it returns satisfies [Q]. *)

Definition sat {A} (R : World -> World -> Prop) (Q : A -> Prop) (m : M A) : Prop :=
  forall w, R w (m w).2 /\ (forall a, (m w).1 = Ok a -> Q a).

(** relations on worlds that are preorders, that one more effect in the
    trace maintains and that do not look at the pending outcomes of the
    store *)
Class Frame (R : World -> World -> Prop) := {
  frame_refl : forall w, R w w;
  frame_trans : forall a b c, R a b -> R b c -> R a c;
  frame_trace : forall e w, R w (with_trace (fun t => t ++ [e]) w);
  frame_faults : forall fs w, R w (with_faults fs w);
}.

(** the rows of key [ku] in [zoom_users] and [km] in [zoom_meetings] are as
    before *)
Definition keeps (ku km : string) (w w' : World) : Prop :=
  zoom_users w' !! ku = zoom_users w !! ku
  /\ zoom_meetings w' !! km = zoom_meetings w !! km.

(** no stored user and no stored meeting disappears *)
Definition grows (w w' : World) : Prop :=
  (forall k, is_Some (zoom_users w !! k) -> is_Some (zoom_users w' !! k))
  /\ (forall k, is_Some (zoom_meetings w !! k) -> is_Some (zoom_meetings w' !! k)).

(** a listed user (meeting) whose key is outside [badU] ([badM]) *)
Definition fine_user (badU : string -> Prop) (u : jsval) : Prop :=
  forall id k, JS.prop u "id" = Ok id -> user_key id = Some k -> ~ badU k.

Definition fine_meeting (badM : string -> Prop) (m : jsval) : Prop :=
  forall id k, JS.prop m "id" = Ok id -> meeting_key id = Some k -> ~ badM k.

(** the event log is as before *)
Definition events_kept (w w' : World) : Prop := zoom_events w' = zoom_events w.

(** the request of the user sync for one page *)
Definition users_request (bearer cursor : string) : HttpRequest :=
  {| http_method := "GET";
     http_url := String.append
       "https://api.zoom.us/v2/users?page_size=300&status=active&next_page_token="
       cursor;
     http_query := []; http_auth := Bearer bearer; http_form := [] |}.

(** the provider answers the request for [cursor] with the page [users]
    and the cursor [next] *)
Definition answers (P : Platform) (bearer cursor : string) (users : list jsval) (next : jsval) : Prop :=
  exists response data items,
    fetch P (users_request bearer cursor) = Some response
    /\ resp_ok response = true
    /\ JSON_parse P (resp_text response) = Some data
    /\ JS.prop data "users" = Ok items
    /\ JS.iterate items = Ok users
    /\ JS.prop data "next_page_token" = Ok next.

Definition requested (req : HttpRequest) (w : World) : World :=
  with_trace (fun t => t ++ [HttpCall req]) w.

(** the pages the provider serves from a cursor on, up to the page whose
    cursor is empty: the items in order, and the number of pages *)
Inductive listing (P : Platform) (bearer : string) : jsval -> list jsval -> nat -> Prop :=
| listing_last (nextPageToken next : jsval) (cursor : string) (users : list jsval) :
    JS.String_ nextPageToken = Ok cursor ->
    answers P bearer cursor users next ->
    JS.truthy (JS.or_else next (JStr "")) = false ->
    listing P bearer nextPageToken users 1
| listing_more (nextPageToken next : jsval) (cursor : string) (users rest : list jsval)
    (n : nat) :
    JS.String_ nextPageToken = Ok cursor ->
    answers P bearer cursor users next ->
    JS.truthy (JS.or_else next (JStr "")) = true ->
    listing P bearer (JS.or_else next (JStr "")) rest n ->
    listing P bearer nextPageToken (users ++ rest) (S n).

(** the trace only grows *)
Definition extends (w w' : World) : Prop := exists rest, trace w' = trace w ++ rest.

(** the answers of the cron trigger to an unknown action and to a missing
    credential *)
Definition unknown_action : Response :=
  Cron.json_response 400
    (JObj [("error", JStr "Unknown action"); ("valid", Cron.valid_actions)]%string).

Definition no_tokens : Response :=
  Cron.json_response 500 (JObj [("error", JStr "No Zoom tokens found")]%string).

(** ** URLs *)

Module Url.

(** [url.searchParams.get(name)] on the parameters of a URL: the first value
    of the name, [None] being [null] *)
Fixpoint get (name : string) (params : list (string * string)) : option string :=
  match params with
  | [] => None
  | (k, v) :: params' => if String.eqb k name then Some v else get name params'
  end.

(** the bytes that the serialisation of [URLSearchParams] leaves as they
    are: the ASCII letters and digits, and [*], [-], [.], [_] *)
Definition plain (n : Z) : bool :=
  ((48 <=? n) && (n <=? 57)) || ((65 <=? n) && (n <=? 90))
  || ((97 <=? n) && (n <=? 122))
  || (n =? 42) || (n =? 45) || (n =? 46) || (n =? 95).

Definition HEX_digit (d : Z) : ascii :=
  if d <? 10 then Str.chr (48 + d) else Str.chr (55 + d).

Fixpoint percent (bs : list Z) : string :=
  match bs with
  | [] => EmptyString
  | b :: bs' =>
      if plain b then String (Str.chr b) (percent bs')
      else if b =? 32 then String "+" (percent bs')
      else String "%" (String (HEX_digit (b / 16))
                         (String (HEX_digit (b mod 16)) (percent bs')))
  end.

Definition encode (s : string) : string := percent (TextEncoder_encode s).

(** [searchParams.toString()] *)
Fixpoint serialize (params : list (string * string)) : string :=
  match params with
  | [] => EmptyString
  | (k, v) :: params' =>
      let pair := String.append (encode k) (String.append "=" (encode v)) in
      match params' with
      | [] => pair
      | _ => String.append pair (String.append "&" (serialize params'))
      end
  end.

End Url.

(** ** The accounts of the project

    The edge functions only read them: the user a session token belongs to
    ([supabase.auth.getUser], [None] when there is none) and the table
    [user_profiles] of the schema, keyed by [user_id]. *)
Record Accounts := {
  session_user : string -> option (list (string * jsval));
  user_profiles : gmap string Row;
}.

(** [supabase.auth.getUser(token)], a call of the same client: [user],
    which is [null] when the call fails or the token belongs to no user. *)
Definition auth_getUser (A : Accounts) (token : string) : M (option jsval) :=
  db "auth.users" "getUser"
     (fun w => u ← session_user A token; Some (JObj u, w)).

(** the message of an error object of the store client *)
Definition store_error_message (P : Platform) : string :=
  engine_message P "PostgrestError".

(** ** The OAuth endpoint (first function of zoom-oauth/index.ts)

    [query] is [new URL(req.url).searchParams]. *)

Module ZoomOAuth.
Section ZoomOAuth.

Variable P : Platform.
Variable A : Accounts.
(** [Date.now()], in milliseconds *)
Variable now : Z.

Definition json_response (st : Z) (v : jsval) : Response :=
  {| status := st; body := Json v |}.

(** [`${SUPABASE_URL}/functions/v1/zoom-oauth`] *)
Definition REDIRECT_URI : string :=
  String.append (default EmptyString (Deno_env_get P "SUPABASE_URL"))
    "/functions/v1/zoom-oauth".

(** [zoomAuthUrl.toString()] *)
Definition zoomAuthUrl (ZOOM_CLIENT_ID state : string) : string :=
  String.append "https://zoom.us/oauth/authorize?"
    (Url.serialize [ ("response_type", "code"); ("client_id", ZOOM_CLIENT_ID);
                     ("redirect_uri", REDIRECT_URI); ("state", state) ]%string).

(** step 1, [action=authorize] *)
Definition authorize (req : Request) (ZOOM_CLIENT_ID : string) : M Response :=
  let authHeader := default EmptyString (headers_get "Authorization" (req_headers req)) in
  if Str.is_empty authHeader then
    ret (json_response 401 (JObj [("error", JStr "Authorization required")]%string))
  else
    let token := Str.remove_first "Bearer " authHeader in
    let* user := auth_getUser A token in
    match user with
    | None => ret (json_response 401 (JObj [("error", JStr "Invalid token")]%string))
    | Some user =>
        let* id := lift (JS.prop user "id") in
        let* state := lift (JS.String_ id) in
        ret (json_response 200
               (JObj [("authorization_url", JStr (zoomAuthUrl ZOOM_CLIENT_ID state));
                      ("redirect_uri", JStr REDIRECT_URI)]%string))
    end.

(** the request that exchanges the code *)
Definition token_request (code ZOOM_CLIENT_ID ZOOM_CLIENT_SECRET : string) : HttpRequest :=
  {| http_method := "POST";
     http_url := "https://zoom.us/oauth/token";
     http_query := [];
     http_auth := Basic (String.append ZOOM_CLIENT_ID
                           (String.append ":" ZOOM_CLIENT_SECRET));
     http_form := [ ("grant_type", "authorization_code"); ("code", code);
                    ("redirect_uri", REDIRECT_URI) ]%string |}.

(** [from('zoom_tokens').upsert(obj, { onConflict: 'id' })], on the one row
    the table can hold *)
Definition upsert_tokens (obj : list (string * jsval)) : M (option unit) :=
  db "zoom_tokens" "upsert"
     (fun w => _ ← key_text (JS.assoc "id" obj);
               Some (tt, with_tokens (Some (row_of obj ∪ default ∅ (zoom_tokens w))) w)).

(** step 2, the callback: a [code] was received *)
Definition callback (code ZOOM_CLIENT_ID ZOOM_CLIENT_SECRET : string) : M Response :=
  let* tokenResponse :=
    do_fetch P (token_request code ZOOM_CLIENT_ID ZOOM_CLIENT_SECRET) in
  if negb (resp_ok tokenResponse) then
    let errorText := resp_text tokenResponse in
    console_error "Token exchange failed:";;
    ret (json_response 400
           (JObj [("error", JStr "Failed to get Zoom tokens");
                  ("details", JStr errorText)]%string))
  else
    let* tokens := lift (response_json P tokenResponse) in
    let* expires_in := lift (JS.prop tokens "expires_in") in
    let* expiresAt :=
      lift (toISOString (n ← to_number expires_in; Some (now + n * 1000))) in
    let* access_token := lift (JS.prop tokens "access_token") in
    let* refresh_token := lift (JS.prop tokens "refresh_token") in
    let* saved :=
      upsert_tokens [ ("id", JNum 1); ("access_token", access_token);
                      ("refresh_token", refresh_token); ("expires_at", expiresAt);
                      ("updated_at", JNum now) ]%string in
    if saved is None then
      console_error "Failed to save tokens:";;
      ret (json_response 500
             (JObj [("error", JStr "Failed to save tokens");
                    ("details", JStr (store_error_message P))]%string))
    else
      ret (json_response 200
             (JObj [("success", JBool true); ("message", JStr "Zoom connected")]%string)).

(** [from('zoom_tokens').select('id, expires_at, updated_at').eq('id', 1).single()] *)
Definition select_status : M (option Row) :=
  db "zoom_tokens" "select"
     (fun w => r ← zoom_tokens w;
               Some (filter (fun kv : string * jsval =>
                               fst kv ∈ ["id"; "expires_at"; "updated_at"]%string) r, w)).

(** step 3, [action=status] *)
Definition check_status : M Response :=
  let* data := select_status in
  match data with
  | None => ret (json_response 200 (JObj [("configured", JBool false)]%string))
  | Some data =>
      ret (json_response 200
             (JObj [("configured", JBool true);
                    ("expires_at", col data "expires_at");
                    ("updated_at", col data "updated_at")]%string))
  end.

Definition info : Response :=
  json_response 200
    (JObj [("message", JStr "Zoom OAuth endpoint");
           ("actions", JArr [JStr "authorize"; JStr "status"]);
           ("redirect_uri", JStr REDIRECT_URI)]%string).

(** the body of the [try] *)
Definition handle (query : list (string * string)) (req : Request) : M Response :=
  let code := Url.get "code" query in
  let state := Url.get "state" query in
  let action := Url.get "action" query in
  let ZOOM_CLIENT_ID := default EmptyString (Deno_env_get P "ZOOM_CLIENT_ID") in
  let ZOOM_CLIENT_SECRET := default EmptyString (Deno_env_get P "ZOOM_CLIENT_SECRET") in
  if Str.is_empty ZOOM_CLIENT_ID || Str.is_empty ZOOM_CLIENT_SECRET then
    ret (json_response 500
           (JObj [("error",
                   JStr "Zoom credentials not configured in Edge Function secrets")]%string))
  else if bool_decide (action = Some "authorize"%string) then
    authorize req ZOOM_CLIENT_ID
  else if negb (Str.is_empty (default EmptyString code)) then
    callback (default EmptyString code) ZOOM_CLIENT_ID ZOOM_CLIENT_SECRET
  else if bool_decide (action = Some "status"%string) then check_status
  else ret info.

Definition serve (query : list (string * string)) (req : Request) : M Response :=
  if String.eqb (req_method req) "OPTIONS" then
    ret {| status := 200; body := Text "ok" |}
  else
    try_catch (handle query req)
      (fun error =>
         console_error "Error:";;
         ret (json_response 500 (JObj [("error", JStr (error_message P error))]%string))).

End ZoomOAuth.
End ZoomOAuth.

(** ** The refresh by an administrator (first function of
    refresh-zoom-token/index.ts)

    [resp_status] is the status code of the answer of the provider to a
    request. *)

Module RefreshToken.
Section RefreshToken.

Variable P : Platform.
Variable A : Accounts.
Variable resp_status : HttpRequest -> Z.
(** [Date.now()], in milliseconds *)
Variable now : Z.

(** [from('user_profiles').select('role').eq('user_id', id).single()]:
    [data], which is [null] when the call fails or finds no row *)
Definition select_role (id : jsval) : M (option Row) :=
  db "user_profiles" "select"
     (fun w => k ← key_text (Some id);
               r ← user_profiles A !! k;
               Some (filter (fun kv : string * jsval => fst kv = "role"%string) r, w)).

Definition verifyAdminAuth (req : Request) : M jsval :=
  let authHeader := default EmptyString (headers_get "Authorization" (req_headers req)) in
  if Str.is_empty authHeader then throw (Error "Missing Authorization header")
  else
    let token := Str.remove_first "Bearer " authHeader in
    let* user := auth_getUser A token in
    match user with
    | None => throw (Error "Invalid or expired token")
    | Some user =>
        let* id := lift (JS.prop user "id") in
        let* authUser := select_role id in
        match authUser with
        | None => throw (Error "Admin access required")
        | Some authUser =>
            if negb (JS.is_str "admin" (col authUser "role"))
            then throw (Error "Admin access required")
            else ret user
        end
    end.

(** the request that refreshes the credential *)
Definition refresh_request (clientId clientSecret currentRefreshToken : string) : HttpRequest :=
  {| http_method := "POST";
     http_url := "https://zoom.us/oauth/token";
     http_query := [];
     http_auth := Basic (String.append clientId (String.append ":" clientSecret));
     http_form := [ ("grant_type", "refresh_token");
                    ("refresh_token", currentRefreshToken) ]%string |}.

(** [from('zoom_tokens').update(obj).eq('id', id)]: the row is updated when
    its [id] is the one given *)
Definition update_tokens_by_id (id : jsval) (obj : list (string * jsval)) : M (option unit) :=
  db "zoom_tokens" "update"
     (fun w => k ← key_text (Some id);
               Some (tt, with_tokens
                           ((fun r => if bool_decide (key_text (r !! "id"%string) = Some k)
                                      then row_of obj ∪ r else r) <$> zoom_tokens w) w)).

(** the body of the [try] *)
Definition handle (req : Request) : M Response :=
  verifyAdminAuth req;;
  let clientId := default EmptyString (Deno_env_get P "ZOOM_CLIENT_ID") in
  let clientSecret := default EmptyString (Deno_env_get P "ZOOM_CLIENT_SECRET") in
  if Str.is_empty clientId || Str.is_empty clientSecret then
    throw (Error "Missing ZOOM_CLIENT_ID or ZOOM_CLIENT_SECRET")
  else
    let* tokens := Store.select_tokens in
    match tokens with
    | None => throw (Error "No token record found in DB")
    | Some tokens =>
        let currentRefreshToken := col tokens "refresh_token" in
        let* refresh_token := lift (JS.String_ currentRefreshToken) in
        let request := refresh_request clientId clientSecret refresh_token in
        let* zoomResponse := do_fetch P request in
        if negb (resp_ok zoomResponse) then
          let errorText := resp_text zoomResponse in
          throw (Error (String.append "Zoom API Error "
                          (String.append (pretty (resp_status request))
                             (String.append ": " errorText))))
        else
          let* newTokens := lift (response_json P zoomResponse) in
          let* newAccessToken := lift (JS.prop newTokens "access_token") in
          let* new_refresh_token := lift (JS.prop newTokens "refresh_token") in
          let newRefreshToken := JS.or_else new_refresh_token currentRefreshToken in
          let* expires_in := lift (JS.prop newTokens "expires_in") in
          let* newExpiresAt :=
            lift (toISOString (n ← to_number expires_in; Some (now + n * 1000))) in
          let* updated :=
            update_tokens_by_id (col tokens "id")
              [ ("access_token", newAccessToken);
                ("refresh_token", newRefreshToken);
                ("expires_at", newExpiresAt);
                ("updated_at", JNum now) ]%string in
          if updated is None then
            throw (Error (String.append "Failed to update DB: " (store_error_message P)))
          else
            ret {| status := 200;
                   body := Json (JObj [("success", JBool true);
                                       ("expires_at", newExpiresAt)]%string) |}
    end.

(** the status the [catch] derives from the message *)
Definition error_status (message : string) : Z :=
  let status := 500 in
  let status := if Str.includes "Authorization" message || Str.includes "token" message
                then 401 else status in
  if Str.includes "Admin" message then 403 else status.

Definition serve (req : Request) : M Response :=
  if String.eqb (req_method req) "OPTIONS" then
    ret {| status := 200; body := Text "ok" |}
  else
    try_catch (handle req)
      (fun error =>
         console_error "error";;
         let message := error_message P error in
         ret {| status := error_status message;
                body := Json (JObj [("error", JStr message)]%string) |}).

End RefreshToken.
End RefreshToken.

(** ** The meeting sync (second function of refresh-zoom-token/index.ts)

    The requests for the meetings of the users are all started, in the
    order of the users, before any of them is answered; [Promise.all] then
    rejects with the rejection that came first. A request that could not
    even be started rejects at once; among the rejections that come with
    the answers, [race] is the one that came first. *)

Module ZoomMeetings.
Section ZoomMeetings.

Variable P : Platform.
Variable race : list Exn -> Exn.
(** [Date.now()], in milliseconds *)
Variable now : Z.

Definition verifyCronAuth (req : Request) : Res unit :=
  match headers_get "Authorization" (req_headers req) with
  | None => Throw (Error "Missing Authorization header")
  | Some authHeader =>
      if Str.is_empty authHeader then Throw (Error "Missing Authorization header")
      else
        let token := Str.remove_first "Bearer " authHeader in
        match Deno_env_get P "CRON_SECRET" with
        | None => Throw (Error "CRON_SECRET not configured")
        | Some cronSecret =>
            if Str.is_empty cronSecret then Throw (Error "CRON_SECRET not configured")
            else if negb (String.eqb token cronSecret) then Throw (Error "Invalid authorization")
            else Ok tt
        end
  end.

(** steps 1 and 2: the saved token, refreshed if needed *)
Definition access_token : M jsval :=
  let* tokenData := Store.select_tokens in
  match tokenData with
  | None => throw (Error "No Zoom tokens found. Please complete OAuth setup first.")
  | Some tokenData =>
      let accessToken := col tokenData "access_token" in
      let refreshToken := col tokenData "refresh_token" in
      let expiresAt_ms := date_ms (col tokenData "expires_at") in
      let now_s := now / 1000 in
      if (match expiresAt_ms with
          | Some t => t - 300 * 1000 <=? now_s * 1000
          | None => false
          end)
      then
        let ZOOM_CLIENT_ID := default EmptyString (Deno_env_get P "ZOOM_CLIENT_ID") in
        let ZOOM_CLIENT_SECRET := default EmptyString (Deno_env_get P "ZOOM_CLIENT_SECRET") in
        if Str.is_empty ZOOM_CLIENT_ID || Str.is_empty ZOOM_CLIENT_SECRET then
          throw (Error "Missing ZOOM_CLIENT_ID or ZOOM_CLIENT_SECRET in secrets")
        else
          let* refreshToken := lift (JS.String_ refreshToken) in
          let tokenUrl :=
            String.append
              "https://zoom.us/oauth/token?grant_type=refresh_token&refresh_token="
              refreshToken in
          let authHeader :=
            Basic (String.append ZOOM_CLIENT_ID (String.append ":" ZOOM_CLIENT_SECRET)) in
          let* refreshRes :=
            do_fetch P {| http_method := "POST"; http_url := tokenUrl;
                          http_query := []; http_auth := authHeader;
                          http_form := [] |} in
          if negb (resp_ok refreshRes) then
            throw (Error (String.append "Token refresh failed: " (resp_text refreshRes)))
          else
            let* newTokens := lift (response_json P refreshRes) in
            let* accessToken := lift (JS.prop newTokens "access_token") in
            let* newRefreshToken := lift (JS.prop newTokens "refresh_token") in
            let* expires_in := lift (JS.prop newTokens "expires_in") in
            let* newExpiresAt :=
              lift (toISOString (n ← to_number expires_in; Some (now + n * 1000))) in
            Store.update_tokens
              [ ("access_token", accessToken);
                ("refresh_token", newRefreshToken);
                ("expires_at", newExpiresAt);
                ("updated_at", JNum now) ]%string;;
            ret accessToken
      else ret accessToken
  end.

Definition users_request (bearer : string) : HttpRequest :=
  {| http_method := "GET";
     http_url := "https://api.zoom.us/v2/users?page_size=300&status=active";
     http_query := []; http_auth := Bearer bearer; http_form := [] |}.

(** step 3: [usersData.users || []], from the one page that is asked for *)
Definition all_users (accessToken : jsval) : M jsval :=
  let* bearer := lift (JS.String_ accessToken) in
  let* usersRes := do_fetch P (users_request bearer) in
  if negb (resp_ok usersRes) then
    throw (Error (String.append "Failed to fetch users: " (resp_text usersRes)))
  else
    let* usersData := lift (response_json P usersRes) in
    let* users := lift (JS.prop usersData "users") in
    ret (JS.or_else users (JArr [])).

Definition meetings_request (id bearer : string) : HttpRequest :=
  {| http_method := "GET";
     http_url := String.append "https://api.zoom.us/v2/users/"
                   (String.append id "/meetings?type=scheduled&page_size=300");
     http_query := []; http_auth := Bearer bearer; http_form := [] |}.

(** step 4, for one user, up to its first [await]: the request is started
    unless building it throws *)
Definition start (accessToken user : jsval) : M (Res HttpRequest) :=
  try_catch
    (let* id := lift (JS.prop user "id") in
     let* id := lift (JS.String_ id) in
     let* bearer := lift (JS.String_ accessToken) in
     let request := meetings_request id bearer in
     emit (HttpCall request);;
     ret (Ok request))
    (fun e => ret (Throw e)).

Fixpoint start_all (accessToken : jsval) (users : list jsval) : M (list (Res HttpRequest)) :=
  match users with
  | [] => ret []
  | user :: users' =>
      let* p := start accessToken user in
      let* ps := start_all accessToken users' in
      ret (p :: ps)
  end.

(** the rest of the function of one user, once its request is answered *)
Definition settle (request : HttpRequest) : Res jsval :=
  match fetch P request with
  | None => Throw (Raised "TypeError: fetch failed")
  | Some meetingsRes =>
      if resp_ok meetingsRes then
        match response_json P meetingsRes with
        | Ok meetingsData =>
            match JS.prop meetingsData "meetings" with
            | Ok meetings => Ok (JS.or_else meetings (JArr []))
            | Throw e => Throw e
            | Diverge => Diverge
            end
        | Throw e => Throw e
        | Diverge => Diverge
        end
      else Ok (JArr [])
  end.

Definition rejections {A} (rs : list (Res A)) : list Exn :=
  omap (fun r => match r with Throw e => Some e | _ => None end) rs.

Definition fulfilled {A} (rs : list (Res A)) : list A :=
  omap (fun r => match r with Ok a => Some a | _ => None end) rs.

(** [await Promise.all(meetingsPromises)] *)
Definition Promise_all (started : list (Res HttpRequest)) : Res (list jsval) :=
  match rejections started with
  | e :: _ => Throw e
  | [] =>
      let results := map settle (fulfilled started) in
      match rejections results with
      | [] => Ok (fulfilled results)
      | es => Throw (race es)
      end
  end.

(** [results.flat()] *)
Definition flat (results : list jsval) : list jsval :=
  flat_map (fun r => match r with JArr xs => xs | _ => [r] end) results.

(** [uniqueMeetings.set(key, value)] on a [Map], whose entries are in the
    order of their first insertion *)
Fixpoint Map_set {A} (key : string) (value : A) (entries : list (string * A))
    : list (string * A) :=
  match entries with
  | [] => [(key, value)]
  | (k, v) :: entries' =>
      if String.eqb k key then (key, value) :: entries'
      else (k, v) :: Map_set key value entries'
  end.

(** the row of one listed meeting *)
Definition meeting_row (m : jsval) (meeting_id : string) : list (string * jsval) :=
  [ ("meeting_id", JStr meeting_id); ("uuid", JS.get m "uuid");
    ("host_id", JS.get m "host_id"); ("topic", JS.get m "topic");
    ("type", JS.get m "type"); ("created_at", JS.get m "created_at");
    ("duration", JS.get m "duration"); ("timezone", JS.get m "timezone");
    ("join_url", JS.get m "join_url"); ("updated_at", JNum now) ]%string.

(** step 5: [allMeetings.forEach(m => uniqueMeetings.set(...))] *)
Fixpoint deduplicate (allMeetings : list jsval)
    (uniqueMeetings : list (string * list (string * jsval)))
    : Res (list (string * list (string * jsval))) :=
  match allMeetings with
  | [] => Ok uniqueMeetings
  | m :: allMeetings' =>
      match JS.prop m "id" with
      | Ok id =>
          match JS.toString id with
          | Ok key => deduplicate allMeetings' (Map_set key (meeting_row m key) uniqueMeetings)
          | Throw e => Throw e
          | Diverge => Diverge
          end
      | Throw e => Throw e
      | Diverge => Diverge
      end
  end.

(** [from('zoom_meetings').upsert(rows, { onConflict: 'meeting_id' })] *)
Definition upsert_meetings (objs : list (list (string * jsval))) : M (option unit) :=
  db "zoom_meetings" "upsert"
     (fun w => m ← Store.upsert_rows "meeting_id" objs [] (zoom_meetings w);
               Some (tt, with_meetings m w)).

(** the body of the [try] *)
Definition handle (req : Request) : M Response :=
  lift (verifyCronAuth req);;
  let* accessToken := access_token in
  let* users := all_users accessToken in
  match users with
  | JArr users =>
      let* meetingsPromises := start_all accessToken users in
      let* results := lift (Promise_all meetingsPromises) in
      let allMeetings := flat results in
      let* uniqueMeetings := lift (deduplicate allMeetings []) in
      let upsertData := map snd uniqueMeetings in
      (if (0 <? Z.of_nat (length upsertData)) then
         let* stored := upsert_meetings upsertData in
         if stored is None then throw (Raised "PostgrestError") else ret tt
       else ret tt);;
      ret {| status := 200;
             body := Json (JObj [("success", JBool true);
                                 ("users_scanned", JNum (Z.of_nat (length users)));
                                 ("meetings_synced",
                                  JNum (Z.of_nat (length upsertData)))]%string) |}
  | _ => throw (Raised "TypeError: users.map is not a function")
  end.

(** the status the [catch] derives from the message *)
Definition error_status (message : string) : Z :=
  if Str.includes "Missing Authorization" message
     || Str.includes "Invalid or expired" message then 401
  else if Str.includes "not authorized" message
          || Str.includes "Admin access" message then 403
  else 500.

Definition serve (req : Request) : M Response :=
  if String.eqb (req_method req) "OPTIONS" then
    ret {| status := 200; body := Text "ok" |}
  else
    try_catch (handle req)
      (fun error =>
         console_error "error";;
         let message := error_message P error in
         ret {| status := error_status message;
                body := Json (JObj [("error", JStr message)]%string) |}).

End ZoomMeetings.
End ZoomMeetings.

(** ** The functions of the schema on [user_profiles] (schema.sql) *)

Module Schema.

(** [is_admin()], [uid] being [auth.uid()] *)
Definition is_admin (profiles : gmap string Row) (uid : option string) : bool :=
  match uid with
  | Some uid =>
      match profiles !! uid with
      | Some profile => JS.is_str "admin" (col profile "role")
      | None => false
      end
  | None => false
  end.

(** [is_first_user()] *)
Definition is_first_user (profiles : gmap string Row) : bool :=
  bool_decide (size profiles = 0%nat).

(** the trigger [handle_new_user] on a row [NEW] of [auth.users], at the
    instant [now]: the insert, which a profile of the same [user_id]
    refuses *)
Definition handle_new_user (now : Z) (NEW : Row) (profiles : gmap string Row)
    : option (gmap string Row) :=
  user_id ← key_text (NEW !! "id"%string);
  match profiles !! user_id with
  | Some _ => None
  | None =>
      let role := if bool_decide (size profiles = 0%nat) then "admin"%string
                  else "user"%string in
      Some (<[user_id := {[ "user_id"%string := JStr user_id;
                            "email"%string := col NEW "email";
                            "role"%string := JStr role;
                            "display_name"%string := JNull;
                            "created_at"%string := JNum now;
                            "updated_at"%string := JNum now ]}]> profiles)
  end.

(** the registrations of [users], in order *)
Fixpoint register (now : Z) (users : list Row) (profiles : gmap string Row)
    : option (gmap string Row) :=
  match users with
  | [] => Some profiles
  | NEW :: users' =>
      profiles' ← handle_new_user now NEW profiles;
      register now users' profiles'
  end.

End Schema.

(** ** More vocabulary *)

(** [m] gives a value that satisfies [Q], or fails leaving the worlds
    related by [R] *)
Definition guarded {A} (R : World -> World -> Prop) (Q : A -> Prop) (m : M A) : Prop :=
  forall w, match (m w).1 with
            | Ok a => Q a
            | _ => R w (m w).2
            end.

(** [m] gives a value that satisfies [Q] or throws: it does not run out of
    fuel *)
Definition ends {A} (Q : A -> Prop) (m : M A) : Prop :=
  forall w, match (m w).1 with
            | Ok a => Q a
            | Throw _ => True
            | Diverge => False
            end.

(** [m] gives a value that satisfies [Q] *)
Definition returns {A} (Q : A -> Prop) (m : M A) : Prop :=
  forall w, exists a, (m w).1 = Ok a /\ Q a.

(** the answer of every handler to an exception it caught in the webhook *)
Definition internal_server_error : Response :=
  Webhook.json_response 500 (JObj [("error", JStr "Internal server error")]%string).

Definition logged (msg : string) (w : World) : World :=
  with_trace (fun t => t ++ [ConsoleError msg]) w.

(** the only difference between the worlds is in the trace and the pending
    outcomes of the store *)
Definition tables_kept (w w' : World) : Prop :=
  zoom_tokens w' = zoom_tokens w /\ zoom_users w' = zoom_users w
  /\ zoom_meetings w' = zoom_meetings w /\ zoom_events w' = zoom_events w.

(** the users (the meetings) are as before *)
Definition users_kept (w w' : World) : Prop := zoom_users w' = zoom_users w.
Definition meetings_kept (w w' : World) : Prop := zoom_meetings w' = zoom_meetings w.

(** ** A second deployment, for the examples of the other functions *)

Module Scenario.

Local Open Scope string_scope.

Definition env (name : string) : option string :=
  if String.eqb name "SUPABASE_URL" then Some "https://chronos.example.org"
  else Example.env name.

(** more bodies posted to the webhook *)
Definition recording_text : string :=
  Example.dq "{'event':'recording.completed','payload':{'object':{'id':123}}}".
Definition meeting_created_text : string :=
  Example.dq "{'event':'meeting.created','payload':{'object':{'id':789,'topic':'Kickoff','host_id':'u0'}}}".
Definition meeting_789_deleted_text : string :=
  Example.dq "{'event':'meeting.deleted','payload':{'object':{'id':789}}}".
Definition meeting_no_id_text : string :=
  Example.dq "{'event':'meeting.started','payload':{'object':{'topic':'Kickoff'}}}".

(** more bodies sent to the cron trigger *)
Definition refresh_token_text : string := Example.dq "{'action':'refresh-token'}".

Definition parse (text : string) : option jsval :=
  if String.eqb text refresh_token_text then
    Some (JObj [("action", JStr "refresh-token")])
  else if String.eqb text recording_text then
    Some (Example.event "recording.completed" (JObj [("id", JNum 123)]))
  else if String.eqb text meeting_created_text then
    Some (Example.event "meeting.created"
            (JObj [("id", JNum 789); ("topic", JStr "Kickoff"); ("host_id", JStr "u0")]))
  else if String.eqb text meeting_789_deleted_text then
    Some (Example.event "meeting.deleted" (JObj [("id", JNum 789)]))
  else if String.eqb text meeting_no_id_text then
    Some (Example.event "meeting.started" (JObj [("topic", JStr "Kickoff")]))
  else Example.parse text.

Definition platform : Platform :=
  {| Deno_env_get := env; JSON_parse := parse; fetch := Example.provider;
     engine_message := fun what => what |}.

(** two accounts: an administrator and a plain user, with their sessions *)
Definition sessions (token : string) : option (list (string * jsval)) :=
  if String.eqb token "jwt-admin" then
    Some [("id", JStr "a1"); ("email", JStr "admin@example.org")]
  else if String.eqb token "jwt-user" then
    Some [("id", JStr "b2"); ("email", JStr "user@example.org")]
  else None.

Definition accounts : Accounts :=
  {| session_user := sessions;
     user_profiles :=
       {[ "a1" := {[ "user_id" := JStr "a1"; "role" := JStr "admin" ]};
          "b2" := {[ "user_id" := JStr "b2"; "role" := JStr "user" ]} ]} |}.

Definition session_request (token : string) : Request :=
  {| req_method := "POST";
     req_headers := [("Authorization", String.append "Bearer " token)];
     req_text := "" |}.

(** the store of the first deployment, its credential with its [id] *)
Definition credential : Row :=
  <["id" := JNum 1]> (Example.credential (Example.now + 3600000)).

Definition world : World := with_tokens (Some credential) Example.world.

(** the answer of the provider at the token endpoint *)
Definition new_tokens : jsval :=
  JObj [("access_token", JStr "new-token"); ("refresh_token", JStr "r2");
        ("expires_in", JNum 3600)].

(** a provider that serves the first page of users and refuses the second *)
Definition refusing (req : HttpRequest) : option HttpResponse :=
  if String.eqb (http_url req) "https://api.zoom.us/v2/users" then
    match Url.get "next_page_token" (http_query req) with
    | None => Example.answer Example.page1_text
    | Some _ => Some {| resp_ok := false; resp_text := "rate limited" |}
    end
  else Example.provider req.

Definition refused : Platform :=
  {| Deno_env_get := env; JSON_parse := parse; fetch := refusing;
     engine_message := fun what => what |}.

(** a provider whose token endpoint refuses *)
Definition declining (req : HttpRequest) : option HttpResponse :=
  if String.eqb (http_url req) "https://zoom.us/oauth/token" then
    Some {| resp_ok := false; resp_text := "invalid_grant" |}
  else Example.provider req.

Definition declined : Platform :=
  {| Deno_env_get := env; JSON_parse := parse; fetch := declining;
     engine_message := fun what => what |}.

(** a provider for the meeting sync: two users on a page that says there
    are more, and a meeting that both of them list *)
Definition users_page_text : string :=
  Example.dq "{'users':[{'id':'u1'},{'id':'u2'}],'next_page_token':'X'}".
Definition u1_meetings_text : string :=
  Example.dq "{'meetings':[{'id':456,'topic':'Retro'},{'id':789,'topic':'Kickoff'}]}".
Definition u2_meetings_text : string :=
  Example.dq "{'meetings':[{'id':456,'topic':'Retro, moved'}]}".

Definition retro : jsval := JObj [("id", JNum 456); ("topic", JStr "Retro")].
Definition kickoff : jsval := JObj [("id", JNum 789); ("topic", JStr "Kickoff")].
Definition retro_moved : jsval := JObj [("id", JNum 456); ("topic", JStr "Retro, moved")].

Definition users_page : jsval :=
  JObj [("users", JArr [JObj [("id", JStr "u1")]; JObj [("id", JStr "u2")]]);
        ("next_page_token", JStr "X")].

Definition parse_listed (text : string) : option jsval :=
  if String.eqb text users_page_text then Some users_page
  else if String.eqb text u1_meetings_text then
    Some (JObj [("meetings", JArr [retro; kickoff])])
  else if String.eqb text u2_meetings_text then
    Some (JObj [("meetings", JArr [retro_moved])])
  else parse text.

Definition listing_provider (req : HttpRequest) : option HttpResponse :=
  let url := http_url req in
  if String.eqb url "https://api.zoom.us/v2/users?page_size=300&status=active" then
    Example.answer users_page_text
  else if String.eqb url
            "https://api.zoom.us/v2/users/u1/meetings?type=scheduled&page_size=300" then
    Example.answer u1_meetings_text
  else if String.eqb url
            "https://api.zoom.us/v2/users/u2/meetings?type=scheduled&page_size=300" then
    Example.answer u2_meetings_text
  else Example.provider req.

Definition listed : Platform :=
  {| Deno_env_get := env; JSON_parse := parse_listed; fetch := listing_provider;
     engine_message := fun what => what |}.

End Scenario.

(** a listed item that is neither [undefined] nor [null] *)
Definition is_item (v : jsval) : Prop := v <> JUndefined /\ v <> JNull.

(** the request of the cron trigger for one page of users *)
Definition cron_users_request (bearer : string) (cursor : list (string * string))
    : HttpRequest :=
  {| http_method := "GET";
     http_url := "https://api.zoom.us/v2/users";
     http_query := ("page_size", "300")%string :: cursor;
     http_auth := Bearer bearer;
     http_form := [] |}.


(** the columns the bulk pulls write for a listed user *)
Definition user_columns : list string :=
  [ "id"; "first_name"; "last_name"; "display_name"; "email"; "type"; "status";
    "pmi"; "timezone"; "dept"; "created_at"; "last_login_time" ]%string.

(** the keys of listed items, in order *)
Definition keyed (key : jsval -> option string) (items : list jsval) (keys : list string)
    : Prop :=
  Forall2 (fun item k => key (JS.get item "id") = Some k) items keys.

(** the [catch] of the OAuth endpoint *)
Definition caught (P : Platform) (error : Exn) : M Response :=
  console_error "Error:";;
  ret (ZoomOAuth.json_response 500 (JObj [("error", JStr (error_message P error))]%string)).

(** the credential the callback of the OAuth endpoint writes for the answer
    [tokens] of the provider *)
Definition granted_credential (now : Z) (tokens : jsval) (expires_in : Z)
    : list (string * jsval) :=
  [ ("id", JNum 1); ("access_token", JS.get tokens "access_token");
    ("refresh_token", JS.get tokens "refresh_token");
    ("expires_at", JNum (now + expires_in * 1000)); ("updated_at", JNum now) ]%string.

(** the columns the refresh by an administrator writes for the answer
    [newTokens] of the provider, [row] being the stored credential *)
Definition refreshed_credential (now : Z) (newTokens : jsval) (expires_in : Z) (row : Row)
    : list (string * jsval) :=
  [ ("access_token", JS.get newTokens "access_token");
    ("refresh_token",
     JS.or_else (JS.get newTokens "refresh_token") (col row "refresh_token"));
    ("expires_at", JNum (now + expires_in * 1000)); ("updated_at", JNum now) ]%string.

(** the answer of the [catch] of the two functions of refresh-zoom-token *)
Definition refusal (st : Z) (message : string) : Res Response :=
  Ok {| status := st; body := Json (JObj [("error", JStr message)]%string) |}.

(** [key] is [m.id.toString()] *)
Definition listed_key (m : jsval) (key : string) : Prop :=
  exists id, JS.prop m "id" = Ok id /\ JS.toString id = Ok key.

(** [i] is the last place of [key] in [keys] *)
Definition last_at (keys : list string) (i : nat) (key : string) : Prop :=
  keys !! i = Some key /\ forall j, (i < j)%nat -> keys !! j <> Some key.

(** [uid] is the id of a listed user, as the address of its meetings
    spells it *)
Definition listed_user (user : jsval) (uid : string) : Prop :=
  exists id, JS.prop user "id" = Ok id /\ JS.String_ id = Ok uid.


(** * Properties *)

Example sha256_abc :
  hex (SHA256.hash (TextEncoder_encode "abc"))
  = "ba7816bf8f01cfea414140de5dae2223b00361a396177a9cb410ff61f20015ad"%string.
Proof. vm_compute. reflexivity. Qed.

Example hmac_rfc4231_case2 :
  hex (SHA256.hmac (TextEncoder_encode "Jefe")
                   (TextEncoder_encode "what do ya want for nothing?"))
  = "5bdcc146bf60754e6a042426089575c75a003f089d2739839dec58b964ec3843"%string.
Proof. vm_compute. reflexivity. Qed.

(** ** Hexadecimal encoding and the signature format *)

Lemma hex_digit_inj (d e : Z) :
  0 <= d < 16 -> 0 <= e < 16 -> hex_digit d = hex_digit e -> d = e.
Proof.
  intros Hd He.
  assert (Hcases : forall x, 0 <= x < 16 ->
            x = 0 \/ x = 1 \/ x = 2 \/ x = 3 \/ x = 4 \/ x = 5 \/ x = 6 \/ x = 7 \/
            x = 8 \/ x = 9 \/ x = 10 \/ x = 11 \/ x = 12 \/ x = 13 \/ x = 14 \/ x = 15)
    by (intros; lia).
  destruct (Hcases d Hd) as [-> | H1]; repeat (destruct H1 as [-> | H1]); try subst d;
    destruct (Hcases e He) as [-> | H2]; repeat (destruct H2 as [-> | H2]); try subst e;
    first [reflexivity | vm_compute; discriminate].
Qed.

Lemma hex_inj (bs cs : list Z) :
  is_bytes bs -> is_bytes cs -> hex bs = hex cs -> bs = cs.
Proof.
  intros Hb; revert cs; induction Hb as [| b bs Hb _ IH]; intros cs Hc E.
  - destruct cs; [reflexivity | discriminate].
  - destruct Hc as [| c cs Hc Hcs]; [discriminate |].
    simpl in E. injection E as E1 E2 E3.
    apply hex_digit_inj in E1; [| split; [apply Z.div_pos | apply Z.div_lt_upper_bound]; lia ..].
    apply hex_digit_inj in E2; [| apply Z.mod_pos_bound; lia ..].
    f_equal; [| by apply IH].
    rewrite (Z.div_mod b 16), (Z.div_mod c 16) by lia. congruence.
Qed.

Lemma hash_is_bytes (msg : list Z) : is_bytes (SHA256.hash msg).
Proof.
  unfold SHA256.hash, is_bytes.
  generalize (SHA256.blocks (length (SHA256.pad msg)) SHA256.H0 (SHA256.pad msg)).
  intros ws. induction ws as [| x ws IH]; simpl; [constructor |].
  repeat (constructor; [apply Z.mod_pos_bound; lia |]). exact IH.
Qed.

Lemma hmac_is_bytes (key msg : list Z) : is_bytes (SHA256.hmac key msg).
Proof. unfold SHA256.hmac. apply hash_is_bytes. Qed.

Lemma encode_nonempty (s : string) : s <> EmptyString -> TextEncoder_encode s <> [].
Proof.
  destruct s as [| c s]; [congruence |]. intros _. simpl.
  destruct (Str.code c <? 128); discriminate.
Qed.

Lemma importKey_configured (secret : string) :
  secret <> EmptyString ->
  Webhook.importKey (Some secret) = Ok (TextEncoder_encode secret).
Proof.
  intros H. apply encode_nonempty in H. unfold Webhook.importKey. simpl.
  destruct (TextEncoder_encode secret); [congruence | reflexivity].
Qed.

Lemma eqb_decide (a b : string) : String.eqb a b = bool_decide (a = b).
Proof.
  destruct (String.eqb_spec a b) as [E | E].
  - by rewrite bool_decide_eq_true_2.
  - by rewrite bool_decide_eq_false_2.
Qed.

Lemma is_empty_false (s : string) : s <> EmptyString -> Str.is_empty s = false.
Proof. destruct s; [congruence | reflexivity]. Qed.

Lemma is_empty_true (s : string) : Str.is_empty s = true -> s = EmptyString.
Proof. destruct s; [reflexivity | discriminate]. Qed.

Lemma append_inj_l (p a b : string) : String.append p a = String.append p b -> a = b.
Proof. induction p as [| c p IH]; simpl; [auto | intros E; injection E; auto]. Qed.

(** What [verifyZoomSignature] computes once both headers are there, the
    timestamp is not stale and the secret is configured. *)
Lemma verify_fresh (P : Platform) (now : Z) (req : Request) (body secret s t : string) :
  Deno_env_get P "ZOOM_WEBHOOK_SECRET_TOKEN" = Some secret ->
  secret <> EmptyString ->
  headers_get "x-zm-signature" (req_headers req) = Some s ->
  headers_get "x-zm-request-timestamp" (req_headers req) = Some t ->
  t <> EmptyString ->
  (forall n, JS.parseInt t = Some n -> Z.abs (now / 1000 - n) <= 300) ->
  Webhook.verifyZoomSignature P now req body
  = Ok (bool_decide (s = Spec.signature secret t body)).
Proof.
  intros Hsecret Hne Hs Ht Htne Hfresh.
  unfold Webhook.verifyZoomSignature. rewrite Hs, Ht, Hsecret.
  rewrite (is_empty_false t Htne), importKey_configured by done.
  destruct (Str.is_empty s) eqn:Es.
  - apply is_empty_true in Es. subst s. reflexivity.
  - cbn [orb].
    destruct (JS.parseInt t) as [n |] eqn:En.
    + specialize (Hfresh n eq_refl).
      destruct (300 <? Z.abs (now / 1000 - n)) eqn:E; [apply Z.ltb_lt in E; lia |].
      by rewrite eqb_decide.
    + by rewrite eqb_decide.
Qed.

(** C2. Signature verification: [verify] is false when the signature or the
    timestamp header is absent; false when the timestamp is more than 300
    seconds from now; otherwise true exactly when the signature is the one
    of the design ([Spec.signature]); hence, for a request that verifies, a
    body whose HMAC differs (any mutation that does not collide) does not
    verify under the same headers. *)
Theorem C2_verify_signature
    (P : Platform) (now : Z) (req : Request) (body secret : string) :
  Deno_env_get P "ZOOM_WEBHOOK_SECRET_TOKEN" = Some secret ->
  secret <> EmptyString ->
  let verify := Webhook.verifyZoomSignature P now req in
  let sig := headers_get "x-zm-signature" (req_headers req) in
  let ts := headers_get "x-zm-request-timestamp" (req_headers req) in
  (sig = None \/ ts = None -> verify body = Ok false)
  /\ (forall t n, ts = Some t -> JS.parseInt t = Some n ->
        300 < Z.abs (now / 1000 - n) -> verify body = Ok false)
  /\ (forall s t, sig = Some s -> ts = Some t -> t <> EmptyString ->
        (forall n, JS.parseInt t = Some n -> Z.abs (now / 1000 - n) <= 300) ->
        verify body = Ok (bool_decide (s = Spec.signature secret t body)))
  /\ (forall t body', ts = Some t -> verify body = Ok true ->
        SHA256.hmac (TextEncoder_encode secret)
          (TextEncoder_encode (Webhook.signed_message t body'))
        <> SHA256.hmac (TextEncoder_encode secret)
             (TextEncoder_encode (Webhook.signed_message t body)) ->
        verify body' = Ok false).
Proof.
  intros Hsecret Hne verify sig ts. subst verify sig ts.
  repeat split.
  - intros [H | H]; unfold Webhook.verifyZoomSignature; rewrite H; [reflexivity |].
    by destruct (headers_get "x-zm-signature" (req_headers req)).
  - intros t n Ht Hn Hstale. unfold Webhook.verifyZoomSignature. rewrite Ht, Hn.
    apply Z.ltb_lt in Hstale. rewrite Hstale.
    destruct (headers_get "x-zm-signature" (req_headers req)); [| reflexivity].
    by destruct (Str.is_empty s || Str.is_empty t).
  - intros s t Hs Ht Htne Hfresh. by apply verify_fresh.
  - intros t body' Ht Hok Hdiff.
    unfold Webhook.verifyZoomSignature in *. rewrite Ht, Hsecret in *.
    destruct (headers_get "x-zm-signature" (req_headers req)) as [s |]; [| discriminate].
    destruct (Str.is_empty s || Str.is_empty t); [discriminate |].
    destruct (match JS.parseInt t with
              | Some t0 => 300 <? Z.abs (now / 1000 - t0)
              | None => false
              end); [discriminate |].
    rewrite importKey_configured in * by done.
    injection Hok as Hok. apply String.eqb_eq in Hok. f_equal.
    apply String.eqb_neq. intros E. rewrite Hok in E.
    apply append_inj_l, hex_inj in E; [| apply hmac_is_bytes ..].
    apply Hdiff. symmetry. exact E.
Qed.

(** ** The rules of [sat] *)

Section Sat.
Context {R : World -> World -> Prop} `{!Frame R}.

Lemma sat_ret {A} (Q : A -> Prop) (a : A) : Q a -> sat R Q (ret a).
Proof. intros H w. split; [apply frame_refl | intros b [= <-]; exact H]. Qed.

Lemma sat_throw {A} (Q : A -> Prop) (e : Exn) : sat R Q (throw e).
Proof. intros w. split; [apply frame_refl | intros b [=]]. Qed.

Lemma sat_lift {A} (r : Res A) : sat R (fun a => r = Ok a) (lift r).
Proof. intros w. split; [apply frame_refl | intros b E; exact E]. Qed.

Lemma sat_weaken {A} (Q Q' : A -> Prop) (m : M A) :
  sat R Q m -> (forall a, Q a -> Q' a) -> sat R Q' m.
Proof. intros H HQ w. destruct (H w) as [H1 H2]. split; [exact H1 | auto]. Qed.

Lemma sat_bind {A B} (Q1 : A -> Prop) (Q : B -> Prop) (m : M A) (k : A -> M B) :
  sat R Q1 m -> (forall a, Q1 a -> sat R Q (k a)) -> sat R Q (bind m k).
Proof.
  intros Hm Hk w. unfold bind. destruct (Hm w) as [H1 H2].
  destruct (m w) as [[a | e |] w1]; simpl in *.
  - destruct (Hk a (H2 a eq_refl) w1) as [H3 H4].
    split; [eapply frame_trans; eassumption | exact H4].
  - split; [exact H1 | intros b [=]].
  - split; [exact H1 | intros b [=]].
Qed.

Lemma sat_try_catch {A} (Q : A -> Prop) (m : M A) (h : Exn -> M A) :
  sat R Q m -> (forall e, sat R Q (h e)) -> sat R Q (try_catch m h).
Proof.
  intros Hm Hh w. unfold try_catch. destruct (Hm w) as [H1 H2].
  destruct (m w) as [[a | e |] w1]; simpl in *.
  - split; [exact H1 | exact H2].
  - destruct (Hh e w1) as [H3 H4].
    split; [eapply frame_trans; eassumption | exact H4].
  - split; [exact H1 | intros b [=]].
Qed.

Lemma sat_emit (e : Effect) : sat R (fun _ => True) (emit e).
Proof. intros w. split; [apply frame_trace | auto]. Qed.

Lemma sat_console_error (msg : string) : sat R (fun _ => True) (console_error msg).
Proof. apply sat_emit. Qed.

Lemma sat_fetch (P : Platform) (req : HttpRequest) :
  sat R (fun r => fetch P req = Some r) (do_fetch P req).
Proof.
  unfold do_fetch. eapply sat_bind; [apply sat_emit |]. intros _ _.
  destruct (fetch P req) as [r |]; [| apply sat_throw].
  apply sat_ret. reflexivity.
Qed.

(** a store call keeps [R] when applying its statement does *)
Lemma sat_db {A} (table verb : string) (apply : World -> option (A * World)) :
  (forall w a w2, apply w = Some (a, w2) -> R w w2) ->
  sat R (fun _ => True) (db table verb apply).
Proof.
  intros Happly w. split; [| auto]. unfold db.
  destruct (match faults w with b :: _ => b | [] => false end).
  - simpl. eapply frame_trans; [apply frame_faults | apply frame_trace].
  - destruct (apply (with_faults (tail (faults w)) w)) as [[a w2] |] eqn:E; simpl.
    + eapply frame_trans; [apply frame_faults |].
      eapply frame_trans; [eapply Happly; exact E | apply frame_trace].
    + eapply frame_trans; [apply frame_faults | apply frame_trace].
Qed.

End Sat.

(** ** The bulk pulls only add and overwrite the rows they list *)

#[local] Instance keeps_frame (ku km : string) : Frame (keeps ku km).
Proof.
  split; unfold keeps; simpl; try done.
  intros a b c [H1 H2] [H3 H4]. split; congruence.
Qed.

#[local] Instance grows_frame : Frame grows.
Proof.
  split; unfold grows; simpl; try done.
  intros a b c [H1 H2] [H3 H4]. split; auto.
Qed.

Lemma upsert_row_other (key : string) (obj : list (string * jsval))
    (t t' : gmap string Row) (k : string) :
  upsert_row key obj t = Some t' ->
  key_text (JS.assoc key obj) <> Some k ->
  t' !! k = t !! k.
Proof.
  unfold upsert_row. intros H Hk.
  destruct (key_text (JS.assoc key obj)) as [k0 |]; [| discriminate].
  injection H as <-. apply lookup_insert_ne. congruence.
Qed.

Lemma upsert_row_grows (key : string) (obj : list (string * jsval))
    (t t' : gmap string Row) (k : string) :
  upsert_row key obj t = Some t' -> is_Some (t !! k) -> is_Some (t' !! k).
Proof.
  unfold upsert_row. intros H Hk.
  destruct (key_text (JS.assoc key obj)) as [k0 |]; [| discriminate].
  injection H as <-. rewrite lookup_insert. case_decide; [eauto | done].
Qed.

Lemma upsert_rows_other (key : string) (objs : list (list (string * jsval)))
    (seen : list string) (t t' : gmap string Row) (k : string) :
  Store.upsert_rows key objs seen t = Some t' ->
  Forall (fun obj => key_text (JS.assoc key obj) <> Some k) objs ->
  t' !! k = t !! k.
Proof.
  revert seen t. induction objs as [| obj objs IH]; intros seen t H Hk; simpl in H.
  - by injection H as <-.
  - inversion Hk as [| ? ? Hobj Hobjs]; subst.
    destruct (key_text (JS.assoc key obj)) as [k0 |]; [| discriminate].
    case_bool_decide; [discriminate |].
    rewrite (IH _ _ H Hobjs). apply lookup_insert_ne. congruence.
Qed.

Lemma upsert_rows_grows (key : string) (objs : list (list (string * jsval)))
    (seen : list string) (t t' : gmap string Row) (k : string) :
  Store.upsert_rows key objs seen t = Some t' -> is_Some (t !! k) -> is_Some (t' !! k).
Proof.
  revert seen t. induction objs as [| obj objs IH]; intros seen t H Hk; simpl in H.
  - by injection H as <-.
  - destruct (key_text (JS.assoc key obj)) as [k0 |]; [| discriminate].
    case_bool_decide; [discriminate |].
    apply (IH _ _ H). rewrite lookup_insert. case_decide; [eauto | done].
Qed.

Lemma listed_keys_elem (P : Platform) (field : string) (key : jsval -> option string)
    (resp : HttpResponse) (data items : jsval) (us : list jsval) (u id : jsval) (k : string) :
  response_json P resp = Ok data ->
  JS.prop data field = Ok items ->
  JS.iterate (JS.or_else items (JArr [])) = Ok us ->
  u ∈ us -> JS.prop u "id" = Ok id -> key id = Some k ->
  k ∈ listed_keys P field key resp.
Proof.
  intros H1 H2 H3 Hu Hid Hk. unfold listed_keys. rewrite H1, H2, H3.
  apply list_elem_of_omap. exists u. split; [exact Hu |]. by rewrite Hid.
Qed.

(** the store calls of the bulk pulls *)

Lemma keeps_upsert_user (ku km : string) (obj : list (string * jsval)) :
  key_text (JS.assoc "id" obj) <> Some ku ->
  sat (keeps ku km) (fun _ => True) (Store.upsert_user obj).
Proof.
  intros Hk. apply sat_db. intros w a w2 H.
  destruct (upsert_row "id" obj (zoom_users w)) as [u |] eqn:E; [| discriminate].
  injection H as _ <-. split; simpl; [| done].
  eapply upsert_row_other; eassumption.
Qed.

Lemma keeps_upsert_meeting (ku km : string) (obj : list (string * jsval)) :
  key_text (JS.assoc "meeting_id" obj) <> Some km ->
  sat (keeps ku km) (fun _ => True) (Store.upsert_meeting obj).
Proof.
  intros Hk. apply sat_db. intros w a w2 H.
  destruct (upsert_row "meeting_id" obj (zoom_meetings w)) as [u |] eqn:E; [| discriminate].
  injection H as _ <-. split; simpl; [done |].
  eapply upsert_row_other; eassumption.
Qed.

Lemma keeps_upsert_users (ku km : string) (objs : list (list (string * jsval))) :
  Forall (fun obj => key_text (JS.assoc "id" obj) <> Some ku) objs ->
  sat (keeps ku km) (fun _ => True) (Store.upsert_users objs).
Proof.
  intros Hk. apply sat_db. intros w a w2 H.
  destruct (Store.upsert_rows "id" objs [] (zoom_users w)) as [u |] eqn:E; [| discriminate].
  injection H as _ <-. split; simpl; [| done].
  eapply upsert_rows_other; eassumption.
Qed.

Lemma grows_upsert_user (obj : list (string * jsval)) :
  sat grows (fun _ => True) (Store.upsert_user obj).
Proof.
  apply sat_db. intros w a w2 H.
  destruct (upsert_row "id" obj (zoom_users w)) as [u |] eqn:E; [| discriminate].
  injection H as _ <-. split; simpl; [| done].
  intros k. eapply upsert_row_grows; eassumption.
Qed.

Lemma grows_upsert_meeting (obj : list (string * jsval)) :
  sat grows (fun _ => True) (Store.upsert_meeting obj).
Proof.
  apply sat_db. intros w a w2 H.
  destruct (upsert_row "meeting_id" obj (zoom_meetings w)) as [u |] eqn:E; [| discriminate].
  injection H as _ <-. split; simpl; [done |].
  intros k. eapply upsert_row_grows; eassumption.
Qed.

Lemma grows_upsert_users (objs : list (list (string * jsval))) :
  sat grows (fun _ => True) (Store.upsert_users objs).
Proof.
  apply sat_db. intros w a w2 H.
  destruct (Store.upsert_rows "id" objs [] (zoom_users w)) as [u |] eqn:E; [| discriminate].
  injection H as _ <-. split; simpl; [| done].
  intros k. eapply upsert_rows_grows; eassumption.
Qed.

Section BulkStore.
Context {R : World -> World -> Prop} `{!Frame R}.
Hypothesis R_tokens : forall t w, R w (with_tokens t w).

Lemma sat_select_tokens : sat R (fun _ => True) Store.select_tokens.
Proof.
  apply sat_db. intros w a w2 H. destruct (zoom_tokens w); [| discriminate].
  injection H as _ <-. apply frame_refl.
Qed.

Lemma sat_update_tokens (obj : list (string * jsval)) :
  sat R (fun _ => True) (Store.update_tokens obj).
Proof. apply sat_db. intros w a w2 [= _ <-]. apply R_tokens. Qed.

Lemma sat_select_active_users : sat R (fun _ => True) Store.select_active_users.
Proof. apply sat_db. intros w a w2 [= _ <-]. apply frame_refl. Qed.

End BulkStore.

Lemma keeps_tokens (ku km : string) (t : option Row) (w : World) :
  keeps ku km w (with_tokens t w).
Proof. done. Qed.

Lemma grows_tokens (t : option Row) (w : World) : grows w (with_tokens t w).
Proof. done. Qed.

Ltac sat_step :=
  match goal with
  | |- sat _ _ (bind (lift _) _) =>
      eapply sat_bind; [apply sat_lift | let H := fresh "E" in intros ? H; cbv beta in H]
  | |- sat _ _ (bind (do_fetch _ _) _) =>
      eapply sat_bind; [apply sat_fetch | let H := fresh "E" in intros ? H; cbv beta in H]
  | |- sat _ _ (bind _ _) => apply (sat_bind (fun _ => True)); [| intros ? _]
  | |- sat _ _ (ret _) => apply sat_ret; exact I
  | |- sat _ _ (throw _) => apply sat_throw
  | |- sat _ _ (lift _) => eapply sat_weaken; [apply sat_lift | done]
  | |- sat _ _ (console_error _) => apply sat_console_error
  | |- sat _ _ (try_catch _ _) => apply sat_try_catch; [| intros ?]
  | |- sat _ _ (if ?b then _ else _) => destruct b eqn:?
  | |- sat _ _ (match ?x with _ => _ end) => destruct x eqn:?
  end.

(** The two bulk pulls, for any relation that the token row does not
    matter to and that the upserts of the keys outside [badU] ([badM])
    keep. *)
Section Bulk.

Variable P : Platform.
Variable now : Z.
Context {R : World -> World -> Prop} `{!Frame R}.
Variables badU badM : string -> Prop.

Hypothesis R_tokens : forall t w, R w (with_tokens t w).
Hypothesis R_upsert_user : forall obj,
  (forall k, key_text (JS.assoc "id" obj) = Some k -> ~ badU k) ->
  sat R (fun _ => True) (Store.upsert_user obj).
Hypothesis R_upsert_users : forall objs,
  Forall (fun obj => forall k, key_text (JS.assoc "id" obj) = Some k -> ~ badU k) objs ->
  sat R (fun _ => True) (Store.upsert_users objs).
Hypothesis R_upsert_meeting : forall obj,
  (forall k, key_text (JS.assoc "meeting_id" obj) = Some k -> ~ badM k) ->
  sat R (fun _ => True) (Store.upsert_meeting obj).
Hypothesis provider_users : forall req resp k,
  fetch P req = Some resp -> k ∈ listed_keys P "users" user_key resp -> ~ badU k.
Hypothesis provider_meetings : forall req resp k,
  fetch P req = Some resp -> k ∈ listed_keys P "meetings" meeting_key resp -> ~ badM k.

Lemma bulk_refreshZoomToken : sat R (fun _ => True) (Cron.refreshZoomToken P now).
Proof.
  unfold Cron.refreshZoomToken.
  apply (sat_bind (fun _ => True)); [by apply sat_select_tokens |]. intros tokenData _.
  repeat first [apply sat_update_tokens; assumption | sat_step].
Qed.

Lemma bulk_upsert_listed_user (user : jsval) :
  fine_user badU user -> sat R (fun _ => True) (Cron.upsert_listed_user now user).
Proof.
  intros Hu. unfold Cron.upsert_listed_user.
  sat_step. rename a into id.
  repeat first [apply R_upsert_user; intros k Hk; exact (Hu id k E Hk) | sat_step].
Qed.

Lemma bulk_upsert_listed_users (users : list jsval) (n : Z) :
  Forall (fine_user badU) users -> sat R (fun _ => True) (Cron.upsert_listed_users now users n).
Proof.
  intros H. revert n. induction H as [| u us Hu _ IH]; intros n; simpl.
  - sat_step.
  - sat_step; [by apply bulk_upsert_listed_user | apply IH].
Qed.

Lemma fine_users_listed (resp : HttpResponse) (req : HttpRequest)
    (data items : jsval) (us : list jsval) :
  fetch P req = Some resp ->
  response_json P resp = Ok data ->
  JS.prop data "users" = Ok items ->
  JS.iterate (JS.or_else items (JArr [])) = Ok us ->
  Forall (fine_user badU) us.
Proof.
  intros Hf Hd Hi Hus. apply Forall_forall. intros u Hu id k Hid Hk.
  eapply provider_users; [exact Hf |].
  eapply listed_keys_elem; eauto.
Qed.

Lemma fine_meetings_listed (resp : HttpResponse) (req : HttpRequest)
    (data items : jsval) (ms : list jsval) :
  fetch P req = Some resp ->
  response_json P resp = Ok data ->
  JS.prop data "meetings" = Ok items ->
  JS.iterate (JS.or_else items (JArr [])) = Ok ms ->
  Forall (fine_meeting badM) ms.
Proof.
  intros Hf Hd Hi Hms. apply Forall_forall. intros m Hm id k Hid Hk.
  eapply provider_meetings; [exact Hf |].
  eapply listed_keys_elem; eauto.
Qed.

Lemma bulk_syncZoomUsers_pages (fuel : nat) (accessToken nextPageToken : jsval) (n : Z) :
  sat R (fun _ => True) (Cron.syncZoomUsers_pages P now fuel accessToken nextPageToken n).
Proof.
  revert nextPageToken n. induction fuel as [| fuel IH]; intros nextPageToken n; simpl.
  - sat_step.
  - apply (sat_bind (fun _ => True)); [repeat sat_step |]. intros cursor _.
    sat_step. sat_step. rename a0 into response.
    sat_step; [sat_step |].
    sat_step. sat_step. sat_step.
    apply (sat_bind (fun _ => True)).
    { apply bulk_upsert_listed_users. eapply fine_users_listed; eassumption. }
    intros total _. sat_step. sat_step; [apply IH | sat_step].
Qed.

Lemma bulk_upsert_listed_meeting (meeting : jsval) :
  fine_meeting badM meeting -> sat R (fun _ => True) (Cron.upsert_listed_meeting now meeting).
Proof.
  intros Hm. unfold Cron.upsert_listed_meeting.
  sat_step. rename a into id. sat_step. rename a into meeting_id.
  repeat first [apply R_upsert_meeting; intros k Hk; simpl in Hk;
                injection Hk as <-; eapply Hm; [eassumption |];
                unfold meeting_key; unfold JS.String_ in *;
                destruct (JS.to_string id); congruence
               | sat_step].
Qed.

Lemma bulk_upsert_listed_meetings (meetings : list jsval) (n : Z) :
  Forall (fine_meeting badM) meetings ->
  sat R (fun _ => True) (Cron.upsert_listed_meetings now meetings n).
Proof.
  intros H. revert n. induction H as [| m ms Hm _ IH]; intros n; simpl.
  - sat_step.
  - apply (sat_bind (fun _ => True)).
    + sat_step; [| repeat sat_step].
      sat_step; [by apply bulk_upsert_listed_meeting | sat_step].
    + intros done _. destruct done; [apply IH | sat_step].
Qed.

Lemma bulk_sync_meetings_of (accessToken user : jsval) (n : Z) :
  sat R (fun _ => True) (Cron.sync_meetings_of P now accessToken user n).
Proof.
  unfold Cron.sync_meetings_of.
  apply (sat_bind (Forall (fine_meeting badM))).
  - apply sat_try_catch.
    + sat_step. sat_step. sat_step. sat_step. rename a2 into response.
      destruct (negb (resp_ok response)); [by apply sat_ret |].
      sat_step. sat_step.
      eapply sat_weaken; [apply sat_lift |].
      intros ms Hms. eapply fine_meetings_listed; eassumption.
    + intros e. apply (sat_bind (fun _ => True)); [sat_step |].
      intros _ _. by apply sat_ret.
  - intros ms Hms. by apply bulk_upsert_listed_meetings.
Qed.

Lemma bulk_sync_meetings_of_all (accessToken : jsval) (users : list jsval) (n : Z) :
  sat R (fun _ => True) (Cron.sync_meetings_of_all P now accessToken users n).
Proof.
  revert n. induction users as [| u us IH]; intros n; simpl.
  - sat_step.
  - sat_step; [apply bulk_sync_meetings_of | apply IH].
Qed.

Lemma bulk_syncZoomMeetings (accessToken : jsval) :
  sat R (fun _ => True) (Cron.syncZoomMeetings P now accessToken).
Proof.
  unfold Cron.syncZoomMeetings. sat_step.
  - apply sat_select_active_users.
  - apply bulk_sync_meetings_of_all.
Qed.

Lemma bulk_cron_serve (fuel : nat) (req : Request) :
  sat R (fun _ => True) (Cron.serve P now fuel req).
Proof.
  unfold Cron.serve. sat_step; [sat_step |].
  sat_step; [| repeat sat_step].
  unfold Cron.handle.
  sat_step; [sat_step |]. sat_step; [sat_step |].
  sat_step. sat_step; [apply bulk_refreshZoomToken |].
  sat_step; [| repeat sat_step].
  repeat first [apply bulk_syncZoomUsers_pages | apply bulk_syncZoomMeetings | sat_step].
Qed.

Lemma bulk_access_token : sat R (fun _ => True) (ZoomUsers.access_token P now).
Proof.
  unfold ZoomUsers.access_token.
  apply (sat_bind (fun _ => True)); [by apply sat_select_tokens |]. intros tokenData _.
  repeat first [apply sat_update_tokens; assumption | sat_step].
Qed.

Lemma iterate_or_else (items : jsval) (us : list jsval) :
  JS.iterate items = Ok us -> JS.iterate (JS.or_else items (JArr [])) = Ok us.
Proof.
  unfold JS.or_else. destruct (JS.truthy items) eqn:E; [done |].
  destruct items as [| | b | n | s | xs | fs]; try discriminate.
  destruct s; [done | discriminate].
Qed.

Lemma bulk_all_users (fuel : nat) (accessToken nextPageToken : jsval) (acc : list jsval) :
  Forall (fine_user badU) acc ->
  sat R (Forall (fine_user badU)) (ZoomUsers.all_users P fuel accessToken nextPageToken acc).
Proof.
  revert nextPageToken acc.
  induction fuel as [| fuel IH]; intros nextPageToken acc Hacc; simpl.
  - apply sat_throw || (intros w; split; [apply frame_refl | intros a [=]]).
  - sat_step. sat_step. sat_step. rename a1 into response.
    destruct (negb (resp_ok response)); [apply sat_throw |].
    sat_step. sat_step. sat_step. rename a3 into us. sat_step.
    assert (Hall : Forall (fine_user badU) (acc ++ us)).
    { apply Forall_app. split; [exact Hacc |].
      eapply fine_users_listed; eauto using iterate_or_else. }
    match goal with
    | |- sat _ _ (if ?b then _ else _) => destruct b; [by apply IH | by apply sat_ret]
    end.
Qed.

Lemma fine_upsert_data (us : list jsval) (objs : list (list (string * jsval))) :
  Forall (fine_user badU) us ->
  ZoomUsers.upsert_data now us = Ok objs ->
  Forall (fun obj => forall k, key_text (JS.assoc "id" obj) = Some k -> ~ badU k) objs.
Proof.
  intros H. revert objs. induction H as [| u us Hu _ IH]; intros objs E; simpl in E.
  - injection E as <-. constructor.
  - unfold ZoomUsers.upsert_datum in E.
    destruct (JS.prop u "id") as [id | |] eqn:Eid; try discriminate.
    destruct (ZoomUsers.upsert_data now us) as [ds | |]; try discriminate.
    injection E as <-. constructor; [| by apply IH].
    intros k Hk. exact (Hu id k Eid Hk).
Qed.

Lemma bulk_zoom_users_serve (fuel : nat) (req : Request) :
  sat R (fun _ => True) (ZoomUsers.serve P now fuel req).
Proof.
  unfold ZoomUsers.serve. sat_step; [sat_step |].
  sat_step; [| repeat sat_step].
  unfold ZoomUsers.handle.
  sat_step. sat_step; [apply bulk_access_token |].
  apply (sat_bind (Forall (fine_user badU))); [apply bulk_all_users; constructor |].
  intros allUsers Hall. sat_step.
  sat_step; [| sat_step].
  sat_step; [| sat_step].
  sat_step; [| repeat sat_step].
  apply R_upsert_users. eapply fine_upsert_data; eassumption.
Qed.

End Bulk.

Lemma cron_serve_keeps (P : Platform) (now : Z) (fuel : nat) (req : Request)
    (ku km : string) (w : World) :
  omits_user P ku -> omits_meeting P km ->
  keeps ku km w (Cron.serve P now fuel req w).2.
Proof.
  intros Hu Hm.
  enough (sat (keeps ku km) (fun _ => True) (Cron.serve P now fuel req)) as H by apply H.
  apply (bulk_cron_serve P now (fun k => k = ku) (fun k => k = km)); try done.
  - intros obj Hk. apply keeps_upsert_user. intros E. by apply (Hk ku).
  - intros obj Hk. apply keeps_upsert_meeting. intros E. by apply (Hk km).
  - intros r resp k Hf Hin ->. exact (Hu r resp Hf Hin).
  - intros r resp k Hf Hin ->. exact (Hm r resp Hf Hin).
Qed.

Lemma cron_serve_grows (P : Platform) (now : Z) (fuel : nat) (req : Request) (w : World) :
  grows w (Cron.serve P now fuel req w).2.
Proof.
  enough (sat grows (fun _ => True) (Cron.serve P now fuel req)) as H by apply H.
  apply (bulk_cron_serve P now (fun _ => False) (fun _ => False)); try done.
  - intros obj _. apply grows_upsert_user.
  - intros obj _. apply grows_upsert_meeting.
  - tauto.
  - tauto.
Qed.

Lemma zoom_users_serve_keeps (P : Platform) (now : Z) (fuel : nat) (req : Request)
    (ku km : string) (w : World) :
  omits_user P ku ->
  keeps ku km w (ZoomUsers.serve P now fuel req w).2.
Proof.
  intros Hu.
  enough (sat (keeps ku km) (fun _ => True) (ZoomUsers.serve P now fuel req)) as H by apply H.
  apply (bulk_zoom_users_serve P now (fun k => k = ku)); try done.
  - intros objs Hk. apply keeps_upsert_users.
    eapply Forall_impl; [exact Hk |]. intros obj Hobj E. by apply (Hobj ku).
  - intros r resp k Hf Hin ->. exact (Hu r resp Hf Hin).
Qed.

Lemma zoom_users_serve_grows (P : Platform) (now : Z) (fuel : nat) (req : Request) (w : World) :
  grows w (ZoomUsers.serve P now fuel req w).2.
Proof.
  enough (sat grows (fun _ => True) (ZoomUsers.serve P now fuel req)) as H by apply H.
  apply (bulk_zoom_users_serve P now (fun _ => False)); try done.
  - intros objs _. apply grows_upsert_users.
  - tauto.
Qed.

(** ** The webhook receiver, step by step *)

Lemma is_str_true (lit : string) (v : jsval) : JS.is_str lit v = true <-> v = JStr lit.
Proof.
  destruct v; simpl; try (split; [discriminate | congruence]).
  rewrite String.eqb_eq. split; congruence.
Qed.

Lemma not_options (m : string) : m <> "OPTIONS"%string -> String.eqb m "OPTIONS" = false.
Proof. intros H. by apply String.eqb_neq. Qed.

Lemma db_calls_console (msg : string) (w : World) :
  db_calls (with_trace (fun t => t ++ [ConsoleError msg]) w) = db_calls w.
Proof. unfold db_calls. simpl. rewrite List.filter_app. simpl. apply app_nil_r. Qed.

Section WebhookSteps.

Variables (P : Platform) (now : Z) (req : Request) (b ev : jsval).
Hypothesis Hmethod : req_method req <> "OPTIONS"%string.
Hypothesis Hparse : JSON_parse P (req_text req) = Some b.
Hypothesis Hevent : JS.prop b "event" = Ok ev.

Lemma serve_handle :
  Webhook.serve P now req = try_catch (Webhook.handle P now req) Webhook.internal_error.
Proof. unfold Webhook.serve. by rewrite not_options. Qed.

Lemma handle_validation :
  JS.is_str "endpoint.url_validation" ev = true ->
  Webhook.handle P now req = Webhook.url_validation P b.
Proof.
  intros H. unfold Webhook.handle, bind, lift. rewrite Hparse, Hevent, H. reflexivity.
Qed.

Lemma handle_event (w : World) :
  JS.is_str "endpoint.url_validation" ev = false ->
  Webhook.handle P now req w
  = match Webhook.verifyZoomSignature P now req (req_text req) with
    | Ok true => Webhook.apply_event now b ev w
    | Ok false =>
        (Ok Webhook.unauthorized,
         with_trace (fun t => t ++ [ConsoleError "Firma inválida o timestamp expirado"]) w)
    | Throw e => (Throw e, w)
    | Diverge => (Diverge, w)
    end.
Proof.
  intros H. unfold Webhook.handle, bind, lift. rewrite Hparse, Hevent, H.
  by destruct (Webhook.verifyZoomSignature P now req (req_text req)) as [[|] | |].
Qed.

(** an event that is verified is handed to [apply_event] *)
Lemma serve_verified (w : World) :
  JS.is_str "endpoint.url_validation" ev = false ->
  Webhook.verifyZoomSignature P now req (req_text req) = Ok true ->
  Webhook.serve P now req w
  = try_catch (Webhook.apply_event now b ev) Webhook.internal_error w.
Proof.
  intros H Hv. rewrite serve_handle. unfold try_catch.
  by rewrite (handle_event w H), Hv.
Qed.

(** an event that is not verified changes no table and reaches no store
    call *)
Lemma serve_unverified (w : World) :
  JS.is_str "endpoint.url_validation" ev = false ->
  Webhook.verifyZoomSignature P now req (req_text req) <> Ok true ->
  let out := Webhook.serve P now req w in
  zoom_tokens out.2 = zoom_tokens w /\ zoom_users out.2 = zoom_users w
  /\ zoom_meetings out.2 = zoom_meetings w /\ zoom_events out.2 = zoom_events w
  /\ db_calls out.2 = db_calls w.
Proof.
  intros H Hv. rewrite serve_handle. unfold try_catch. rewrite (handle_event w H).
  destruct (Webhook.verifyZoomSignature P now req (req_text req)) as [[|] | e |];
    [congruence | ..]; simpl; rewrite ?db_calls_console; done.
Qed.


Lemma serve_rejected (w : World) :
  JS.is_str "endpoint.url_validation" ev = false ->
  Webhook.verifyZoomSignature P now req (req_text req) = Ok false ->
  (Webhook.serve P now req w).1 = Ok Webhook.unauthorized.
Proof.
  intros H Hv. rewrite serve_handle. unfold try_catch.
  by rewrite (handle_event w H), Hv.
Qed.

Lemma serve_validation (w : World) (secret token : string) (pl : jsval) :
  JS.is_str "endpoint.url_validation" ev = true ->
  Deno_env_get P "ZOOM_WEBHOOK_SECRET_TOKEN" = Some secret ->
  secret <> EmptyString ->
  JS.prop b "payload" = Ok pl ->
  JS.prop pl "plainToken" = Ok (JStr token) ->
  Webhook.serve P now req w
  = (Ok {| status := 200;
           body := Json (JObj [("plainToken", JStr token);
                               ("encryptedToken",
                                JStr (hex (SHA256.hmac (TextEncoder_encode secret)
                                             (TextEncoder_encode token))))]%string) |},
     w).
Proof.
  intros H Hsecret Hne Hpl Htoken.
  rewrite serve_handle, (handle_validation H).
  unfold try_catch, Webhook.url_validation, bind, lift.
  rewrite Hpl, Htoken, Hsecret.
  change (default EmptyString (Some secret)) with secret.
  rewrite (is_empty_false secret Hne), importKey_configured by done.
  reflexivity.
Qed.

End WebhookSteps.

(** C7. Challenge handshake isolation: for [endpoint.url_validation] the
    handler answers 200 with exactly [{plainToken, encryptedToken}],
    whatever the signature and timestamp headers; for any other event a
    verification that fails answers 401, and unless the verification
    succeeded no table is changed and no store call is made. *)
Theorem C7_challenge_isolation
    (P : Platform) (now : Z) (req : Request) (w : World) (b ev : jsval) (secret : string) :
  req_method req <> "OPTIONS"%string ->
  JSON_parse P (req_text req) = Some b ->
  JS.prop b "event" = Ok ev ->
  Deno_env_get P "ZOOM_WEBHOOK_SECRET_TOKEN" = Some secret ->
  secret <> EmptyString ->
  let out := Webhook.serve P now req w in
  let verified := Webhook.verifyZoomSignature P now req (req_text req) in
  (ev = JStr "endpoint.url_validation" ->
     forall pl token,
       JS.prop b "payload" = Ok pl ->
       JS.prop pl "plainToken" = Ok (JStr token) ->
       out = (Ok {| status := 200;
                    body := Json (JObj [("plainToken", JStr token);
                                        ("encryptedToken",
                                         JStr (hex (SHA256.hmac (TextEncoder_encode secret)
                                                      (TextEncoder_encode token))))]%string) |},
              w))
  /\ (ev <> JStr "endpoint.url_validation" ->
        (verified = Ok false -> out.1 = Ok Webhook.unauthorized /\ status Webhook.unauthorized = 401)
        /\ (verified <> Ok true ->
              zoom_tokens out.2 = zoom_tokens w /\ zoom_users out.2 = zoom_users w
              /\ zoom_meetings out.2 = zoom_meetings w /\ zoom_events out.2 = zoom_events w
              /\ db_calls out.2 = db_calls w)).
Proof.
  intros Hmethod Hparse Hevent Hsecret Hne out verified. subst out verified. split.
  - intros -> pl token Hpl Htoken. eapply serve_validation; eauto.
  - intros Hev.
    assert (H : JS.is_str "endpoint.url_validation" ev = false).
    { destruct (JS.is_str "endpoint.url_validation" ev) eqn:E; [| done].
      by apply is_str_true in E. }
    split.
    + intros Hv. split; [| reflexivity]. eapply serve_rejected; eauto.
    + intros Hv. eapply serve_unverified; eauto.
Qed.

(** ** Meeting events: the audit record and the current state *)

(** the column an object writes: its first binding of the key *)
Lemma row_of_lookup (obj : list (string * jsval)) (k : string) :
  row_of obj !! k = sql <$> JS.assoc k obj.
Proof.
  unfold row_of. induction obj as [| [k' v] obj IH]; simpl.
  - apply lookup_empty.
  - rewrite lookup_insert. destruct (String.eqb_spec k k') as [-> | Hne].
    + rewrite decide_True by done. reflexivity.
    + rewrite decide_False by congruence. exact IH.
Qed.

(** a property read that succeeded once succeeds for every key *)
Lemma prop_total (v x : jsval) (k k' : string) :
  JS.prop v k = Ok x -> exists y, JS.prop v k' = Ok y.
Proof. destruct v; simpl; try discriminate; eauto. Qed.

Ltac prop_all m :=
  repeat match goal with
  | H : JS.prop m _ = Ok _ |- context [JS.prop m ?k] =>
      lazymatch goal with
      | H' : JS.prop m k = Ok _ |- _ => rewrite H'
      | _ => let y := fresh "v" in let E := fresh "E" in
             destruct (prop_total m _ _ k H) as [y E]; rewrite E
      end
  end.

Section MeetingEvent.

Variables (now : Z) (b ev pl m id : jsval).
Hypothesis Hrelevant : Webhook.is_relevant ev = true.
Hypothesis Hpayload : JS.prop b "payload" = Ok pl.
Hypothesis Hobject : JS.prop pl "object" = Ok m.
Hypothesis Hid : JS.prop m "id" = Ok id.

(** 1. the audit write: one insert, whose record is appended unless the
    insert itself fails; the meeting object is handed on *)
Lemma log_meeting_event_run (w : World) (mid : jsval) :
  JS.opt_toString id = Ok mid ->
  exists record w1,
    Webhook.log_meeting_event b ev w = (Ok m, w1)
    /\ record !! "event_type"%string = Some ev
    /\ zoom_events w1
       = (if bool_decide (store_up w) then zoom_events w ++ [record] else zoom_events w)
    /\ event_calls w1
       = event_calls w ++ [DbCall "zoom_events" "insert" (bool_decide (store_up w))]
    /\ zoom_meetings w1 = zoom_meetings w /\ zoom_users w1 = zoom_users w
    /\ zoom_tokens w1 = zoom_tokens w /\ faults w1 = tail (faults w).
Proof.
  intros Hmid. unfold Webhook.log_meeting_event, bind, lift.
  rewrite Hpayload, Hobject, Hid, Hmid. prop_all m.
  destruct (JS.prop b "event_ts") as [ts | |] eqn:Ets;
    [| destruct b; discriminate ..].
  assert (Hev : exists s, ev = JStr s).
  { destruct ev; try discriminate. eauto. }
  destruct Hev as [s ->].
  unfold Store.insert_event, db, store_up, event_calls.
  destruct (faults w) as [| [|] fs]; cbn [head tail];
    (eexists _, _; split; [reflexivity |]); cbn -[row_of];
    rewrite ?List.filter_app; cbn -[row_of]; rewrite ?app_nil_r;
    (split; [| split; [reflexivity | repeat split; reflexivity]]);
    first [by rewrite row_of_lookup | by apply lookup_singleton_eq].
Qed.

Lemma toString_opt (v : jsval) (key : string) :
  JS.toString v = Ok key -> JS.opt_toString v = Ok (JStr key).
Proof.
  unfold JS.opt_toString. intros H. rewrite H.
  destruct v; try reflexivity; discriminate.
Qed.

(** 2. the statement on [zoom_meetings]: applied unless the call fails, in
    which case the failure goes to the console *)
Lemma sync_meeting_run (w : World) (key : string) :
  JS.toString id = Ok key ->
  exists w1,
    Webhook.sync_meeting now ev m w = (Ok tt, w1)
    /\ zoom_meetings w1
       = (if bool_decide (store_up w)
          then Webhook.meeting_delta now ev m key (zoom_meetings w)
          else zoom_meetings w)
    /\ zoom_events w1 = zoom_events w /\ zoom_users w1 = zoom_users w
    /\ zoom_tokens w1 = zoom_tokens w /\ event_calls w1 = event_calls w
    /\ faults w1 = tail (faults w)
    /\ (~ store_up w -> exists msg, In (ConsoleError msg) (trace w1)).
Proof.
  intros Hkey. unfold Webhook.sync_meeting, Webhook.meeting_delta, bind, lift.
  rewrite Hid, Hkey.
  unfold Store.delete_meeting, Store.upsert_meeting, upsert_row, db, store_up, up, event_calls.
  change (JS.assoc "meeting_id" (Webhook.syncData now m key)) with (Some (JStr key)).
  destruct (JS.is_str "meeting.deleted" ev);
    destruct (faults w) as [| [|] fs]; cbn -[row_of Webhook.syncData];
    (eexists; split; [reflexivity |]); cbn -[row_of Webhook.syncData];
    rewrite ?List.filter_app; cbn -[row_of Webhook.syncData]; rewrite ?app_nil_r;
    repeat split; try reflexivity; try (intros H; by destruct H);
    intros _; eexists; apply in_or_app; right; left; reflexivity.
Qed.

(** a meeting event that is verified: logged, then synchronised, then
    acknowledged *)
Lemma apply_meeting_event_run (w : World) (key : string) :
  JS.toString id = Ok key ->
  exists record w2,
    Webhook.apply_event now b ev w = (Ok Webhook.success, w2)
    /\ record !! "event_type"%string = Some ev
    /\ zoom_events w2
       = (if bool_decide (up (faults w)) then zoom_events w ++ [record] else zoom_events w)
    /\ event_calls w2
       = event_calls w ++ [DbCall "zoom_events" "insert" (bool_decide (up (faults w)))]
    /\ zoom_meetings w2
       = (if bool_decide (up (tail (faults w)))
          then Webhook.meeting_delta now ev m key (zoom_meetings w)
          else zoom_meetings w)
    /\ zoom_users w2 = zoom_users w /\ zoom_tokens w2 = zoom_tokens w
    /\ faults w2 = tail (tail (faults w))
    /\ (~ up (tail (faults w)) -> exists msg, In (ConsoleError msg) (trace w2)).
Proof.
  intros Hkey.
  destruct (log_meeting_event_run w (JStr key) (toString_opt id key Hkey))
    as (record & w1 & Hlog & Hrec & Hev1 & Hcalls1 & Hm1 & Hu1 & Ht1 & Hf1).
  destruct (sync_meeting_run w1 key Hkey)
    as (w2 & Hsync & Hm2 & Hev2 & Hu2 & Ht2 & Hcalls2 & Hf2 & Hc2).
  exists record, w2. unfold Webhook.apply_event, bind. rewrite Hrelevant, Hlog, Hsync.
  unfold store_up in *. rewrite Hf1 in *. rewrite Hm1 in Hm2.
  repeat split; try congruence; try exact Hc2.
Qed.

End MeetingEvent.

(** ** User events *)

Section UserEvent.

Variables (now : Z) (b ev pl u id : jsval).
Hypothesis Hirrelevant : Webhook.is_relevant ev = false.
Hypothesis Huser : Webhook.event_startsWith "user." ev = Ok true.
Hypothesis Hpayload : JS.prop b "payload" = Ok pl.
Hypothesis Hobject : JS.prop pl "object" = Ok u.
Hypothesis Hid : JS.prop u "id" = Ok id.

(** [user.deleted] and [user.disassociated]: the row of the id is deleted
    (and its meetings lose their host) unless the call fails; no audit
    record is written *)
Lemma user_deleted_run (w : World) (key : string) :
  JS.is_str "user.deleted" ev || JS.is_str "user.disassociated" ev = true ->
  JS.String_ id = Ok key ->
  exists w1,
    Webhook.apply_event now b ev w = (Ok Webhook.success, w1)
    /\ zoom_users w1
       = (if bool_decide (store_up w) then delete key (zoom_users w) else zoom_users w)
    /\ zoom_meetings w1
       = (if bool_decide (store_up w) then unhost key <$> zoom_meetings w
          else zoom_meetings w)
    /\ zoom_events w1 = zoom_events w /\ event_calls w1 = event_calls w
    /\ zoom_tokens w1 = zoom_tokens w /\ faults w1 = tail (faults w)
    /\ (~ store_up w -> exists msg, In (ConsoleError msg) (trace w1)).
Proof.
  intros Hdel Hkey. unfold Webhook.apply_event, Webhook.sync_user, bind, lift.
  rewrite Hirrelevant, Huser, Hpayload, Hobject, Hdel, Hid, Hkey.
  unfold Store.delete_user, db, store_up, up, event_calls.
  destruct (faults w) as [| [|] fs]; cbn;
    (eexists; split; [reflexivity |]); cbn;
    rewrite ?List.filter_app; cbn; rewrite ?app_nil_r;
    repeat split; try reflexivity; try (intros H; by destruct H);
    intros _; eexists; apply in_or_app; right; left; reflexivity.
Qed.

(** the other [user.*] events: the columns present in the payload are
    upserted unless the call fails; no audit record is written *)
Lemma user_upsert_run (w : World) :
  JS.is_str "user.deleted" ev || JS.is_str "user.disassociated" ev = false ->
  exists w1,
    Webhook.apply_event now b ev w = (Ok Webhook.success, w1)
    /\ zoom_users w1
       = (if bool_decide (store_up w)
          then default (zoom_users w)
                 (upsert_row "id" (JS.strip_undefined (Webhook.userData now u))
                    (zoom_users w))
          else zoom_users w)
    /\ zoom_meetings w1 = zoom_meetings w
    /\ zoom_events w1 = zoom_events w /\ event_calls w1 = event_calls w
    /\ zoom_tokens w1 = zoom_tokens w /\ faults w1 = tail (faults w)
    /\ (~ store_up w -> exists msg, In (ConsoleError msg) (trace w1)).
Proof.
  intros Hdel. unfold Webhook.apply_event, Webhook.sync_user, bind, lift.
  rewrite Hirrelevant, Huser, Hpayload, Hobject, Hdel, Hid.
  unfold Store.upsert_user, db, store_up, up, event_calls.
  destruct (upsert_row "id" (JS.strip_undefined (Webhook.userData now u)) (zoom_users w))
    as [t |] eqn:Et.
  - destruct (faults w) as [| [|] fs]; cbn -[upsert_row Webhook.userData];
      rewrite ?Et; cbn -[upsert_row Webhook.userData];
      (eexists; split; [reflexivity |]); cbn -[upsert_row Webhook.userData];
      rewrite ?List.filter_app; cbn; rewrite ?app_nil_r;
      repeat split; try reflexivity; try (intros H; by destruct H);
      intros _; eexists; apply in_or_app; right; left; reflexivity.
  - destruct (faults w) as [| [|] fs]; cbn -[upsert_row Webhook.userData];
      rewrite ?Et; cbn -[upsert_row Webhook.userData];
      (eexists; split; [reflexivity |]); cbn -[upsert_row Webhook.userData];
      rewrite ?List.filter_app; cbn; rewrite ?app_nil_r;
      repeat split; try reflexivity; try (intros H; by destruct H);
      intros _; eexists; apply in_or_app; right; left; reflexivity.
Qed.

End UserEvent.

(** ** C1: deletion asymmetry *)

Section UserDeleted.

Variables (P : Platform) (now : Z) (req : Request) (w : World) (b pl u : jsval) (k : string).
Variable name : string.
Hypothesis Hname : name = "user.deleted"%string \/ name = "user.disassociated"%string.
Hypothesis Hmethod : req_method req <> "OPTIONS"%string.
Hypothesis Hparse : JSON_parse P (req_text req) = Some b.
Hypothesis Hevent : JS.prop b "event" = Ok (JStr name).
Hypothesis Hverified : Webhook.verifyZoomSignature P now req (req_text req) = Ok true.
Hypothesis Hpayload : JS.prop b "payload" = Ok pl.
Hypothesis Hobject : JS.prop pl "object" = Ok u.
Hypothesis Hid : JS.prop u "id" = Ok (JStr k).

Lemma user_deleted_serve :
  exists w1,
    Webhook.serve P now req w = (Ok Webhook.success, w1)
    /\ zoom_users w1
       = (if bool_decide (store_up w) then delete k (zoom_users w) else zoom_users w)
    /\ zoom_events w1 = zoom_events w /\ event_calls w1 = event_calls w
    /\ (~ store_up w -> exists msg, In (ConsoleError msg) (trace w1)).
Proof.
  assert (Hcases : Webhook.is_relevant (JStr name) = false
                   /\ Webhook.event_startsWith "user." (JStr name) = Ok true
                   /\ JS.is_str "endpoint.url_validation" (JStr name) = false
                   /\ JS.is_str "user.deleted" (JStr name)
                      || JS.is_str "user.disassociated" (JStr name) = true).
  { destruct Hname as [-> | ->]; repeat split; reflexivity. }
  destruct Hcases as (Hrel & Huser & Hval & Hdel).
  destruct (user_deleted_run now b (JStr name) pl u (JStr k)
              Hrel Huser Hpayload Hobject Hid w k Hdel eq_refl)
    as (w1 & Hrun & Hu & _ & He & Hc & _ & _ & Hlog).
  exists w1. rewrite (serve_verified P now req b (JStr name)) by assumption.
  unfold try_catch. rewrite Hrun. done.
Qed.

End UserDeleted.

(** C1. Deletion asymmetry: a bulk pull (the cron trigger with any action,
    the user sync) leaves every user and meeting that the provider's
    listing omits exactly as stored, and makes no stored user or meeting
    disappear; a verified [user.deleted] or [user.disassociated] webhook
    deletes the stored row of that id. *)
Theorem C1_deletion_asymmetry :
  (forall (P : Platform) (now : Z) (fuel : nat) (req : Request) (w : World) (ku km : string),
     omits_user P ku -> omits_meeting P km ->
     let w1 := (Cron.serve P now fuel req w).2 in
     let w2 := (ZoomUsers.serve P now fuel req w).2 in
     (zoom_users w1 !! ku = zoom_users w !! ku
      /\ zoom_meetings w1 !! km = zoom_meetings w !! km
      /\ zoom_users w2 !! ku = zoom_users w !! ku
      /\ zoom_meetings w2 !! km = zoom_meetings w !! km)
     /\ grows w w1 /\ grows w w2)
  /\ (forall (P : Platform) (now : Z) (req : Request) (w : World) (b pl u : jsval)
        (k name : string),
        name = "user.deleted"%string \/ name = "user.disassociated"%string ->
        req_method req <> "OPTIONS"%string ->
        JSON_parse P (req_text req) = Some b ->
        JS.prop b "event" = Ok (JStr name) ->
        Webhook.verifyZoomSignature P now req (req_text req) = Ok true ->
        JS.prop b "payload" = Ok pl ->
        JS.prop pl "object" = Ok u ->
        JS.prop u "id" = Ok (JStr k) ->
        store_up w ->
        zoom_users (Webhook.serve P now req w).2 !! k = None).
Proof.
  split.
  - intros P now fuel req w ku km Hu Hm w1 w2. subst w1 w2.
    destruct (cron_serve_keeps P now fuel req ku km w Hu Hm) as [H1 H2].
    destruct (zoom_users_serve_keeps P now fuel req ku km w Hu) as [H3 H4].
    repeat split; try assumption;
      first [apply cron_serve_grows | apply zoom_users_serve_grows].
  - intros P now req w b pl u k name Hname Hmethod Hparse Hevent Hv Hpl Hu Hid Hup.
    destruct (user_deleted_serve P now req w b pl u k name
                Hname Hmethod Hparse Hevent Hv Hpl Hu Hid) as (w1 & -> & Husers & _).
    simpl. rewrite Husers, bool_decide_eq_true_2 by assumption.
    apply lookup_delete_eq.
Qed.

(** ** The example deployment *)

Lemma provider_answers (req : HttpRequest) (resp : HttpResponse) :
  Example.provider req = Some resp ->
  resp_ok resp = true
  /\ (resp_text resp = Example.tokens_text \/ resp_text resp = Example.page1_text
      \/ resp_text resp = Example.page2_text \/ resp_text resp = Example.meetings_text).
Proof.
  unfold Example.provider, Example.answer. intros H.
  repeat match type of H with
         | (if ?c then _ else _) = _ => destruct c
         | match ?x with _ => _ end = _ => destruct x
         end;
    try discriminate; injection H as <-; simpl; auto.
Qed.

Lemma example_omits_user : omits_user Example.platform "u0".
Proof.
  intros req resp H. apply provider_answers in H as [_ H].
  unfold listed_keys, response_json. simpl JSON_parse.
  destruct H as [-> | [-> | [-> | ->]]]; vm_compute; inversion 1; subst;
    match goal with H : _ ∈ _ |- _ => inversion H end.
Qed.

Lemma example_omits_meeting : omits_meeting Example.platform "123".
Proof.
  intros req resp H. apply provider_answers in H as [_ H].
  unfold listed_keys, response_json. simpl JSON_parse.
  destruct H as [-> | [-> | [-> | ->]]]; vm_compute; inversion 1; subst;
    match goal with H : _ ∈ _ |- _ => inversion H end.
Qed.

Lemma example_verified (text : string) :
  Webhook.verifyZoomSignature Example.platform Example.now (Example.signed text) text
  = Ok true.
Proof.
  rewrite (verify_fresh Example.platform Example.now (Example.signed text) text
             Example.secret (Spec.signature Example.secret Example.timestamp text)
             Example.timestamp eq_refl ltac:(discriminate) eq_refl eq_refl
             ltac:(discriminate)).
  - rewrite bool_decide_eq_true_2; reflexivity.
  - intros n Hn. vm_compute in Hn. injection Hn as <-. vm_compute. discriminate.
Qed.

Lemma C1_deletion_asymmetry_witness :
  zoom_users (Cron.serve Example.platform Example.now 5
                (Example.cron_request Example.sync_all_text) Example.world).2 !! "u0"%string
  = zoom_users Example.world !! "u0"%string
  /\ zoom_users (Webhook.serve Example.platform Example.now
                   (Example.signed Example.user_deleted_text) Example.world).2 !! "u0"%string
     = None.
Proof.
  destruct C1_deletion_asymmetry as [Hbulk Hdelete]. split.
  - apply (Hbulk Example.platform Example.now 5%nat
             (Example.cron_request Example.sync_all_text) Example.world "u0"%string "123"%string
             example_omits_user example_omits_meeting).
  - apply (Hdelete Example.platform Example.now
             (Example.signed Example.user_deleted_text) Example.world
             (Example.event "user.deleted" (JObj [("id", JStr "u0")]%string))
             (JObj [("object", JObj [("id", JStr "u0")])]%string)
             (JObj [("id", JStr "u0")]%string) "u0"%string "user.deleted"%string);
      first [ by left | discriminate | reflexivity | apply example_verified
            | (intros H; vm_compute in H; discriminate) ].
Defined.

Lemma C2_verify_signature_witness :
  let valid := Example.signed Example.meeting_updated_text in
  Webhook.verifyZoomSignature Example.platform Example.now valid
    Example.meeting_updated_text = Ok true
  /\ Webhook.verifyZoomSignature Example.platform (Example.now + 200000) valid
       Example.meeting_updated_text = Ok true
  /\ Webhook.verifyZoomSignature Example.platform (Example.now + 201000) valid
       Example.meeting_updated_text = Ok false
  /\ Webhook.verifyZoomSignature Example.platform Example.now valid
       Example.meeting_mutated_text = Ok false.
Proof.
  intros valid.
  destruct (C2_verify_signature Example.platform Example.now valid
              Example.meeting_updated_text Example.secret eq_refl ltac:(discriminate))
    as (_ & _ & Hexact & Hmutated).
  destruct (C2_verify_signature Example.platform (Example.now + 200000) valid
              Example.meeting_updated_text Example.secret eq_refl ltac:(discriminate))
    as (_ & _ & Hedge & _).
  destruct (C2_verify_signature Example.platform (Example.now + 201000) valid
              Example.meeting_updated_text Example.secret eq_refl ltac:(discriminate))
    as (_ & Hstale & _ & _).
  assert (Hvalid : Webhook.verifyZoomSignature Example.platform Example.now valid
                     Example.meeting_updated_text = Ok true).
  { rewrite (Hexact _ _ eq_refl eq_refl ltac:(discriminate)).
    - by rewrite bool_decide_eq_true_2.
    - intros n Hn. vm_compute in Hn. injection Hn as <-. vm_compute. discriminate. }
  split; [| split; [| split]].
  - exact Hvalid.
  - rewrite (Hedge _ _ eq_refl eq_refl ltac:(discriminate)).
    + by rewrite bool_decide_eq_true_2.
    + intros n Hn. vm_compute in Hn. injection Hn as <-. vm_compute. discriminate.
  - apply (Hstale Example.timestamp 1700000000); [reflexivity | reflexivity |].
    vm_compute. reflexivity.
  - apply (Hmutated Example.timestamp); [reflexivity | exact Hvalid |].
    intros H. vm_compute in H. discriminate.
Defined.

Lemma C7_challenge_isolation_witness :
  Webhook.serve Example.platform Example.now
    {| req_method := "POST"; req_headers := []; req_text := Example.validation_text |}
    Example.world
  = (Ok {| status := 200;
           body := Json (JObj [("plainToken", JStr "abc123");
                               ("encryptedToken",
                                JStr "c769096b4d5745c128ffb221dc2e2d5cb38b4a1cae423cf413b12cbef730bc57")]%string) |},
     Example.world)
  /\ (let forged := {| req_method := "POST";
                       req_headers := req_headers (Example.signed Example.meeting_updated_text);
                       req_text := Example.meeting_deleted_text |} in
      let out := Webhook.serve Example.platform Example.now forged Example.world in
      out.1 = Ok Webhook.unauthorized
      /\ zoom_meetings out.2 = zoom_meetings Example.world
      /\ db_calls out.2 = []).
Proof.
  split.
  - destruct (C7_challenge_isolation Example.platform Example.now
                {| req_method := "POST"; req_headers := [];
                   req_text := Example.validation_text |}
                Example.world
                (JObj [("event", JStr "endpoint.url_validation");
                       ("payload", JObj [("plainToken", JStr "abc123")])]%string)
                (JStr "endpoint.url_validation") Example.secret
                ltac:(discriminate) eq_refl eq_refl eq_refl ltac:(discriminate))
      as [H _].
    rewrite (H eq_refl _ "abc123"%string eq_refl eq_refl).
    vm_compute. reflexivity.
  - intros forged out.
    destruct (C7_challenge_isolation Example.platform Example.now forged Example.world
                (Example.event "meeting.deleted" (JObj [("id", JNum 123)]%string))
                (JStr "meeting.deleted") Example.secret
                ltac:(discriminate) eq_refl eq_refl eq_refl ltac:(discriminate))
      as [_ H].
    destruct (H ltac:(discriminate)) as [H401 Hquiet].
    assert (Hv : Webhook.verifyZoomSignature Example.platform Example.now forged
                   (req_text forged) = Ok false) by (vm_compute; reflexivity).
    destruct (H401 Hv) as [Hr _].
    destruct Hquiet as (_ & _ & Hm & _ & Hdb); [rewrite Hv; discriminate |].
    split; [exact Hr | split; [exact Hm | exact Hdb]].
Defined.

(** ** C8: a meeting event applied twice *)




Section MeetingTwice.

Variables (P : Platform) (now : Z) (req : Request) (b ev : jsval).
Hypothesis Hmethod : req_method req <> "OPTIONS"%string.
Hypothesis Hparse : JSON_parse P (req_text req) = Some b.
Hypothesis Hevent : JS.prop b "event" = Ok ev.
Hypothesis Hrelevant : Webhook.is_relevant ev = true.



End MeetingTwice.


(** ** C4 and C6: the audit record and the store failures of the webhook *)

#[local] Instance events_kept_frame : Frame events_kept.
Proof.
  split; unfold events_kept; simpl; try done.
  intros a b c H1 H2. congruence.
Qed.

(** an event that is not a meeting event writes no audit record, whatever
    happens to it *)
Lemma other_event_not_logged (now : Z) (b ev : jsval) :
  Webhook.is_relevant ev = false ->
  sat events_kept (fun _ => True)
    (try_catch (Webhook.apply_event now b ev) Webhook.internal_error).
Proof.
  intros Hrel. unfold Webhook.apply_event, Webhook.internal_error. rewrite Hrel.
  apply sat_try_catch; [| intros e; repeat sat_step].
  sat_step. sat_step; [| sat_step].
  unfold Webhook.sync_user.
  sat_step; [| sat_step].
  sat_step. sat_step. sat_step.
  - sat_step. sat_step. sat_step; [| repeat sat_step].
    apply sat_db. intros w0 r w2 [= _ <-]. done.
  - sat_step. sat_step; [| repeat sat_step].
    apply sat_db. intros w0 r w2 H.
    destruct (upsert_row "id" _ (zoom_users w0)); [| discriminate].
    injection H as _ <-. done.
Qed.

Section MeetingLogged.

Variables (now : Z) (b ev pl m id mid : jsval).
Hypothesis Hrelevant : Webhook.is_relevant ev = true.
Hypothesis Hpayload : JS.prop b "payload" = Ok pl.
Hypothesis Hobject : JS.prop pl "object" = Ok m.
Hypothesis Hid : JS.prop m "id" = Ok id.
Hypothesis Hmid : JS.opt_toString id = Ok mid.

(** a meeting event is logged before it is synchronised, whatever the
    synchronisation does next *)
Lemma meeting_event_logged (w : World) :
  exists record,
    let out := try_catch (Webhook.apply_event now b ev) Webhook.internal_error w in
    record !! "event_type"%string = Some ev
    /\ zoom_events out.2
       = (if bool_decide (store_up w) then zoom_events w ++ [record] else zoom_events w)
    /\ event_calls out.2
       = event_calls w ++ [DbCall "zoom_events" "insert" (bool_decide (store_up w))].
Proof.
  destruct (JS.toString id) as [key | e |] eqn:Hkey.
  - destruct (apply_meeting_event_run now b ev pl m id Hrelevant Hpayload Hobject Hid
                w key Hkey) as (record & w2 & Hrun & Hrec & Hev & Hcalls & _).
    exists record. unfold try_catch. rewrite Hrun. done.
  - destruct (log_meeting_event_run b ev pl m id Hrelevant Hpayload Hobject Hid w mid Hmid)
      as (record & w1 & Hlog & Hrec & Hev & Hcalls & _).
    exists record. unfold try_catch, Webhook.apply_event, bind.
    rewrite Hrelevant, Hlog. unfold Webhook.sync_meeting, bind, lift.
    rewrite Hid, Hkey.
    destruct (JS.is_str "meeting.deleted" ev); cbn [fst snd Webhook.internal_error];
      unfold Webhook.internal_error, bind, console_error, emit, event_calls in *;
      cbn; rewrite List.filter_app; cbn; rewrite app_nil_r; done.
  - unfold JS.toString in Hkey. destruct id; try discriminate;
      destruct (JS.to_string _); discriminate.
Qed.

End MeetingLogged.

(** C4, as the code has it. For every meeting event that passes the
    verification, exactly one insert into the event log is issued, before
    the entity statement and whatever that statement does next, and its
    record is appended unless the insert itself fails; the other verified
    events, user events among them, append no record. *)
Theorem C4_audit_of_meeting_events
    (P : Platform) (now : Z) (req : Request) (w : World) (b ev : jsval) :
  req_method req <> "OPTIONS"%string ->
  JSON_parse P (req_text req) = Some b ->
  JS.prop b "event" = Ok ev ->
  ev <> JStr "endpoint.url_validation" ->
  Webhook.verifyZoomSignature P now req (req_text req) = Ok true ->
  let out := Webhook.serve P now req w in
  (Webhook.is_relevant ev = true ->
     forall pl m id key,
       JS.prop b "payload" = Ok pl -> JS.prop pl "object" = Ok m ->
       JS.prop m "id" = Ok id -> JS.toString id = Ok key ->
       exists record,
         record !! "event_type"%string = Some ev
         /\ zoom_events out.2
            = (if bool_decide (store_up w) then zoom_events w ++ [record]
               else zoom_events w)
         /\ event_calls out.2
            = event_calls w ++ [DbCall "zoom_events" "insert" (bool_decide (store_up w))])
  /\ (Webhook.is_relevant ev = false -> zoom_events out.2 = zoom_events w).
Proof.
  intros Hmethod Hparse Hevent Hev Hv out. subst out.
  assert (Hval : JS.is_str "endpoint.url_validation" ev = false).
  { destruct (JS.is_str "endpoint.url_validation" ev) eqn:E; [| done].
    by apply is_str_true in E. }
  rewrite (serve_verified P now req b ev Hmethod Hparse Hevent w Hval Hv). split.
  - intros Hrel pl m id key Hpl Hm Hid Hkey.
    exact (meeting_event_logged now b ev pl m id (JStr key) Hrel Hpl Hm Hid
             (toString_opt id key Hkey) w).
  - intros Hrel. apply (other_event_not_logged now b ev Hrel w).
Qed.

(** C4 fails for a user event: a verified [user.deleted] deletes the stored
    user and no audit record is written, no insert into the event log
    being even issued. *)
Lemma C4_user_event_not_audited :
  let req := Example.signed Example.user_deleted_text in
  let out := Webhook.serve Example.platform Example.now req Example.world in
  Webhook.verifyZoomSignature Example.platform Example.now req (req_text req) = Ok true
  /\ out.1 = Ok Webhook.success
  /\ is_Some (zoom_users Example.world !! "u0"%string)
  /\ zoom_users out.2 !! "u0"%string = None
  /\ zoom_events out.2 = zoom_events Example.world
  /\ event_calls out.2 = [].
Proof.
  split; [apply example_verified |].
  split; [vm_compute; reflexivity |].
  split; [vm_compute; eexists; reflexivity |].
  split; [vm_compute; reflexivity |].
  split; vm_compute; reflexivity.
Qed.

Lemma C4_audit_of_meeting_events_witness :
  let failing := with_faults [false; true] Example.world in
  let out := Webhook.serve Example.platform Example.now
               (Example.signed Example.meeting_deleted_text) failing in
  (exists record,
     record !! "event_type"%string = Some (JStr "meeting.deleted")
     /\ zoom_events out.2 = [record]
     /\ event_calls out.2 = [DbCall "zoom_events" "insert" true])
  /\ zoom_meetings out.2 = zoom_meetings failing.
Proof.
  intros failing out. split; [| vm_compute; reflexivity].
  destruct (C4_audit_of_meeting_events Example.platform Example.now
              (Example.signed Example.meeting_deleted_text) failing
              (Example.event "meeting.deleted" (JObj [("id", JNum 123)]%string))
              (JStr "meeting.deleted")
              ltac:(discriminate) eq_refl eq_refl ltac:(discriminate)
              (example_verified Example.meeting_deleted_text)) as [Hlogged _].
  destruct (Hlogged eq_refl
              (JObj [("object", JObj [("id", JNum 123)])]%string)
              (JObj [("id", JNum 123)]%string) (JNum 123) "123"%string
              eq_refl eq_refl eq_refl eq_refl) as (record & Hrec & Hev & Hcalls).
  exists record. split; [exact Hrec |]. split; [exact Hev | exact Hcalls].
Defined.

(** C6, as the code has it. A verified meeting or user event whose
    identifier can be read is answered with the success acknowledgment
    (HTTP 200) whether or not its entity statement fails; when the statement
    fails the table is left as it was and the failure goes to the error
    console. *)
Theorem C6_store_errors_logged_not_surfaced
    (P : Platform) (now : Z) (req : Request) (w : World) (b ev pl o id : jsval)
    (key : string) :
  req_method req <> "OPTIONS"%string ->
  JSON_parse P (req_text req) = Some b ->
  JS.prop b "event" = Ok ev ->
  ev <> JStr "endpoint.url_validation" ->
  Webhook.verifyZoomSignature P now req (req_text req) = Ok true ->
  JS.prop b "payload" = Ok pl ->
  JS.prop pl "object" = Ok o ->
  JS.prop o "id" = Ok id ->
  let out := Webhook.serve P now req w in
  (Webhook.is_relevant ev = true -> JS.toString id = Ok key ->
     out.1 = Ok Webhook.success /\ status Webhook.success = 200
     /\ (~ up (tail (faults w)) ->
           zoom_meetings out.2 = zoom_meetings w
           /\ exists msg, In (ConsoleError msg) (trace out.2)))
  /\ (Webhook.is_relevant ev = false ->
      Webhook.event_startsWith "user." ev = Ok true -> JS.String_ id = Ok key ->
        out.1 = Ok Webhook.success /\ status Webhook.success = 200
        /\ (~ store_up w ->
              zoom_users out.2 = zoom_users w
              /\ exists msg, In (ConsoleError msg) (trace out.2))).
Proof.
  intros Hmethod Hparse Hevent Hev Hv Hpl Ho Hid out. subst out.
  assert (Hval : JS.is_str "endpoint.url_validation" ev = false).
  { destruct (JS.is_str "endpoint.url_validation" ev) eqn:E; [| done].
    by apply is_str_true in E. }
  rewrite (serve_verified P now req b ev Hmethod Hparse Hevent w Hval Hv).
  unfold try_catch. split.
  - intros Hrel Hkey.
    destruct (apply_meeting_event_run now b ev pl o id Hrel Hpl Ho Hid w key Hkey)
      as (record & w2 & -> & _ & _ & _ & Hmeet & _ & _ & _ & Hlog).
    split; [reflexivity |]. split; [reflexivity |]. intros Hdown.
    split; [| by apply Hlog]. cbn [snd]. rewrite Hmeet.
    by rewrite bool_decide_eq_false_2.
  - intros Hrel Huser Hkey.
    destruct (JS.is_str "user.deleted" ev || JS.is_str "user.disassociated" ev) eqn:Hdel.
    + destruct (user_deleted_run now b ev pl o id Hrel Huser Hpl Ho Hid w key Hdel Hkey)
        as (w1 & -> & Hu & _ & _ & _ & _ & _ & Hlog).
      split; [reflexivity |]. split; [reflexivity |]. intros Hdown.
      split; [| by apply Hlog]. cbn [snd]. rewrite Hu.
      by rewrite bool_decide_eq_false_2.
    + destruct (user_upsert_run now b ev pl o id Hrel Huser Hpl Ho Hid w Hdel)
        as (w1 & -> & Hu & _ & _ & _ & _ & _ & Hlog).
      split; [reflexivity |]. split; [reflexivity |]. intros Hdown.
      split; [| by apply Hlog]. cbn [snd]. rewrite Hu.
      by rewrite bool_decide_eq_false_2.
Qed.

(** C6 fails when the delete of a verified [meeting.deleted] fails: the
    meeting stays, the error is only logged, and the answer is the success
    acknowledgment with status 200. *)
Lemma C6_failed_delete_acknowledged :
  let failing := with_faults [false; true] Example.world in
  let out := Webhook.serve Example.platform Example.now
               (Example.signed Example.meeting_deleted_text) failing in
  out.1 = Ok {| status := 200; body := Json (JObj [("success", JBool true)]%string) |}
  /\ zoom_meetings out.2 = zoom_meetings failing
  /\ is_Some (zoom_meetings out.2 !! "123"%string)
  /\ trace out.2 = [ DbCall "zoom_events" "insert" true;
                     DbCall "zoom_meetings" "delete" false;
                     ConsoleError "Error eliminando meeting sync:" ].
Proof.
  split; [vm_compute; reflexivity |].
  split; [vm_compute; reflexivity |].
  split; [vm_compute; eexists; reflexivity |].
  vm_compute; reflexivity.
Qed.

Lemma C6_store_errors_logged_not_surfaced_witness :
  let failing := with_faults [false; true] Example.world in
  let out := Webhook.serve Example.platform Example.now
               (Example.signed Example.meeting_updated_text) failing in
  out.1 = Ok Webhook.success
  /\ zoom_meetings out.2 = zoom_meetings failing
  /\ exists msg, In (ConsoleError msg) (trace out.2).
Proof.
  intros failing out.
  destruct (C6_store_errors_logged_not_surfaced Example.platform Example.now
              (Example.signed Example.meeting_updated_text) failing
              (Example.event "meeting.updated"
                 (JObj [("id", JNum 123); ("duration", JNum 45)]%string))
              (JStr "meeting.updated")
              (JObj [("object", JObj [("id", JNum 123); ("duration", JNum 45)])]%string)
              (JObj [("id", JNum 123); ("duration", JNum 45)]%string) (JNum 123)
              "123"%string
              ltac:(discriminate) eq_refl eq_refl ltac:(discriminate)
              (example_verified Example.meeting_updated_text)
              eq_refl eq_refl eq_refl) as [Hmeeting _].
  destruct (Hmeeting eq_refl eq_refl) as (Hr & _ & Hdown).
  destruct Hdown as [Hm Hlog]; [intros H; apply H; reflexivity |].
  split; [exact Hr |]. split; [exact Hm | exact Hlog].
Defined.
(** ** C5: a partial payload *)

Lemma assoc_strip_undefined (obj : list (string * jsval)) (c : string) :
  NoDup (map fst obj) ->
  JS.assoc c (JS.strip_undefined obj)
  = match JS.assoc c obj with
    | Some JUndefined => None
    | o => o
    end.
Proof.
  induction obj as [| [k v] obj IH]; intros Hnd; simpl; [done |].
  apply NoDup_cons in Hnd as [Hk Hnd].
  destruct (String.eqb_spec c k) as [-> | Hne].
  - destruct v; simpl; rewrite ?String.eqb_refl; try done.
    rewrite (IH Hnd).
    destruct (JS.assoc k obj) as [x |] eqn:E; [| done].
    exfalso. apply Hk. clear -E. induction obj as [| [k' v'] obj IH]; [done |].
    simpl in *. destruct (String.eqb_spec k k') as [-> | Hne]; [by left | right; auto].
  - destruct v; simpl; try (apply String.eqb_neq in Hne; rewrite Hne); by apply IH.
Qed.

Lemma upsert_row_some (key : string) (obj : list (string * jsval))
    (t t' : gmap string Row) (k : string) :
  upsert_row key obj t = Some t' ->
  key_text (JS.assoc key obj) = Some k ->
  t' = <[k := row_of obj ∪ default ∅ (t !! k)]> t.
Proof. unfold upsert_row. intros H Hk. rewrite Hk in H. congruence. Qed.

Lemma userData_keys (now : Z) (u : jsval) : NoDup (map fst (Webhook.userData now u)).
Proof. simpl. apply (bool_decide_unpack _). vm_compute. exact I. Qed.

(** the sibling path: a user event writes only the columns its payload
    has; a column that is absent from the payload keeps its stored value *)
Lemma user_upsert_keeps_absent (now : Z) (u : jsval) (k c : string)
    (t t' : gmap string Row) (old : Row) :
  upsert_row "id" (JS.strip_undefined (Webhook.userData now u)) t = Some t' ->
  JS.get u "id" = JStr k ->
  t !! k = Some old ->
  JS.get u c = JUndefined -> c <> "updated_at"%string ->
  exists new, t' !! k = Some new /\ new !! c = old !! c.
Proof.
  intros Hup Hid Hold Habsent Hc.
  assert (Hkey : JS.assoc "id" (JS.strip_undefined (Webhook.userData now u))
                 = Some (JStr k)).
  { rewrite assoc_strip_undefined by apply userData_keys.
    change (JS.assoc "id" (Webhook.userData now u)) with (Some (JS.get u "id")).
    by rewrite Hid. }
  rewrite (upsert_row_some _ _ _ _ k Hup) by (by rewrite Hkey).
  eexists. split; [apply lookup_insert_eq |].
  rewrite Hold. change (default ∅ (Some old)) with old.
  rewrite lookup_union, row_of_lookup, assoc_strip_undefined by apply userData_keys.
  assert (Hnone : match JS.assoc c (Webhook.userData now u) with
                  | Some JUndefined => None
                  | o => o
                  end = None).
  { unfold Webhook.userData. simpl.
    repeat match goal with
           | |- context [String.eqb c ?k] =>
               destruct (String.eqb_spec c k) as [-> | _];
               [first [by rewrite Habsent | congruence] |]
           end.
    done. }
  rewrite Hnone. simpl. by destruct (old !! c).
Qed.

(** the meeting path: every column of [syncData] is written, a field that
    is absent from the payload as NULL *)
Lemma meeting_upsert_nulls_absent (now : Z) (ev m : jsval) (key c : string)
    (t : gmap string Row) :
  JS.is_str "meeting.deleted" ev = false ->
  c ∈ ["uuid"; "host_id"; "topic"; "type"; "duration"; "timezone"; "join_url"]%string ->
  JS.get m c = JUndefined ->
  exists new, Webhook.meeting_delta now ev m key t !! key = Some new
              /\ new !! c = Some JNull.
Proof.
  intros Hev Hc Habsent. unfold Webhook.meeting_delta. rewrite Hev.
  eexists. split; [apply lookup_insert_eq |].
  rewrite lookup_union, row_of_lookup. unfold Webhook.syncData.
  repeat (apply elem_of_cons in Hc as [-> | Hc];
          [simpl; rewrite Habsent; simpl; by destruct (default ∅ (t !! key) !! _) |]).
  by apply elem_of_nil in Hc.
Qed.

(** ** C3: the refresh margin *)

Section RefreshMargin.

Variables (P : Platform) (now : Z) (w : World) (tokenData : Row) (expiresAt : Z).
Hypothesis Hrow : zoom_tokens w = Some tokenData.
Hypothesis Hexpires : date_ms (col tokenData "expires_at") = Some expiresAt.
Hypothesis Hup : store_up w.

Let read : World :=
  with_trace (fun t => t ++ [DbCall "zoom_tokens" "select" true])
    (with_faults (tail (faults w)) w).

Lemma select_tokens_up : Store.select_tokens w = (Ok (Some tokenData), read).
Proof.
  unfold Store.select_tokens, db. unfold store_up, up in Hup.
  destruct (faults w) as [| [|] fs] eqn:Hf; cbn in *;
    [| congruence |]; by rewrite Hrow.
Qed.

(** outside the margin the stored token is returned, after the one read
    of the credential: no call to the provider, no write *)
Lemma refreshZoomToken_fresh :
  5 * 60 * 1000 < expiresAt - now ->
  Cron.refreshZoomToken P now w = (Ok (col tokenData "access_token"), read).
Proof.
  intros Hfresh. unfold Cron.refreshZoomToken, bind.
  rewrite select_tokens_up, Hexpires.
  apply Z.ltb_lt in Hfresh. by rewrite Hfresh.
Qed.

(** the same in the user sync, which counts in whole seconds *)
Lemma access_token_fresh :
  300 * 1000 < expiresAt - now / 1000 * 1000 ->
  ZoomUsers.access_token P now w = (Ok (col tokenData "access_token"), read).
Proof.
  intros Hfresh. unfold ZoomUsers.access_token, bind.
  rewrite select_tokens_up, Hexpires.
  assert (H : (expiresAt - 300 * 1000 <=? now / 1000 * 1000) = false)
    by (apply Z.leb_gt; lia).
  by rewrite H.
Qed.

Variables (refresh_token : string) (response : HttpResponse) (tokens access_token : jsval)
          (expires_in : Z).
Hypothesis Hrefresh : JS.to_string (col tokenData "refresh_token") = Some refresh_token.

Let request : HttpRequest :=
  {| http_method := "POST";
     http_url := "https://zoom.us/oauth/token";
     http_query := [];
     http_auth := Basic (String.append (Cron.env_text P "ZOOM_CLIENT_ID")
                           (String.append ":" (Cron.env_text P "ZOOM_CLIENT_SECRET")));
     http_form := [("grant_type", "refresh_token");
                   ("refresh_token", refresh_token)]%string |}.

Hypothesis Hfetch : fetch P request = Some response.
Hypothesis Hok : resp_ok response = true.
Hypothesis Hjson : JSON_parse P (resp_text response) = Some tokens.
Hypothesis Haccess : JS.prop tokens "access_token" = Ok access_token.
Hypothesis Hexpires_in : to_number (JS.get tokens "expires_in") = Some expires_in.
Hypothesis Hrange : Z.abs (now + expires_in * 1000) <= 8640000000000000.

(** within the margin: one call to the provider, then the write; when the
    write is applied the token returned is the one stored, and when the
    write fails the token is returned all the same while the store keeps
    the previous credential *)
Lemma refreshZoomToken_stale :
  expiresAt - now <= 5 * 60 * 1000 ->
  let out := Cron.refreshZoomToken P now w in
  out.1 = Ok access_token
  /\ http_calls out.2 = http_calls w ++ [HttpCall request]
  /\ (up (tail (faults w)) ->
        exists stored, zoom_tokens out.2 = Some stored
                       /\ stored !! "access_token"%string = Some (sql access_token))
  /\ (~ up (tail (faults w)) -> zoom_tokens out.2 = Some tokenData).
Proof.
  intros Hstale out. subst out. unfold Cron.refreshZoomToken, bind.
  rewrite select_tokens_up, Hexpires.
  assert (H : (5 * 60 * 1000 <? expiresAt - now) = false) by (apply Z.ltb_ge; lia).
  rewrite H. unfold lift, JS.String_. rewrite Hrefresh.
  unfold do_fetch, bind, emit. fold request. rewrite Hfetch.
  unfold ret, response_json. rewrite Hok, Hjson. cbn [negb].
  assert (Hprops : forall k, JS.prop tokens k = Ok (JS.get tokens k)).
  { intros k. destruct tokens; try discriminate; reflexivity. }
  rewrite !Hprops, Hexpires_in. cbn [mbind option_bind toISOString].
  apply Z.leb_le in Hrange. rewrite Hrange.
  rewrite Hprops in Haccess. injection Haccess as Haccess. rewrite Haccess.
  unfold Store.update_tokens, db, http_calls, up, read.
  destruct (tail (faults w)) as [| [|] fs] eqn:Hf; cbn -[row_of];
    rewrite ?Hf, ?Hrow; cbn -[row_of];
    rewrite !List.filter_app; cbn -[row_of]; rewrite ?app_nil_r;
    (split; [reflexivity |]); (split; [reflexivity |]);
    (split; [| intros Hdown; first [reflexivity | exfalso; apply Hdown; discriminate]]);
    intros Hstored; try (exfalso; by apply Hstored);
    (eexists; split; [reflexivity |]);
    rewrite lookup_union, row_of_lookup;
    match goal with
    | |- context [JS.assoc ?k ?l] => change (JS.assoc k l) with (Some access_token)
    end;
    by destruct (tokenData !! "access_token"%string).
Qed.

End RefreshMargin.

(** C3 fails when the write of the refreshed credential fails. The stored
    credential expires in 100 seconds; the provider answers the refresh
    with [new-token]; the store reads the credential and then fails the
    update. Both token steps make their one call to the provider and
    return [new-token], while the store still holds [old-token]. *)
Theorem C3_refreshed_token_not_persisted :
  let w := with_faults [false; true]
             (with_tokens (Some (Example.credential (Example.now + 100000)))
                Example.world) in
  let cron := Cron.refreshZoomToken Example.platform Example.now w in
  let sync := ZoomUsers.access_token Example.platform Example.now w in
  (cron.1 = Ok (JStr "new-token")
   /\ length (http_calls cron.2) = 1%nat
   /\ db_calls cron.2 = [DbCall "zoom_tokens" "select" true;
                         DbCall "zoom_tokens" "update" false]
   /\ zoom_tokens cron.2 ≫= (.!! "access_token") = Some (JStr "old-token"))
  /\ (sync.1 = Ok (JStr "new-token")
      /\ length (http_calls sync.2) = 1%nat
      /\ db_calls sync.2 = [DbCall "zoom_tokens" "select" true;
                            DbCall "zoom_tokens" "update" false]
      /\ zoom_tokens sync.2 ≫= (.!! "access_token") = Some (JStr "old-token"))%string.
Proof. vm_compute. repeat split. Qed.

(** the two halves of C3 on the same credential when the store is up: an
    hour before expiry the stored token comes back with no call and no
    write; 100 seconds before expiry there is one call and the token
    returned is the stored one *)
Example refresh_margin_example :
  let fresh := Example.world in
  let stale := with_tokens (Some (Example.credential (Example.now + 100000)))
                 Example.world in
  let out1 := Cron.refreshZoomToken Example.platform Example.now fresh in
  let out2 := Cron.refreshZoomToken Example.platform Example.now stale in
  (out1.1 = Ok (JStr "old-token") /\ http_calls out1.2 = []
   /\ db_calls out1.2 = [DbCall "zoom_tokens" "select" true])
  /\ (out2.1 = Ok (JStr "new-token") /\ length (http_calls out2.2) = 1%nat
      /\ zoom_tokens out2.2 ≫= (.!! "access_token") = Some (JStr "new-token"))%string.
Proof. vm_compute. repeat split. Qed.
(** ** C9: pagination *)

Section Pagination.

Variable P : Platform.

(** one turn of the loop: a request is issued, the items of the page are
    added, and the loop goes on with the cursor returned exactly when that
    cursor is not empty *)
Lemma all_users_turn (fuel : nat) (accessToken nextPageToken : jsval)
    (bearer cursor : string) (allUsers users : list jsval) (next : jsval) (w : World) :
  JS.String_ accessToken = Ok bearer ->
  JS.String_ nextPageToken = Ok cursor ->
  answers P bearer cursor users next ->
  ZoomUsers.all_users P (S fuel) accessToken nextPageToken allUsers w
  = if JS.truthy (JS.or_else next (JStr ""))
    then ZoomUsers.all_users P fuel accessToken (JS.or_else next (JStr ""))
           (allUsers ++ users) (requested (users_request bearer cursor) w)
    else (Ok (allUsers ++ users), requested (users_request bearer cursor) w).
Proof.
  intros Htok Hcur (response & data & items & Hfetch & Hok & Hdata & Hitems & Hus & Hnext).
  cbn [ZoomUsers.all_users]. unfold bind, lift, do_fetch, emit, response_json.
  rewrite Hcur, Htok. fold (users_request bearer cursor). unfold bind.
  rewrite Hfetch. unfold ret. rewrite Hok, Hdata, Hitems, Hus, Hnext. cbn [negb].
  by destruct (JS.truthy (JS.or_else next (JStr ""))).
Qed.

(** with fuel for the pages there are, the loop returns all their items in
    order after one request per page *)
Lemma all_users_listing (accessToken nextPageToken : jsval) (bearer : string)
    (items : list jsval) (n : nat) :
  JS.String_ accessToken = Ok bearer ->
  listing P bearer nextPageToken items n ->
  forall (fuel : nat) (allUsers : list jsval) (w : World),
    (n <= fuel)%nat ->
    exists w',
      ZoomUsers.all_users P fuel accessToken nextPageToken allUsers w
      = (Ok (allUsers ++ items), w')
      /\ length (http_calls w') = (length (http_calls w) + n)%nat.
Proof.
  intros Htok Hl. induction Hl as [tok next cursor users Hcur Hans Hend
                                  | tok next cursor users rest n Hcur Hans Hmore Hl IH];
    intros fuel allUsers w Hfuel.
  - destruct fuel as [| fuel]; [lia |].
    rewrite (all_users_turn fuel accessToken tok bearer cursor allUsers users next w)
      by assumption.
    rewrite Hend. eexists. split; [reflexivity |].
    unfold http_calls, requested. simpl. rewrite List.filter_app, length_app. reflexivity.
  - destruct fuel as [| fuel]; [lia |].
    rewrite (all_users_turn fuel accessToken tok bearer cursor allUsers users next w)
      by assumption.
    rewrite Hmore.
    destruct (IH fuel (allUsers ++ users) (requested (users_request bearer cursor) w))
      as (w' & Hrun & Hcalls); [lia |].
    exists w'. rewrite Hrun, app_assoc. split; [reflexivity |].
    rewrite Hcalls. unfold http_calls, requested. simpl.
    rewrite List.filter_app, length_app. simpl. lia.
Qed.

End Pagination.

(** C9. Pagination of the user sync: each turn of the loop issues one
    request and adds the items of the page, going on exactly when the
    cursor returned is not empty; when the provider serves [u1] with cursor
    "X" and then [u2] with the empty cursor, the loop returns [u1; u2] after
    two requests, for any fuel of at least 2. *)
Theorem C9_pagination
    (P : Platform) (accessToken : jsval) (bearer : string) (u1 u2 : jsval) :
  JS.String_ accessToken = Ok bearer ->
  answers P bearer "" [u1] (JStr "X") ->
  answers P bearer "X" [u2] (JStr "") ->
  (forall fuel nextPageToken cursor allUsers users next w,
     JS.String_ nextPageToken = Ok cursor ->
     answers P bearer cursor users next ->
     ZoomUsers.all_users P (S fuel) accessToken nextPageToken allUsers w
     = if JS.truthy (JS.or_else next (JStr ""))
       then ZoomUsers.all_users P fuel accessToken (JS.or_else next (JStr ""))
              (allUsers ++ users) (requested (users_request bearer cursor) w)
       else (Ok (allUsers ++ users), requested (users_request bearer cursor) w))
  /\ (forall fuel w, (2 <= fuel)%nat ->
        exists w',
          ZoomUsers.all_users P fuel accessToken (JStr "") [] w = (Ok [u1; u2], w')
          /\ length (http_calls w') = (length (http_calls w) + 2)%nat).
Proof.
  intros Htok H1 H2. split.
  - intros fuel nextPageToken cursor allUsers users next w Hcur Hans.
    by apply all_users_turn.
  - intros fuel w Hfuel.
    apply (all_users_listing P accessToken (JStr "") bearer [u1; u2] 2 Htok); [| exact Hfuel].
    apply (listing_more P bearer (JStr "") (JStr "X") "" [u1] [u2] 1);
      [reflexivity | exact H1 | reflexivity |].
    apply (listing_last P bearer (JStr "X") (JStr "") "X" [u2]);
      [reflexivity | exact H2 | reflexivity].
Qed.

Lemma example_page1 :
  answers Example.platform "old-token" ""
    [Example.user "u1" "u1@example.org"] (JStr "X").
Proof.
  eexists _, _, _. split; [reflexivity |]. split; [reflexivity |].
  split; [reflexivity |]. split; [reflexivity |]. split; reflexivity.
Qed.

Lemma example_page2 :
  answers Example.platform "old-token" "X"
    [Example.user "u2" "u2@example.org"] (JStr "").
Proof.
  eexists _, _, _. split; [reflexivity |]. split; [reflexivity |].
  split; [reflexivity |]. split; [reflexivity |]. split; reflexivity.
Qed.

Lemma C9_pagination_witness :
  exists w',
    ZoomUsers.all_users Example.platform 2 (JStr "old-token") (JStr "") [] Example.world
    = (Ok [Example.user "u1" "u1@example.org"; Example.user "u2" "u2@example.org"], w')
    /\ length (http_calls w') = 2%nat.
Proof.
  destruct (C9_pagination Example.platform (JStr "old-token") "old-token"
              (Example.user "u1" "u1@example.org") (Example.user "u2" "u2@example.org")
              eq_refl example_page1 example_page2) as [_ H].
  exact (H 2%nat Example.world ltac:(lia)).
Defined.

(** the same two pages through the cron trigger: two requests, [u1] and
    [u2] upserted in that order, and the count returned *)
Example syncZoomUsers_two_pages :
  let out := Cron.syncZoomUsers Example.platform Example.now 2 (JStr "old-token")
               Example.world in
  out.1 = Ok 2
  /\ length (http_calls out.2) = 2%nat
  /\ db_calls out.2 = [DbCall "zoom_users" "upsert" true; DbCall "zoom_users" "upsert" true]
  /\ (zoom_users out.2 !! "u1" ≫= (.!! "email") = Some (JStr "u1@example.org")
      /\ zoom_users out.2 !! "u2" ≫= (.!! "email") = Some (JStr "u2@example.org"))%string.
Proof. vm_compute. repeat split. Qed.

(** ** C10: the cron trigger reads the credential before it looks at the
    action *)

#[local] Instance extends_frame : Frame extends.
Proof.
  split; unfold extends; simpl.
  - intros w. exists []. by rewrite app_nil_r.
  - intros a b c [r1 H1] [r2 H2]. exists (r1 ++ r2). by rewrite H2, H1, app_assoc.
  - intros e w. by exists [e].
  - intros fs w. exists []. by rewrite app_nil_r.
Qed.

Section UnknownAction.

Variables (P : Platform) (now : Z) (fuel : nat) (req : Request) (w : World).
Variables (secret : string) (body action : jsval).
Hypothesis Hmethod : req_method req <> "OPTIONS"%string.
Hypothesis Hsecret : Deno_env_get P "CRON_SECRET" = Some secret.
Hypothesis Hne : secret <> EmptyString.
Hypothesis Hauth :
  Cron.bearer_token (headers_get "Authorization" (req_headers req)) = Some secret.
Hypothesis Hbody : default (JObj []) (JSON_parse P (req_text req)) = body.
Hypothesis Haction : JS.prop body "action" = Ok action.
Hypothesis Hunknown :
  JS.is_str "sync-users" action = false /\ JS.is_str "sync-meetings" action = false
  /\ JS.is_str "sync-all" action = false /\ JS.is_str "refresh-token" action = false.

(** the handler, for an authorised request with an unknown action: the
    token step, then the 400 answer *)
Lemma serve_unknown_action :
  Cron.serve P now fuel req
  = try_catch (bind (Cron.refreshZoomToken P now) (fun _ => ret unknown_action))
      (fun error =>
         bind (console_error "Error:")
           (fun _ => ret (Cron.json_response 500
                            (JObj [("error", JStr (error_message P error))]%string)))).
Proof.
  destruct Hunknown as (H1 & H2 & H3 & H4).
  unfold Cron.serve. rewrite not_options by assumption. f_equal.
  unfold Cron.handle. rewrite Hsecret, Hauth, Hbody.
  change (default EmptyString (Some secret)) with secret.
  rewrite (is_empty_false secret Hne), bool_decide_eq_true_2 by reflexivity.
  cbn [negb]. unfold bind at 1. unfold lift. rewrite Haction.
  unfold bind. rewrite H1, H2, H3, H4. reflexivity.
Qed.

Lemma unknown_action_no_credential :
  zoom_tokens w = None \/ ~ store_up w ->
  Cron.serve P now fuel req w
  = (Ok no_tokens,
     with_trace (fun t => (t ++ [DbCall "zoom_tokens" "select" false])
                            ++ [ConsoleError "Error:"])
       (with_faults (tail (faults w)) w)).
Proof.
  intros Hnone. rewrite serve_unknown_action.
  unfold try_catch, bind, Cron.refreshZoomToken, bind, Store.select_tokens, db.
  unfold store_up, up in Hnone.
  destruct (faults w) as [| [|] fs] eqn:Hf; cbn in *;
    try (destruct Hnone as [Hnone | Hnone]; [rewrite Hnone | exfalso; apply Hnone; discriminate]);
    reflexivity.
Qed.

Lemma unknown_action_fresh (tokenData : Row) (expiresAt : Z) :
  zoom_tokens w = Some tokenData -> store_up w ->
  date_ms (col tokenData "expires_at") = Some expiresAt ->
  5 * 60 * 1000 < expiresAt - now ->
  Cron.serve P now fuel req w
  = (Ok unknown_action,
     with_trace (fun t => t ++ [DbCall "zoom_tokens" "select" true])
       (with_faults (tail (faults w)) w)).
Proof.
  intros Hrow Hup Hexp Hfresh. rewrite serve_unknown_action.
  unfold try_catch, bind.
  by rewrite (refreshZoomToken_fresh P now w tokenData expiresAt Hrow Hexp Hup Hfresh).
Qed.

Lemma unknown_action_stale (tokenData : Row) (refresh_token : string) :
  zoom_tokens w = Some tokenData -> store_up w ->
  (forall expiresAt, date_ms (col tokenData "expires_at") = Some expiresAt ->
                     expiresAt - now <= 5 * 60 * 1000) ->
  JS.to_string (col tokenData "refresh_token") = Some refresh_token ->
  exists rest,
    trace (Cron.serve P now fuel req w).2
    = trace w ++ [ DbCall "zoom_tokens" "select" true;
                   HttpCall {| http_method := "POST";
                               http_url := "https://zoom.us/oauth/token";
                               http_query := [];
                               http_auth :=
                                 Basic (String.append (Cron.env_text P "ZOOM_CLIENT_ID")
                                          (String.append ":"
                                             (Cron.env_text P "ZOOM_CLIENT_SECRET")));
                               http_form := [("grant_type", "refresh_token");
                                             ("refresh_token", refresh_token)]%string |} ]
      ++ rest.
Proof.
  intros Hrow Hup Hstale Hrt. rewrite serve_unknown_action.
  set (catch := fun error : Exn => _).
  set (request := {| http_method := "POST"%string; http_url := _; http_query := _;
                     http_auth := _; http_form := _ |}).
  pose (rest_m := fun response : HttpResponse =>
    if negb (resp_ok response) then
      throw (Error (String.append "Failed to refresh token: " (resp_text response)))
    else
      let* tokens := lift (response_json P response) in
      let* expires_in := lift (JS.prop tokens "expires_in") in
      let* newExpiresAt :=
        lift (toISOString (n ← to_number expires_in; Some (now + n * 1000))) in
      let* access_token := lift (JS.prop tokens "access_token") in
      let* new_refresh_token := lift (JS.prop tokens "refresh_token") in
      Store.update_tokens
        [ ("access_token", access_token);
          ("refresh_token", new_refresh_token);
          ("expires_at", newExpiresAt);
          ("updated_at", JNum now) ]%string;;
      ret access_token).
  set (w1 := with_trace (fun t => t ++ [DbCall "zoom_tokens" "select" true])
               (with_faults (tail (faults w)) w)).
  set (w2 := with_trace (fun t => t ++ [HttpCall request]) w1).
  assert (Hrun : try_catch (bind (Cron.refreshZoomToken P now) (fun _ => ret unknown_action))
                   catch w
                 = try_catch (bind (match fetch P request with
                                    | Some r => bind (ret r) rest_m
                                    | None => throw (Raised "TypeError: fetch failed")
                                    end) (fun _ => ret unknown_action)) catch w2).
  { unfold try_catch, bind at 1. unfold Cron.refreshZoomToken, bind at 1.
    rewrite (select_tokens_up w tokenData Hrow Hup). fold w1.
    assert (Hcmp : match date_ms (col tokenData "expires_at") with
                   | Some t => 5 * 60 * 1000 <? t - now
                   | None => false
                   end = false).
    { destruct (date_ms (col tokenData "expires_at")) as [t |] eqn:E; [| done].
      apply Z.ltb_ge. by apply Hstale. }
    rewrite Hcmp. unfold bind at 1. unfold lift, JS.String_. rewrite Hrt.
    unfold bind at 1. unfold do_fetch, bind at 1. unfold emit. fold request. fold w2.
    unfold bind at 1.
    destruct (fetch P request) as [r |]; reflexivity. }
  rewrite Hrun.
  assert (Hext : sat extends (fun _ => True)
            (try_catch (bind (match fetch P request with
                              | Some r => bind (ret r) rest_m
                              | None => throw (Raised "TypeError: fetch failed")
                              end) (fun _ => ret unknown_action)) catch)).
  { subst catch rest_m.
    repeat first [ apply sat_update_tokens; intros t0 w0; exists []; simpl;
                   by rewrite app_nil_r
                 | sat_step ]. }
  destruct (Hext w2) as [[rest Hrest] _].
  exists rest. rewrite Hrest. subst w2 w1. simpl. by rewrite <- !app_assoc.
Qed.

End UnknownAction.

(** C10. The cron trigger reads the credential, and refreshes it inside the
    margin, before it looks at the action. For an authorised request whose
    action is unknown: with no credential row (or a failed read) the answer
    is 500 "No Zoom tokens found", not 400; with a credential outside the
    margin the answer is 400 "Unknown action" after the read; with a
    credential inside the margin the refresh call is made all the same. *)
Theorem C10_unknown_action_reads_credential
    (P : Platform) (now : Z) (fuel : nat) (req : Request) (w : World)
    (secret : string) (body action : jsval) :
  req_method req <> "OPTIONS"%string ->
  Deno_env_get P "CRON_SECRET" = Some secret ->
  secret <> EmptyString ->
  Cron.bearer_token (headers_get "Authorization" (req_headers req)) = Some secret ->
  default (JObj []) (JSON_parse P (req_text req)) = body ->
  JS.prop body "action" = Ok action ->
  JS.is_str "sync-users" action = false /\ JS.is_str "sync-meetings" action = false
  /\ JS.is_str "sync-all" action = false /\ JS.is_str "refresh-token" action = false ->
  let out := Cron.serve P now fuel req w in
  (zoom_tokens w = None \/ ~ store_up w ->
     out.1 = Ok no_tokens /\ status no_tokens = 500
     /\ trace out.2 = trace w ++ [DbCall "zoom_tokens" "select" false; ConsoleError "Error:"])
  /\ (forall tokenData,
        zoom_tokens w = Some tokenData -> store_up w ->
        (forall expiresAt,
           date_ms (col tokenData "expires_at") = Some expiresAt ->
           5 * 60 * 1000 < expiresAt - now ->
           out.1 = Ok unknown_action /\ status unknown_action = 400
           /\ trace out.2 = trace w ++ [DbCall "zoom_tokens" "select" true])
        /\ (forall refresh_token,
              (forall expiresAt,
                 date_ms (col tokenData "expires_at") = Some expiresAt ->
                 expiresAt - now <= 5 * 60 * 1000) ->
              JS.to_string (col tokenData "refresh_token") = Some refresh_token ->
              exists rest,
                trace out.2
                = trace w
                  ++ [ DbCall "zoom_tokens" "select" true;
                       HttpCall
                         {| http_method := "POST";
                            http_url := "https://zoom.us/oauth/token";
                            http_query := [];
                            http_auth :=
                              Basic (String.append (Cron.env_text P "ZOOM_CLIENT_ID")
                                       (String.append ":"
                                          (Cron.env_text P "ZOOM_CLIENT_SECRET")));
                            http_form := [("grant_type", "refresh_token");
                                          ("refresh_token", refresh_token)]%string |} ]
                  ++ rest)).
Proof.
  intros Hmethod Hsecret Hne Hauth Hbody Haction Hunknown out. subst out. split.
  - intros Hnone.
    rewrite (unknown_action_no_credential P now fuel req w secret body action) by assumption.
    simpl. by rewrite <- app_assoc.
  - intros tokenData Hrow Hup. split.
    + intros expiresAt Hexp Hfresh.
      by rewrite (unknown_action_fresh P now fuel req w secret body action
                    Hmethod Hsecret Hne Hauth Hbody Haction Hunknown
                    tokenData expiresAt Hrow Hup Hexp Hfresh).
    + intros refresh_token Hstale Hrt.
      by apply (unknown_action_stale P now fuel req w secret body action
                  Hmethod Hsecret Hne Hauth Hbody Haction Hunknown tokenData).
Qed.

Lemma C10_unknown_action_reads_credential_witness :
  let req := Example.cron_request Example.unknown_action_text in
  (Cron.serve Example.platform Example.now 1 req (with_tokens None Example.world)).1
  = Ok {| status := 500;
          body := Json (JObj [("error", JStr "No Zoom tokens found")]%string) |}
  /\ (Cron.serve Example.platform Example.now 1 req Example.world).1
     = Ok {| status := 400;
             body := Json (JObj [("error", JStr "Unknown action");
                                 ("valid", Cron.valid_actions)]%string) |}.
Proof.
  intros req. split.
  - destruct (C10_unknown_action_reads_credential Example.platform Example.now 1 req
                (with_tokens None Example.world) "cron-secret"
                (JObj [("action", JStr "purge")]%string) (JStr "purge")
                ltac:(discriminate) eq_refl ltac:(discriminate) eq_refl eq_refl eq_refl
                ltac:(repeat split; reflexivity)) as [H _].
    destruct (H (or_introl eq_refl)) as [Hout _]. exact Hout.
  - destruct (C10_unknown_action_reads_credential Example.platform Example.now 1 req
                Example.world "cron-secret"
                (JObj [("action", JStr "purge")]%string) (JStr "purge")
                ltac:(discriminate) eq_refl ltac:(discriminate) eq_refl eq_refl eq_refl
                ltac:(repeat split; reflexivity)) as [_ H].
    destruct (H (Example.credential (Example.now + 3600000)) eq_refl
                ltac:(discriminate)) as [Hfresh _].
    destruct (Hfresh (Example.now + 3600000) eq_refl ltac:(vm_compute; reflexivity))
      as [Hout _].
    exact Hout.
Defined.

(** * More properties of the code *)

(** ** Computations that end *)

Lemma ends_ret {A} (Q : A -> Prop) (a : A) : Q a -> ends Q (ret a).
Proof. intros H w. exact H. Qed.

Lemma ends_throw {A} (Q : A -> Prop) (e : Exn) : ends Q (throw e).
Proof. intros w. exact I. Qed.

Lemma ends_lift {A} (r : Res A) : r <> Diverge -> ends (fun a => r = Ok a) (lift r).
Proof. intros H w. unfold lift. simpl. destruct r; try done. Qed.

Lemma ends_weaken {A} (Q Q' : A -> Prop) (m : M A) :
  ends Q m -> (forall a, Q a -> Q' a) -> ends Q' m.
Proof. intros H HQ w. specialize (H w). destruct (m w).1; auto. Qed.

Lemma ends_bind {A B} (Q1 : A -> Prop) (Q : B -> Prop) (m : M A) (k : A -> M B) :
  ends Q1 m -> (forall a, Q1 a -> ends Q (k a)) -> ends Q (bind m k).
Proof.
  intros Hm Hk w. unfold bind. specialize (Hm w).
  destruct (m w) as [[a | e |] w1]; simpl in *; [| done | done].
  apply (Hk a Hm w1).
Qed.

Lemma ends_try_catch {A} (Q : A -> Prop) (m : M A) (h : Exn -> M A) :
  ends Q m -> (forall e, ends Q (h e)) -> ends Q (try_catch m h).
Proof.
  intros Hm Hh w. unfold try_catch. specialize (Hm w).
  destruct (m w) as [[a | e |] w1]; simpl in *; [done | | done].
  apply (Hh e w1).
Qed.

Lemma ends_emit (e : Effect) : ends (fun _ => True) (emit e).
Proof. intros w. exact I. Qed.

Lemma ends_db {A} (table verb : string) (apply : World -> option (A * World)) :
  ends (fun _ => True) (db table verb apply).
Proof.
  intros w. unfold db.
  destruct (if match faults w with b :: _ => b | [] => false end then None else _)
    as [[a w2] |]; exact I.
Qed.

Lemma prop_ends (v : jsval) (k : string) : JS.prop v k <> Diverge.
Proof. destruct v; discriminate. Qed.

Lemma String_ends (v : jsval) : JS.String_ v <> Diverge.
Proof. unfold JS.String_. destruct (JS.to_string v); discriminate. Qed.

Lemma toString_ends (v : jsval) : JS.toString v <> Diverge.
Proof. unfold JS.toString. destruct v; try discriminate; destruct (JS.to_string _); discriminate. Qed.

Lemma opt_toString_ends (v : jsval) : JS.opt_toString v <> Diverge.
Proof.
  unfold JS.opt_toString. pose proof (toString_ends v) as H.
  destruct v; try discriminate; destruct (JS.toString _); done.
Qed.

Lemma response_json_ends (P : Platform) (r : HttpResponse) : response_json P r <> Diverge.
Proof. unfold response_json. destruct (JSON_parse P _); discriminate. Qed.

Lemma toISOString_ends (ms : option Z) : toISOString ms <> Diverge.
Proof. unfold toISOString. destruct ms as [t |]; [destruct (_ <=? _) |]; discriminate. Qed.

Lemma iterate_ends (v : jsval) : JS.iterate v <> Diverge.
Proof. destruct v; discriminate. Qed.

Lemma ends_fetch (P : Platform) (req : HttpRequest) :
  ends (fun r => fetch P req = Some r) (do_fetch P req).
Proof.
  unfold do_fetch. eapply ends_bind; [apply ends_emit |]. intros _ _.
  destruct (fetch P req) as [r |]; [by apply ends_ret | apply ends_throw].
Qed.

Create HintDb ends.

#[local] Hint Resolve prop_ends String_ends toString_ends opt_toString_ends
  response_json_ends toISOString_ends iterate_ends : ends.

Ltac ends_step :=
  match goal with
  | |- ends _ (bind (lift _) _) =>
      eapply ends_bind; [apply ends_lift; auto with ends
                        | let H := fresh "E" in intros ? H; cbv beta in H]
  | |- ends _ (bind (do_fetch _ _) _) =>
      eapply ends_bind; [apply ends_fetch | let H := fresh "E" in intros ? H; cbv beta in H]
  | |- ends _ (bind (db _ _ _) _) => apply (ends_bind (fun _ => True)); [apply ends_db | intros ? _]
  | |- ends _ (bind (emit _) _) => apply (ends_bind (fun _ => True)); [apply ends_emit | intros ? _]
  | |- ends _ (bind (console_error _) _) =>
      apply (ends_bind (fun _ => True)); [apply ends_emit | intros ? _]
  | |- ends _ (bind _ _) => apply (ends_bind (fun _ => True)); [| intros ? _]
  | |- ends _ (db _ _ _) => eapply ends_weaken; [apply ends_db | done]
  | |- ends _ (console_error _) => eapply ends_weaken; [apply ends_emit | done]
  | |- ends _ (emit _) => eapply ends_weaken; [apply ends_emit | done]
  | |- ends _ (lift _) => eapply ends_weaken; [apply ends_lift; auto with ends | done]
  | |- ends _ (ret _) => apply ends_ret
  | |- ends _ (throw _) => apply ends_throw
  | |- ends _ (try_catch _ _) => apply ends_try_catch; [| intros ?]
  | |- ends _ (if ?b then _ else _) => destruct b eqn:?
  | |- ends _ (match ?x with _ => _ end) => destruct x eqn:?
  end.

Lemma returns_try_catch {A} (Q : A -> Prop) (m : M A) (h : Exn -> M A) :
  ends Q m -> (forall e, returns Q (h e)) -> returns Q (try_catch m h).
Proof.
  intros Hm Hh w. unfold try_catch. specialize (Hm w).
  destruct (m w) as [[a | e |] w1]; simpl in *; [eauto | apply Hh | done].
Qed.

(** ** The webhook receiver answers every request *)

Lemma importKey_ends (secretToken : option string) : Webhook.importKey secretToken <> Diverge.
Proof. unfold Webhook.importKey. destruct (TextEncoder_encode _); discriminate. Qed.

Lemma verifyZoomSignature_ends (P : Platform) (now : Z) (req : Request) (body : string) :
  Webhook.verifyZoomSignature P now req body <> Diverge.
Proof.
  unfold Webhook.verifyZoomSignature.
  destruct (headers_get "x-zm-signature" _) as [s |]; [| discriminate].
  destruct (headers_get "x-zm-request-timestamp" _) as [t |]; [| discriminate].
  destruct (Str.is_empty s || Str.is_empty t); [discriminate |].
  destruct (match JS.parseInt t with Some _ => _ | None => _ end); [discriminate |].
  pose proof (importKey_ends (Deno_env_get P "ZOOM_WEBHOOK_SECRET_TOKEN")) as H.
  destruct (Webhook.importKey _); done.
Qed.

Lemma encode_value_ends (v : jsval) : Webhook.encode_value v <> Diverge.
Proof.
  unfold Webhook.encode_value. pose proof (String_ends v) as H.
  destruct v; try discriminate; destruct (JS.String_ _); done.
Qed.

Lemma event_startsWith_ends (prefix : string) (ev : jsval) :
  Webhook.event_startsWith prefix ev <> Diverge.
Proof. destruct ev; discriminate. Qed.

#[local] Hint Resolve importKey_ends verifyZoomSignature_ends encode_value_ends
  event_startsWith_ends : ends.

(** the statuses the webhook receiver answers with *)
Lemma webhook_handle_ends (P : Platform) (now : Z) (req : Request) :
  ends (fun resp => status resp = 200 \/ status resp = 401 \/ status resp = 500)
    (Webhook.handle P now req).
Proof.
  unfold Webhook.handle.
  eapply ends_bind.
  { apply ends_lift. destruct (JSON_parse P (req_text req)); discriminate. }
  intros b _. ends_step. rename a into ev. ends_step.
  - unfold Webhook.url_validation. repeat ends_step; simpl; auto.
  - ends_step. ends_step; [repeat ends_step; simpl; auto |].
    unfold Webhook.apply_event. ends_step.
    + eapply ends_bind with (Q1 := fun _ => True).
      * unfold Webhook.log_meeting_event, Store.insert_event. repeat ends_step; done.
      * intros m _. eapply ends_bind with (Q1 := fun _ => True).
        -- unfold Webhook.sync_meeting, Store.delete_meeting, Store.upsert_meeting.
           repeat ends_step; done.
        -- intros _ _. apply ends_ret. simpl. auto.
    + ends_step. ends_step; [| apply ends_ret; simpl; auto].
      eapply ends_bind with (Q1 := fun _ => True).
      * unfold Webhook.sync_user, Store.delete_user, Store.upsert_user.
        repeat ends_step; done.
      * intros _ _. apply ends_ret. simpl. auto.
Qed.

(** X1. Whatever the request and the state of the store, the webhook receiver
    answers: no exception escapes it, and its status is 200, 401 or 500. *)
Theorem X1_webhook_always_answers (P : Platform) (now : Z) (req : Request) (w : World) :
  exists resp,
    (Webhook.serve P now req w).1 = Ok resp
    /\ (status resp = 200 \/ status resp = 401 \/ status resp = 500).
Proof.
  unfold Webhook.serve. destruct (String.eqb (req_method req) "OPTIONS").
  - eexists. split; [reflexivity | simpl; auto].
  - apply returns_try_catch; [apply webhook_handle_ends |].
    intros e w'. eexists. split; [reflexivity | simpl; auto].
Qed.

(** ** The requests the webhook receiver cannot read, and the events it
    does not know *)

Lemma scenario_verified (text : string) :
  Webhook.verifyZoomSignature Scenario.platform Example.now (Example.signed text) text
  = Ok true.
Proof.
  rewrite (verify_fresh Scenario.platform Example.now (Example.signed text) text
             Example.secret (Spec.signature Example.secret Example.timestamp text)
             Example.timestamp eq_refl ltac:(discriminate) eq_refl eq_refl
             ltac:(discriminate)).
  - rewrite bool_decide_eq_true_2; reflexivity.
  - intros n Hn. vm_compute in Hn. injection Hn as <-. vm_compute. discriminate.
Qed.

Lemma not_is_str (lit : string) (v : jsval) : v <> JStr lit -> JS.is_str lit v = false.
Proof.
  intros H. destruct (JS.is_str lit v) eqn:E; [| done]. by apply is_str_true in E.
Qed.

(** X2. A body that is not JSON, or is the JSON [null], is answered 500
    "Internal server error" whatever its headers; the only effect is the
    line on the error console. *)
Theorem X2_webhook_unreadable_body (P : Platform) (now : Z) (req : Request) (w : World) :
  req_method req <> "OPTIONS"%string ->
  JSON_parse P (req_text req) = None \/ JSON_parse P (req_text req) = Some JNull ->
  Webhook.serve P now req w = (Ok internal_server_error, logged "Error interno:" w).
Proof.
  intros Hmethod Hbody. unfold Webhook.serve. rewrite not_options by assumption.
  unfold try_catch, Webhook.handle, bind, lift.
  destruct Hbody as [-> | ->]; reflexivity.
Qed.

Lemma X2_webhook_unreadable_body_witness :
  Webhook.serve Example.platform Example.now
    {| req_method := "POST"; req_headers := []; req_text := "{" |} Example.world
  = (Ok internal_server_error, logged "Error interno:" Example.world).
Proof.
  apply (X2_webhook_unreadable_body Example.platform Example.now
           {| req_method := "POST"; req_headers := []; req_text := "{" |} Example.world).
  - discriminate.
  - left. reflexivity.
Defined.

(** X3. A verified event that is neither a meeting event nor a [user.] event
    is acknowledged with 200 "Event received" and has no effect at all: no
    store call, no audit record, nothing on the console. A verified body
    whose [event] is not a string is answered 500. *)
Theorem X3_webhook_other_events
    (P : Platform) (now : Z) (req : Request) (w : World) (b ev : jsval) :
  req_method req <> "OPTIONS"%string ->
  JSON_parse P (req_text req) = Some b ->
  JS.prop b "event" = Ok ev ->
  Webhook.verifyZoomSignature P now req (req_text req) = Ok true ->
  (forall name, ev = JStr name ->
     name <> "endpoint.url_validation"%string ->
     name ∉ Webhook.relevantEvents -> Str.startsWith "user." name = false ->
     Webhook.serve P now req w
     = (Ok (Webhook.json_response 200 (JObj [("message", JStr "Event received")]%string)),
        w))
  /\ ((forall name, ev <> JStr name) ->
      Webhook.serve P now req w = (Ok internal_server_error, logged "Error interno:" w)).
Proof.
  intros Hmethod Hparse Hevent Hv. split.
  - intros name -> Hval Hrel Huser.
    rewrite (serve_verified P now req b (JStr name) Hmethod Hparse Hevent w);
      [| apply not_is_str; congruence | exact Hv].
    assert (Hirr : Webhook.is_relevant (JStr name) = false).
    { unfold Webhook.is_relevant. apply not_true_is_false. intros H.
      apply existsb_exists in H as (e & He & Heq).
      simpl in Heq. apply String.eqb_eq in Heq. subst e.
      apply Hrel. by apply list_elem_of_In. }
    unfold try_catch, Webhook.apply_event, bind, lift. rewrite Hirr.
    unfold Webhook.event_startsWith. by rewrite Huser.
  - intros Hns.
    rewrite (serve_verified P now req b ev Hmethod Hparse Hevent w);
      [| destruct ev; try reflexivity; by destruct (Hns s) | exact Hv].
    unfold try_catch, Webhook.apply_event, bind, lift.
    destruct ev; try reflexivity. by destruct (Hns s).
Qed.

Lemma X3_webhook_other_events_witness :
  Webhook.serve Scenario.platform Example.now (Example.signed Scenario.recording_text)
    Example.world
  = (Ok (Webhook.json_response 200 (JObj [("message", JStr "Event received")]%string)),
     Example.world).
Proof.
  destruct (X3_webhook_other_events Scenario.platform Example.now
              (Example.signed Scenario.recording_text) Example.world
              (Example.event "recording.completed" (JObj [("id", JNum 123)]%string))
              (JStr "recording.completed")
              ltac:(discriminate) eq_refl eq_refl
              (scenario_verified Scenario.recording_text)) as [H _].
  apply (H "recording.completed"%string eq_refl ltac:(discriminate)).
  - intros Hin. vm_compute in Hin. repeat (apply elem_of_cons in Hin as [Hin | Hin]; [discriminate |]).
    by apply elem_of_nil in Hin.
  - reflexivity.
Defined.

(** ** A meeting event that has no id *)

Lemma relevant_event_not_validation (ev : jsval) :
  Webhook.is_relevant ev = true -> JS.is_str "endpoint.url_validation" ev = false.
Proof.
  intros H. destruct (JS.is_str "endpoint.url_validation" ev) eqn:E; [| done].
  apply is_str_true in E. subst ev. discriminate.
Qed.

(** X4. A verified meeting event whose object has no [id] is written to the
    event log (one insert is issued) and then answered 500, the meeting
    table and the users being left as they were: [m.id.toString()] throws
    after the audit write. *)
Theorem X4_webhook_meeting_without_id
    (P : Platform) (now : Z) (req : Request) (w : World) (b ev pl m id : jsval) :
  req_method req <> "OPTIONS"%string ->
  JSON_parse P (req_text req) = Some b ->
  JS.prop b "event" = Ok ev ->
  Webhook.is_relevant ev = true ->
  Webhook.verifyZoomSignature P now req (req_text req) = Ok true ->
  JS.prop b "payload" = Ok pl ->
  JS.prop pl "object" = Ok m ->
  JS.prop m "id" = Ok id ->
  id = JUndefined \/ id = JNull ->
  let out := Webhook.serve P now req w in
  out.1 = Ok internal_server_error
  /\ event_calls out.2
     = event_calls w ++ [DbCall "zoom_events" "insert" (bool_decide (store_up w))]
  /\ zoom_meetings out.2 = zoom_meetings w
  /\ zoom_users out.2 = zoom_users w.
Proof.
  intros Hmethod Hparse Hevent Hrel Hv Hpl Hm Hid Hnone out. subst out.
  rewrite (serve_verified P now req b ev Hmethod Hparse Hevent w
             (relevant_event_not_validation ev Hrel) Hv).
  assert (Hmid : JS.opt_toString id = Ok JUndefined) by (by destruct Hnone as [-> | ->]).
  destruct (log_meeting_event_run b ev pl m id Hrel Hpl Hm Hid w JUndefined Hmid)
    as (record & w1 & Hlog & _ & _ & Hcalls & Hm1 & Hu1 & _).
  unfold try_catch, Webhook.apply_event, bind. rewrite Hrel, Hlog.
  unfold Webhook.sync_meeting, bind, lift. rewrite Hid.
  assert (Hthrow : exists e, JS.toString id = Throw e)
    by (destruct Hnone as [-> | ->]; eexists; reflexivity).
  destruct Hthrow as [e He]. rewrite He.
  destruct (JS.is_str "meeting.deleted" ev);
    unfold Webhook.internal_error, bind, console_error, emit, event_calls in *; cbn;
    rewrite List.filter_app; cbn; rewrite app_nil_r; done.
Qed.

Lemma X4_webhook_meeting_without_id_witness :
  let out := Webhook.serve Scenario.platform Example.now
               (Example.signed Scenario.meeting_no_id_text) Example.world in
  out.1 = Ok internal_server_error
  /\ event_calls out.2 = [DbCall "zoom_events" "insert" true]
  /\ zoom_meetings out.2 = zoom_meetings Example.world
  /\ zoom_users out.2 = zoom_users Example.world.
Proof.
  apply (X4_webhook_meeting_without_id Scenario.platform Example.now
           (Example.signed Scenario.meeting_no_id_text) Example.world
           (Example.event "meeting.started" (JObj [("topic", JStr "Kickoff")]%string))
           (JStr "meeting.started")
           (JObj [("object", JObj [("topic", JStr "Kickoff")])]%string)
           (JObj [("topic", JStr "Kickoff")]%string) JUndefined
           ltac:(discriminate) eq_refl eq_refl eq_refl
           (scenario_verified Scenario.meeting_no_id_text) eq_refl eq_refl eq_refl
           (or_introl eq_refl)).
Defined.

(** ** The meetings of a deleted user *)




(** ** A meeting that is created and then deleted *)

Section MeetingServed.

Variables (P : Platform) (now : Z) (req : Request) (b ev pl m id : jsval) (key : string).
Hypothesis Hmethod : req_method req <> "OPTIONS"%string.
Hypothesis Hparse : JSON_parse P (req_text req) = Some b.
Hypothesis Hevent : JS.prop b "event" = Ok ev.
Hypothesis Hrelevant : Webhook.is_relevant ev = true.
Hypothesis Hverified : Webhook.verifyZoomSignature P now req (req_text req) = Ok true.
Hypothesis Hpayload : JS.prop b "payload" = Ok pl.
Hypothesis Hobject : JS.prop pl "object" = Ok m.
Hypothesis Hid : JS.prop m "id" = Ok id.
Hypothesis Hkey : JS.toString id = Ok key.

(** a verified meeting event on a store that is up *)
Lemma meeting_event_served (w : World) :
  faults w = [] ->
  let out := Webhook.serve P now req w in
  out.1 = Ok Webhook.success
  /\ faults out.2 = []
  /\ zoom_meetings out.2 = Webhook.meeting_delta now ev m key (zoom_meetings w)
  /\ length (zoom_events out.2) = S (length (zoom_events w))
  /\ zoom_users out.2 = zoom_users w /\ zoom_tokens out.2 = zoom_tokens w.
Proof.
  intros Hw out. subst out.
  rewrite (serve_verified P now req b ev Hmethod Hparse Hevent w
             (relevant_event_not_validation ev Hrelevant) Hverified).
  destruct (apply_meeting_event_run now b ev pl m id Hrelevant Hpayload Hobject Hid w key Hkey)
    as (record & w2 & Hrun & _ & Hev & _ & Hmeet & Hu & Ht & Hf & _).
  unfold try_catch. rewrite Hrun. cbn [fst snd]. rewrite Hw in *. cbn [tail] in *.
  assert (Hup : up []) by discriminate.
  rewrite (bool_decide_eq_true_2 _ Hup) in Hev, Hmeet.
  rewrite Hev, Hmeet, Hu, Ht, Hf, length_app. cbn.
  repeat split; try done. lia.
Qed.

End MeetingServed.

(** X6. A verified [meeting.created] (or [.updated], [.started], [.ended])
    followed by a verified [meeting.deleted] for the same id, on a store
    that is up: the meeting is stored after the first and gone after the
    second, every other meeting is as it was before the two, and the event
    log has the two records. *)
Theorem X6_meeting_created_then_deleted
    (P : Platform) (now1 now2 : Z) (req1 req2 : Request) (w : World)
    (b1 b2 ev pl1 pl2 m1 m2 id1 id2 : jsval) (key : string) :
  req_method req1 <> "OPTIONS"%string -> req_method req2 <> "OPTIONS"%string ->
  JSON_parse P (req_text req1) = Some b1 -> JSON_parse P (req_text req2) = Some b2 ->
  JS.prop b1 "event" = Ok ev -> JS.prop b2 "event" = Ok (JStr "meeting.deleted") ->
  Webhook.is_relevant ev = true -> ev <> JStr "meeting.deleted" ->
  Webhook.verifyZoomSignature P now1 req1 (req_text req1) = Ok true ->
  Webhook.verifyZoomSignature P now2 req2 (req_text req2) = Ok true ->
  JS.prop b1 "payload" = Ok pl1 -> JS.prop pl1 "object" = Ok m1 ->
  JS.prop m1 "id" = Ok id1 -> JS.toString id1 = Ok key ->
  JS.prop b2 "payload" = Ok pl2 -> JS.prop pl2 "object" = Ok m2 ->
  JS.prop m2 "id" = Ok id2 -> JS.toString id2 = Ok key ->
  faults w = [] ->
  let w1 := (Webhook.serve P now1 req1 w).2 in
  let w2 := (Webhook.serve P now2 req2 w1).2 in
  (exists row, zoom_meetings w1 !! key = Some row
               /\ row !! "meeting_id"%string = Some (JStr key))
  /\ zoom_meetings w2 !! key = None
  /\ (forall k, k <> key -> zoom_meetings w2 !! k = zoom_meetings w !! k)
  /\ length (zoom_events w2) = (length (zoom_events w) + 2)%nat.
Proof.
  intros Hm1 Hm2 Hp1 Hp2 He1 He2 Hrel Hnd Hv1 Hv2 Hpl1 Ho1 Hid1 Hk1 Hpl2 Ho2 Hid2 Hk2 Hw
    w1 w2. subst w1 w2.
  destruct (meeting_event_served P now1 req1 b1 ev pl1 m1 id1 key
              Hm1 Hp1 He1 Hrel Hv1 Hpl1 Ho1 Hid1 Hk1 w Hw)
    as (_ & Hf1 & Hmeet1 & Hlen1 & _).
  destruct (meeting_event_served P now2 req2 b2 (JStr "meeting.deleted") pl2 m2 id2 key
              Hm2 Hp2 He2 eq_refl Hv2 Hpl2 Ho2 Hid2 Hk2 _ Hf1)
    as (_ & _ & Hmeet2 & Hlen2 & _).
  rewrite Hmeet2, Hmeet1, Hlen2, Hlen1. unfold Webhook.meeting_delta.
  rewrite (not_is_str "meeting.deleted" ev Hnd).
  change (JS.is_str "meeting.deleted" (JStr "meeting.deleted")) with true. cbn iota.
  split; [| split; [| split]].
  - eexists. split; [apply lookup_insert_eq |].
    rewrite lookup_union, row_of_lookup. cbn.
    by destruct (default ∅ (zoom_meetings w !! key) !! "meeting_id"%string).
  - apply lookup_delete_eq.
  - intros k Hk. rewrite lookup_delete_ne, lookup_insert_ne by congruence. reflexivity.
  - lia.
Qed.

Lemma X6_meeting_created_then_deleted_witness :
  let w1 := (Webhook.serve Scenario.platform Example.now
               (Example.signed Scenario.meeting_created_text) Example.world).2 in
  let w2 := (Webhook.serve Scenario.platform Example.now
               (Example.signed Scenario.meeting_789_deleted_text) w1).2 in
  (exists row, zoom_meetings w1 !! "789"%string = Some row
               /\ row !! "meeting_id"%string = Some (JStr "789"))
  /\ zoom_meetings w2 !! "789"%string = None
  /\ (forall k, k <> "789"%string -> zoom_meetings w2 !! k = zoom_meetings Example.world !! k)
  /\ length (zoom_events w2) = 2%nat.
Proof.
  apply (X6_meeting_created_then_deleted Scenario.platform Example.now Example.now
           (Example.signed Scenario.meeting_created_text)
           (Example.signed Scenario.meeting_789_deleted_text) Example.world
           (Example.event "meeting.created"
              (JObj [("id", JNum 789); ("topic", JStr "Kickoff");
                     ("host_id", JStr "u0")]%string))
           (Example.event "meeting.deleted" (JObj [("id", JNum 789)]%string))
           (JStr "meeting.created")
           (JObj [("object", JObj [("id", JNum 789); ("topic", JStr "Kickoff");
                                   ("host_id", JStr "u0")])]%string)
           (JObj [("object", JObj [("id", JNum 789)])]%string)
           (JObj [("id", JNum 789); ("topic", JStr "Kickoff"); ("host_id", JStr "u0")]%string)
           (JObj [("id", JNum 789)]%string) (JNum 789) (JNum 789) "789"%string
           ltac:(discriminate) ltac:(discriminate) eq_refl eq_refl eq_refl eq_refl eq_refl
           ltac:(discriminate)
           (scenario_verified Scenario.meeting_created_text)
           (scenario_verified Scenario.meeting_789_deleted_text)
           eq_refl eq_refl eq_refl eq_refl eq_refl eq_refl eq_refl eq_refl eq_refl).
Defined.

(** ** The staleness window of the signature *)

Lemma digit_val_pretty (d : N) :
  (d < 10)%N -> JS.digit_val 10 (pretty_N_char d) = Some (Z.of_N d).
Proof.
  intros H.
  assert (Hd : (d = 0 \/ d = 1 \/ d = 2 \/ d = 3 \/ d = 4 \/ d = 5 \/ d = 6 \/ d = 7
                \/ d = 8 \/ d = 9)%N) by lia.
  repeat (destruct Hd as [-> | Hd]; [reflexivity |]). by subst d.
Qed.

Lemma is_digit_pretty (d : N) :
  (d < 10)%N ->
  let n := Str.code (pretty_N_char d) in (48 <=? n) && (n <=? 57) = true.
Proof.
  intros H.
  assert (Hd : (d = 0 \/ d = 1 \/ d = 2 \/ d = 3 \/ d = 4 \/ d = 5 \/ d = 6 \/ d = 7
                \/ d = 8 \/ d = 9)%N) by lia.
  repeat (destruct Hd as [-> | Hd]; [reflexivity |]). by subst d.
Qed.

(** the digits of a number are read back as the number *)
Lemma digits_pretty_N_go (x : N) :
  (0 < x)%N ->
  exists p : Z, forall s acc,
    JS.digits 10 (pretty_N_go x s) acc
    = JS.digits 10 s (Some (default 0 acc * p + Z.of_N x)).
Proof.
  induction (N.lt_wf_0 x) as [x _ IH]. intros Hx.
  assert (Hmod : (x `mod` 10 < 10)%N) by (apply N.mod_lt; lia).
  assert (Hdiv : (x = 10 * (x `div` 10) + x `mod` 10)%N) by (apply N.div_mod; lia).
  destruct (decide (x `div` 10 = 0)%N) as [Hz | Hnz].
  - exists 10. intros s acc. rewrite pretty_N_go_step, Hz, pretty_N_go_0 by done.
    cbn [JS.digits]. rewrite digit_val_pretty by done. do 2 f_equal. lia.
  - destruct (IH (x `div` 10)%N) as [p Hp]; [apply N.div_lt; lia | by apply N.neq_0_lt_0 |].
    exists (p * 10). intros s acc. rewrite pretty_N_go_step, Hp by done.
    cbn [JS.digits]. rewrite digit_val_pretty by done. cbn [default from_option id].
    do 2 f_equal. lia.
Qed.

Lemma all_digits_pretty_N_go (x : N) (s : string) :
  all_digits (pretty_N_go x s) = all_digits s.
Proof.
  revert s. induction (N.lt_wf_0 x) as [x _ IH]. intros s.
  destruct (decide (x = 0)%N) as [-> | Hx]; [by rewrite pretty_N_go_0 |].
  rewrite pretty_N_go_step by lia. rewrite IH by (apply N.div_lt; lia).
  cbn [all_digits]. rewrite is_digit_pretty by (apply N.mod_lt; lia). reflexivity.
Qed.

Lemma pretty_N_go_nonempty (x : N) (s : string) :
  (0 < x)%N -> pretty_N_go x s <> EmptyString.
Proof.
  revert s. induction (N.lt_wf_0 x) as [x _ IH]. intros s Hx.
  rewrite pretty_N_go_step by done.
  destruct (decide (x `div` 10 = 0)%N) as [Hz | Hnz].
  - rewrite Hz, pretty_N_go_0. discriminate.
  - apply IH; [apply N.div_lt; lia | by apply N.neq_0_lt_0].
Qed.

(** [parseInt] on a run of decimal digits: no white space, no sign and no
    [0x] prefix to look at *)
Lemma parseInt_digits (s : string) :
  s <> EmptyString -> all_digits s = true -> JS.parseInt s = JS.digits 10 s None.
Proof.
  destruct s as [| c r]; [done |]. intros _ H. cbn [all_digits] in H.
  apply andb_prop in H as [Hc Hr].
  enough (JS.parseInt (String c r)
          = match JS.digits 10 (String c r) None with
            | Some n => Some n
            | None => None
            end) as -> by (by destruct (JS.digits 10 (String c r) None)).
  assert (Hcases : c = "0"%char \/ c = "1"%char \/ c = "2"%char \/ c = "3"%char
                   \/ c = "4"%char \/ c = "5"%char \/ c = "6"%char \/ c = "7"%char
                   \/ c = "8"%char \/ c = "9"%char).
  { destruct c as [[|] [|] [|] [|] [|] [|] [|] [|]];
      try (by vm_compute in Hc);
      repeat first [left; reflexivity | right]; reflexivity. }
  destruct Hcases as [-> | Hcases].
  - destruct r as [| c2 r2]; [reflexivity |]. cbn [all_digits] in Hr.
    apply andb_prop in Hr as [Hc2 _].
    destruct c2 as [[|] [|] [|] [|] [|] [|] [|] [|]];
      first [by vm_compute in Hc2 | reflexivity].
  - repeat (destruct Hcases as [-> | Hcases]; [reflexivity |]). subst c. reflexivity.
Qed.

Lemma parseInt_pretty_pos (x : positive) :
  JS.parseInt (pretty (Npos x)) = Some (Zpos x)
  /\ all_digits (pretty (Npos x)) = true /\ pretty (Npos x) <> EmptyString.
Proof.
  unfold pretty, pretty_N. rewrite decide_False by done.
  assert (Hd : all_digits (pretty_N_go (N.pos x) "") = true)
    by (by rewrite all_digits_pretty_N_go).
  assert (Hne : pretty_N_go (N.pos x) "" <> EmptyString)
    by (apply pretty_N_go_nonempty; lia).
  split; [| done].
  rewrite parseInt_digits by done.
  destruct (digits_pretty_N_go (N.pos x)) as [p Hp]; [lia |].
  rewrite Hp. reflexivity.
Qed.

(** [parseInt(String(n))] is [n] *)
Lemma parseInt_pretty (n : Z) : JS.parseInt (pretty n) = Some n /\ pretty n <> EmptyString.
Proof.
  destruct n as [| x | x].
  - split; [reflexivity | discriminate].
  - destruct (parseInt_pretty_pos x) as (H & _ & Hne). done.
  - destruct (parseInt_pretty_pos x) as (H & Hd & Hne).
    change (pretty (Z.neg x)) with (String "-" (pretty (N.pos x))).
    split; [| discriminate].
    rewrite parseInt_digits in H by done.
    unfold JS.parseInt. cbn [JS.trim_ws JS.is_ws].
    change (JS.is_ws "-") with false. cbv iota.
    destruct (pretty (N.pos x)) as [| c r] eqn:E; [done |].
    cbn [all_digits] in Hd. apply andb_prop in Hd as [Hc Hr].
    assert (Hradix : match String c r with
                     | String "0" (String "x" r') => (16, r')
                     | String "0" (String "X" r') => (16, r')
                     | _ => (10, String c r)
                     end = (10, String c r)).
    { destruct c as [[|] [|] [|] [|] [|] [|] [|] [|]]; try reflexivity.
      destruct r as [| c2 r2]; [reflexivity |]. cbn [all_digits] in Hr.
      apply andb_prop in Hr as [Hc2 _].
      destruct c2 as [[|] [|] [|] [|] [|] [|] [|] [|]];
        first [by vm_compute in Hc2 | reflexivity]. }
    rewrite Hradix, H. reflexivity.
Qed.

(** X7. A request that carries the signature of the design for its body and
    its timestamp, the timestamp being the decimal text of the second [t],
    verifies exactly when [t] is at most 300 seconds from now, in either
    direction: the bound is inclusive, and a timestamp in the future is
    accepted like one in the past. *)
Theorem X7_signature_window
    (P : Platform) (now : Z) (req : Request) (body secret : string) (t : Z) :
  Deno_env_get P "ZOOM_WEBHOOK_SECRET_TOKEN" = Some secret ->
  secret <> EmptyString ->
  headers_get "x-zm-signature" (req_headers req)
  = Some (Spec.signature secret (pretty t) body) ->
  headers_get "x-zm-request-timestamp" (req_headers req) = Some (pretty t) ->
  Webhook.verifyZoomSignature P now req body
  = Ok (bool_decide (Z.abs (now / 1000 - t) <= 300)).
Proof.
  intros Hsecret Hne Hs Ht.
  destruct (parseInt_pretty t) as [Hparse Hnonempty].
  destruct (decide (Z.abs (now / 1000 - t) <= 300)) as [Hin | Hout].
  - rewrite (verify_fresh P now req body secret _ (pretty t) Hsecret Hne Hs Ht Hnonempty).
    + by rewrite !bool_decide_eq_true_2.
    + intros n Hn. rewrite Hparse in Hn. by injection Hn as <-.
  - rewrite bool_decide_eq_false_2 by done.
    unfold Webhook.verifyZoomSignature. rewrite Hs, Ht, Hparse.
    rewrite (is_empty_false (pretty t) Hnonempty). cbn [Str.is_empty Spec.signature].
    assert (Hstale : (300 <? Z.abs (now / 1000 - t)) = true) by (apply Z.ltb_lt; lia).
    rewrite Hstale. reflexivity.
Qed.

Lemma X7_signature_window_witness :
  let req := Example.signed Example.meeting_updated_text in
  Webhook.verifyZoomSignature Example.platform 1700000300999 req
    Example.meeting_updated_text = Ok true
  /\ Webhook.verifyZoomSignature Example.platform 1700000301000 req
       Example.meeting_updated_text = Ok false
  /\ Webhook.verifyZoomSignature Example.platform 1699999700000 req
       Example.meeting_updated_text = Ok true
  /\ Webhook.verifyZoomSignature Example.platform 1699999699999 req
       Example.meeting_updated_text = Ok false.
Proof.
  intros req.
  pose proof (fun now => X7_signature_window Example.platform now req
                Example.meeting_updated_text Example.secret 1700000000
                eq_refl ltac:(discriminate) eq_refl eq_refl) as H.
  split; [| split; [| split]]; rewrite H; reflexivity.
Defined.

(** ** The gate of the cron trigger *)

(** X8. A request to the cron trigger that does not carry the cron secret has
    no effect at all: it is answered 500 when the secret is not configured
    and 401 otherwise, before the body is read, and neither the store nor
    the provider is called. *)
Theorem X8_cron_gate (P : Platform) (now : Z) (fuel : nat) (req : Request) (w : World) :
  req_method req <> "OPTIONS"%string ->
  (default EmptyString (Deno_env_get P "CRON_SECRET") = EmptyString ->
   Cron.serve P now fuel req w
   = (Ok (Cron.json_response 500
            (JObj [("error", JStr "CRON_SECRET not configured")]%string)), w))
  /\ (forall secret,
        Deno_env_get P "CRON_SECRET" = Some secret -> secret <> EmptyString ->
        Cron.bearer_token (headers_get "Authorization" (req_headers req)) <> Some secret ->
        Cron.serve P now fuel req w
        = (Ok (Cron.json_response 401 (JObj [("error", JStr "Unauthorized")]%string)), w)).
Proof.
  intros Hmethod. unfold Cron.serve, try_catch, Cron.handle.
  rewrite not_options by assumption. split.
  - intros ->. reflexivity.
  - intros secret Hsecret Hne Hauth. rewrite Hsecret.
    change (default EmptyString (Some secret)) with secret.
    rewrite (is_empty_false secret Hne), bool_decide_eq_false_2 by assumption.
    reflexivity.
Qed.

Lemma X8_cron_gate_witness :
  Cron.serve Example.platform Example.now 5
    {| req_method := "POST"; req_headers := [("Authorization", "Bearer guess")]%string;
       req_text := Example.sync_all_text |} Example.world
  = (Ok (Cron.json_response 401 (JObj [("error", JStr "Unauthorized")]%string)),
     Example.world).
Proof.
  destruct (X8_cron_gate Example.platform Example.now 5
              {| req_method := "POST";
                 req_headers := [("Authorization", "Bearer guess")]%string;
                 req_text := Example.sync_all_text |} Example.world
              ltac:(discriminate)) as [_ H].
  apply (H "cron-secret"%string eq_refl); discriminate.
Defined.

(** ** The action [refresh-token] *)

(** X9. For an authorised request with the action [refresh-token] and a
    credential outside the margin, the cron trigger answers "Token
    refreshed successfully" after one read of the credential: the provider
    is not called and nothing is written. *)
Theorem X9_cron_refresh_token_without_refresh
    (P : Platform) (now : Z) (fuel : nat) (req : Request) (w : World)
    (secret : string) (body : jsval) (tokenData : Row) (expiresAt : Z) :
  req_method req <> "OPTIONS"%string ->
  Deno_env_get P "CRON_SECRET" = Some secret ->
  secret <> EmptyString ->
  Cron.bearer_token (headers_get "Authorization" (req_headers req)) = Some secret ->
  default (JObj []) (JSON_parse P (req_text req)) = body ->
  JS.prop body "action" = Ok (JStr "refresh-token") ->
  zoom_tokens w = Some tokenData -> store_up w ->
  date_ms (col tokenData "expires_at") = Some expiresAt ->
  5 * 60 * 1000 < expiresAt - now ->
  Cron.serve P now fuel req w
  = (Ok (Cron.json_response 200
           (JObj [("success", JBool true); ("action", JStr "refresh-token");
                  ("message", JStr "Token refreshed successfully");
                  ("timestamp", JNum now)]%string)),
     with_trace (fun t => t ++ [DbCall "zoom_tokens" "select" true])
       (with_faults (tail (faults w)) w)).
Proof.
  intros Hmethod Hsecret Hne Hauth Hbody Haction Hrow Hup Hexp Hfresh.
  unfold Cron.serve. rewrite not_options by assumption.
  unfold try_catch, Cron.handle. rewrite Hsecret, Hauth, Hbody.
  change (default EmptyString (Some secret)) with secret.
  rewrite (is_empty_false secret Hne), bool_decide_eq_true_2 by reflexivity.
  cbn [negb]. unfold bind at 1. unfold lift. rewrite Haction.
  unfold bind at 1.
  rewrite (refreshZoomToken_fresh P now w tokenData expiresAt Hrow Hexp Hup Hfresh).
  reflexivity.
Qed.

Lemma X9_cron_refresh_token_without_refresh_witness :
  let out := Cron.serve Scenario.platform Example.now 1
               (Example.cron_request Scenario.refresh_token_text) Example.world in
  out.1 = Ok (Cron.json_response 200
                (JObj [("success", JBool true); ("action", JStr "refresh-token");
                       ("message", JStr "Token refreshed successfully");
                       ("timestamp", JNum Example.now)]%string))
  /\ http_calls out.2 = [] /\ zoom_tokens out.2 = zoom_tokens Example.world.
Proof.
  intros out. subst out.
  rewrite (X9_cron_refresh_token_without_refresh Scenario.platform Example.now 1
             (Example.cron_request Scenario.refresh_token_text) Example.world
             "cron-secret" (JObj [("action", JStr "refresh-token")]%string)
             (Example.credential (Example.now + 3600000)) (Example.now + 3600000)
             ltac:(discriminate) eq_refl ltac:(discriminate) eq_refl eq_refl eq_refl
             eq_refl ltac:(discriminate) eq_refl ltac:(vm_compute; reflexivity)).
  split; [reflexivity |]. split; reflexivity.
Defined.

(** ** The gate of the user sync *)

(** X10. The user sync answers a request without an [Authorization] header with
    401, but a request with a wrong secret with 500 ("Invalid
    authorization" has none of the words the status is derived from); in
    both cases neither the store nor the provider is called. *)
Theorem X10_zoom_users_gate (P : Platform) (now : Z) (fuel : nat) (req : Request) (w : World) :
  req_method req <> "OPTIONS"%string ->
  (default EmptyString (headers_get "Authorization" (req_headers req)) = EmptyString ->
   ZoomUsers.serve P now fuel req w
   = (Ok {| status := 401;
            body := Json (JObj [("error", JStr "Missing Authorization header")]%string) |},
      logged "error" w))
  /\ (forall authHeader secret,
        headers_get "Authorization" (req_headers req) = Some authHeader ->
        authHeader <> EmptyString ->
        Deno_env_get P "CRON_SECRET" = Some secret -> secret <> EmptyString ->
        Str.remove_first "Bearer " authHeader <> secret ->
        ZoomUsers.serve P now fuel req w
        = (Ok {| status := 500;
                 body := Json (JObj [("error", JStr "Invalid authorization")]%string) |},
           logged "error" w)).
Proof.
  intros Hmethod. unfold ZoomUsers.serve, try_catch, ZoomUsers.handle, bind, lift.
  rewrite not_options by assumption. unfold ZoomUsers.verifyCronAuth. split.
  - intros Hnone.
    destruct (headers_get "Authorization" (req_headers req)) as [h |]; [| reflexivity].
    simpl in Hnone. subst h. reflexivity.
  - intros authHeader secret -> Hne -> Hsecret Hwrong.
    rewrite (is_empty_false authHeader Hne), (is_empty_false secret Hsecret).
    apply String.eqb_neq in Hwrong. rewrite Hwrong. reflexivity.
Qed.

Lemma X10_zoom_users_gate_witness :
  ZoomUsers.serve Example.platform Example.now 5
    {| req_method := "POST"; req_headers := [("Authorization", "Bearer guess")]%string;
       req_text := "" |} Example.world
  = (Ok {| status := 500;
           body := Json (JObj [("error", JStr "Invalid authorization")]%string) |},
     logged "error" Example.world).
Proof.
  destruct (X10_zoom_users_gate Example.platform Example.now 5
              {| req_method := "POST";
                 req_headers := [("Authorization", "Bearer guess")]%string;
                 req_text := "" |} Example.world ltac:(discriminate)) as [_ H].
  apply (H "Bearer guess"%string "cron-secret"%string eq_refl ltac:(discriminate) eq_refl
           ltac:(discriminate)).
  discriminate.
Defined.

(** ** The counts of the cron trigger *)

Lemma prop_item (v : jsval) (k : string) : is_item v -> JS.prop v k = Ok (JS.get v k).
Proof. intros [H1 H2]. destruct v; done. Qed.

(** one upsert of a listed user: the store call is made, and its outcome is
    not looked at *)
Lemma upsert_listed_user_run (now : Z) (user : jsval) (w : World) :
  is_item user ->
  exists w',
    Cron.upsert_listed_user now user w = (Ok tt, w')
    /\ faults w' = tail (faults w)
    /\ (head (faults w) = Some true -> zoom_users w' = zoom_users w)
    /\ (forall k, is_Some (zoom_users w !! k) -> is_Some (zoom_users w' !! k))
    /\ (forall k, head (faults w) <> Some true -> JS.get user "id" = JStr k ->
                  is_Some (zoom_users w' !! k))
    /\ http_calls w' = http_calls w.
Proof.
  intros Hitem. unfold Cron.upsert_listed_user, bind, lift.
  rewrite !(prop_item user _ Hitem).
  unfold Store.upsert_user, db, http_calls.
  destruct (faults w) as [| [|] fs] eqn:Hf; cbn -[upsert_row].
  - destruct (upsert_row "id" _ (zoom_users w)) as [t |] eqn:Ht; cbn -[upsert_row];
      (eexists; split; [reflexivity |]); cbn;
      rewrite ?List.filter_app; cbn; rewrite ?app_nil_r;
      (split; [reflexivity |]); (split; [discriminate |]).
    + split; [intros k; by apply (upsert_row_grows _ _ _ _ k Ht) |].
      split; [| reflexivity]. intros k _ Hk.
      unfold upsert_row in Ht. cbn in Ht. rewrite Hk in Ht. cbn in Ht.
      injection Ht as <-. rewrite lookup_insert_eq. eauto.
    + split; [done |]. split; [| reflexivity]. intros k _ Hk.
      unfold upsert_row in Ht. cbn in Ht. rewrite Hk in Ht. discriminate.
  - eexists; split; [reflexivity |]; cbn.
    rewrite ?List.filter_app; cbn; rewrite ?app_nil_r.
    repeat split; done.
  - destruct (upsert_row "id" _ (zoom_users w)) as [t |] eqn:Ht; cbn -[upsert_row];
      (eexists; split; [reflexivity |]); cbn;
      rewrite ?List.filter_app; cbn; rewrite ?app_nil_r;
      (split; [reflexivity |]); (split; [discriminate |]).
    + split; [intros k; by apply (upsert_row_grows _ _ _ _ k Ht) |].
      split; [| reflexivity]. intros k _ Hk.
      unfold upsert_row in Ht. cbn in Ht. rewrite Hk in Ht. cbn in Ht.
      injection Ht as <-. rewrite lookup_insert_eq. eauto.
    + split; [done |]. split; [| reflexivity]. intros k _ Hk.
      unfold upsert_row in Ht. cbn in Ht. rewrite Hk in Ht. discriminate.
Qed.

(** the [for] loop of [syncZoomUsers] on one page *)
Lemma upsert_listed_users_run (now : Z) (users : list jsval) (total : Z) (w : World) :
  Forall is_item users ->
  exists w',
    Cron.upsert_listed_users now users total w
    = (Ok (total + Z.of_nat (length users)), w')
    /\ faults w' = drop (length users) (faults w)
    /\ (Forall (eq true) (take (length users) (faults w)) ->
        length users <= length (faults w) -> zoom_users w' = zoom_users w)%nat
    /\ (forall k, is_Some (zoom_users w !! k) -> is_Some (zoom_users w' !! k))
    /\ (faults w = [] ->
        forall u k, u ∈ users -> JS.get u "id" = JStr k -> is_Some (zoom_users w' !! k))
    /\ http_calls w' = http_calls w.
Proof.
  intros H. revert total w. induction H as [| u us Hu _ IH]; intros total w.
  - exists w. cbn. rewrite Z.add_0_r, drop_0. repeat split; try done.
    intros _ u k Hin. by apply elem_of_nil in Hin.
  - destruct (upsert_listed_user_run now u w Hu) as (w1 & Hrun & Hf1 & Hdown & Hgrow & Hkey & Hh1).
    destruct (IH (total + 1) w1) as (w2 & Hrest & Hf2 & Hdown2 & Hgrow2 & Hkey2 & Hh2).
    exists w2. cbn [Cron.upsert_listed_users]. unfold bind at 1. rewrite Hrun, Hrest.
    split; [f_equal; f_equal; cbn [length]; lia |].
    split; [rewrite Hf2, Hf1; destruct (faults w); cbn; [by rewrite !drop_nil | done] |].
    split; [| split; [| split]].
    + intros Hall Hlen. cbn [length] in *.
      destruct (faults w) as [| f fs] eqn:Hf; [cbn in Hlen; lia |].
      cbn in Hall. apply Forall_cons in Hall as [<- Hall].
      rewrite Hdown2, Hdown; [done | done | by rewrite Hf1 | rewrite Hf1; cbn in *; lia].
    + intros k Hk. by apply Hgrow2, Hgrow.
    + intros Hw u' k Hin Hk. apply elem_of_cons in Hin as [-> | Hin].
      * apply Hgrow2, Hkey; [by rewrite Hw | done].
      * apply (Hkey2 ltac:(by rewrite Hf1, Hw) u' k Hin Hk).
    + by rewrite Hh2, Hh1.
Qed.

(** X11. The number of users the cron trigger reports as synced is the number
    of users the provider listed, whatever the store did with them: the
    outcome of an upsert is not looked at, and when every upsert fails the
    count is the same while the table is as it was. *)
Theorem X11_cron_count_is_listed (now : Z) (users : list jsval) (total : Z) (w : World) :
  Forall is_item users ->
  let out := Cron.upsert_listed_users now users total w in
  out.1 = Ok (total + Z.of_nat (length users))
  /\ (faults w = repeat true (length users) -> zoom_users out.2 = zoom_users w).
Proof.
  intros Hitems out. subst out.
  destruct (upsert_listed_users_run now users total w Hitems)
    as (w' & -> & _ & Hdown & _).
  split; [reflexivity |]. intros Hf. cbn [snd]. apply Hdown.
  - rewrite Hf, take_ge by (by rewrite repeat_length).
    apply Forall_forall. intros x Hx. apply list_elem_of_In, repeat_spec in Hx. done.
  - by rewrite Hf, repeat_length.
Qed.

Lemma X11_cron_count_is_listed_witness :
  let users := [Example.user "u1" "u1@example.org"; Example.user "u2" "u2@example.org"] in
  let out := Cron.upsert_listed_users Example.now users 0
               (with_faults [true; true] Example.world) in
  out.1 = Ok 2 /\ zoom_users out.2 = zoom_users Example.world.
Proof.
  intros users out.
  destruct (X11_cron_count_is_listed Example.now users 0
              (with_faults [true; true] Example.world)) as [H1 H2].
  - repeat constructor; discriminate.
  - split; [exact H1 | exact (H2 eq_refl)].
Defined.

Lemma truthy_str (s : string) : s <> EmptyString -> JS.truthy (JStr s) = true.
Proof. intros H. cbn. by rewrite (is_empty_false s H). Qed.

Lemma or_else_str (s : string) (d : jsval) :
  s <> EmptyString -> JS.or_else (JStr s) d = JStr s.
Proof. intros H. unfold JS.or_else. by rewrite truthy_str. Qed.

(** X12. A page of users is stored before the next page is asked for: when the
    provider refuses the second page, the sync of the cron trigger throws,
    and the users of the first page are in the table all the same. *)
Theorem X12_cron_users_partial_progress
    (P : Platform) (now : Z) (fuel : nat) (accessToken : jsval) (bearer cursor : string)
    (page1 page2 : HttpResponse) (data : jsval) (users : list jsval) (w : World) :
  JS.String_ accessToken = Ok bearer ->
  fetch P (cron_users_request bearer []) = Some page1 ->
  resp_ok page1 = true ->
  JSON_parse P (resp_text page1) = Some data ->
  JS.prop data "users" = Ok (JArr users) ->
  Forall is_item users ->
  JS.prop data "next_page_token" = Ok (JStr cursor) ->
  cursor <> EmptyString ->
  fetch P (cron_users_request bearer [("next_page_token"%string, cursor)]) = Some page2 ->
  resp_ok page2 = false ->
  faults w = [] ->
  let out := Cron.syncZoomUsers P now (S (S fuel)) accessToken w in
  out.1 = Throw (Error (String.append "Zoom API error: " (resp_text page2)))
  /\ (forall u k, u ∈ users -> JS.get u "id" = JStr k -> is_Some (zoom_users out.2 !! k))
  /\ length (http_calls out.2) = (length (http_calls w) + 2)%nat.
Proof.
  intros Htok Hf1 Hok1 Hdata Husers Hitems Hnext Hne Hf2 Hok2 Hw out. subst out.
  set (w0 := requested (cron_users_request bearer []) w).
  destruct (upsert_listed_users_run now users 0 w0 Hitems)
    as (w1 & Hrun & Hfaults & _ & _ & Hkeys & Hcalls).
  assert (Hall : Cron.syncZoomUsers P now (S (S fuel)) accessToken w
                 = (Throw (Error (String.append "Zoom API error: " (resp_text page2))),
                    requested (cron_users_request bearer
                                 [("next_page_token"%string, cursor)]) w1)).
  { unfold Cron.syncZoomUsers. cbn [Cron.syncZoomUsers_pages].
    change (JS.truthy (JStr "")) with false. cbv iota.
    unfold bind at 1. unfold ret at 1. unfold bind at 1. unfold lift at 1. rewrite Htok.
    unfold bind at 1. unfold do_fetch, bind at 1. unfold emit.
    fold (cron_users_request bearer []). rewrite Hf1. unfold ret at 1.
    rewrite Hok1. cbn [negb]. unfold bind at 1. unfold lift at 1, response_json.
    rewrite Hdata. unfold bind at 1. unfold lift at 1. rewrite Husers.
    unfold bind at 1. unfold lift at 1.
    change (JS.iterate (JS.or_else (JArr users) (JArr []))) with (Ok users).
    fold (requested (cron_users_request bearer []) w). fold w0.
    unfold bind at 1. rewrite Hrun. unfold bind at 1. unfold lift at 1. rewrite Hnext.
    rewrite !(or_else_str cursor _ Hne), !(truthy_str cursor Hne).
    unfold bind at 1. unfold bind at 1. unfold lift at 1.
    change (JS.String_ (JStr cursor)) with (Ok cursor : Res string).
    unfold ret at 1. unfold bind at 1. unfold lift at 1.
    unfold bind at 1. unfold bind at 1.
    fold (cron_users_request bearer [("next_page_token"%string, cursor)]).
    rewrite Hf2. unfold ret at 1. rewrite Hok2. reflexivity. }
  rewrite Hall. cbn [fst snd].
  split; [reflexivity |]. split.
  - intros u k Hin Hk. cbn. apply (Hkeys Hw u k Hin Hk).
  - unfold http_calls in *. cbn. rewrite List.filter_app, length_app, Hcalls.
    subst w0. cbn. rewrite List.filter_app, length_app. cbn. lia.
Qed.

Lemma X12_cron_users_partial_progress_witness :
  let out := Cron.syncZoomUsers Scenario.refused Example.now 2 (JStr "old-token")
               Example.world in
  out.1 = Throw (Error "Zoom API error: rate limited")
  /\ is_Some (zoom_users out.2 !! "u1"%string)
  /\ length (http_calls out.2) = 2%nat.
Proof.
  intros out.
  destruct (X12_cron_users_partial_progress Scenario.refused Example.now 0
              (JStr "old-token") "old-token" "X"
              {| resp_ok := true; resp_text := Example.page1_text |}
              {| resp_ok := false; resp_text := "rate limited" |}
              (JObj [("users", JArr [Example.user "u1" "u1@example.org"]);
                     ("next_page_token", JStr "X")]%string)
              [Example.user "u1" "u1@example.org"] Example.world
              eq_refl eq_refl eq_refl eq_refl eq_refl
              ltac:(repeat constructor; discriminate)
              eq_refl ltac:(discriminate) eq_refl eq_refl eq_refl)
    as (Hthrow & Hstored & Hcalls).
  split; [exact Hthrow |]. split; [| exact Hcalls].
  apply (Hstored (Example.user "u1" "u1@example.org") "u1"%string); [| reflexivity].
  by left.
Defined.

(** ** The meeting sync of the cron trigger never throws *)












(** ** The user sync writes the users in one statement, or not at all *)

#[local] Instance users_kept_frame : Frame users_kept.
Proof. split; unfold users_kept; simpl; try done. intros a b c H1 H2. congruence. Qed.

#[local] Instance meetings_kept_frame : Frame meetings_kept.
Proof. split; unfold meetings_kept; simpl; try done. intros a b c H1 H2. congruence. Qed.

#[local] Instance tables_kept_frame : Frame tables_kept.
Proof.
  split; unfold tables_kept; simpl; try done.
  intros a b c (H1 & H2 & H3 & H4) (H5 & H6 & H7 & H8). repeat split; congruence.
Qed.

Section Guarded.
Context {R : World -> World -> Prop} `{!Frame R}.

Lemma guarded_ret {A} (Q : A -> Prop) (a : A) : Q a -> guarded R Q (ret a).
Proof. intros H w. exact H. Qed.

Lemma guarded_throw {A} (Q : A -> Prop) (e : Exn) : guarded R Q (throw e).
Proof. intros w. apply frame_refl. Qed.

Lemma guarded_bind {A B} (Q1 : A -> Prop) (Q : B -> Prop) (m : M A) (k : A -> M B) :
  sat R Q1 m -> (forall a, Q1 a -> guarded R Q (k a)) -> guarded R Q (bind m k).
Proof.
  intros Hm Hk w. unfold bind. destruct (Hm w) as [H1 H2].
  destruct (m w) as [[a | e |] w1]; simpl in *; [| exact H1 | exact H1].
  specialize (Hk a (H2 a eq_refl) w1).
  destruct (k a w1) as [[b | e |] w2]; simpl in *; [exact Hk | ..];
    eapply frame_trans; eassumption.
Qed.

(** a last step that may fail, before the answer *)
Lemma guarded_then_ret {A B} (Q : B -> Prop) (m : M A) (b : B) :
  guarded R (fun _ => True) m -> Q b -> guarded R Q (m;; ret b).
Proof.
  intros Hm Hb w. specialize (Hm w). unfold bind, ret.
  destruct (m w) as [[a | e |] w1]; cbn in *; done.
Qed.

End Guarded.


(** the answer of a handler whose body is [guarded]: 200, or the relation *)
Lemma guarded_serve {R : World -> World -> Prop} `{!Frame R}
    (m : M Response) (h : Exn -> M Response) (w : World) :
  guarded R (fun resp => status resp = 200) m ->
  (forall e, sat R (fun _ => True) (h e)) ->
  let out := try_catch m h w in
  (exists resp, out.1 = Ok resp /\ status resp = 200) \/ R w out.2.
Proof.
  intros Hm Hh out. subst out. unfold try_catch. specialize (Hm w).
  destruct (m w) as [[resp | e |] w1]; simpl in *.
  - left. eauto.
  - right. eapply frame_trans; [exact Hm | apply Hh].
  - right. exact Hm.
Qed.

Lemma zoom_users_handle_guarded (P : Platform) (now : Z) (fuel : nat) (req : Request) :
  guarded users_kept (fun resp => status resp = 200) (ZoomUsers.handle P now fuel req).
Proof.
  unfold ZoomUsers.handle.
  apply (guarded_bind (fun _ => True)); [sat_step |]. intros _ _.
  apply (guarded_bind (fun _ => True));
    [apply bulk_access_token; [apply _ | intros ??; exact eq_refl] |]. intros accessToken _.
  apply (guarded_bind (fun _ => True)).
  { eapply sat_weaken; [apply (bulk_all_users P (fun _ => False)) |]; try done.
    tauto. }
  intros allUsers _.
  apply (guarded_bind (fun _ => True)); [sat_step |]. intros upsertData _.
  destruct (0 <? Z.of_nat (length upsertData)).
  - intros w. unfold bind, Store.upsert_users, db, users_kept.
    destruct (faults w) as [| [|] fs]; cbn -[Store.upsert_rows];
      try destruct (Store.upsert_rows "id" upsertData [] (zoom_users w)) as [u |];
      cbn; done.
  - intros w. reflexivity.
Qed.

(** X14. The user sync writes all the users with one statement at the end: it
    answers 200, or the user table is as it was. A page that cannot be
    fetched, a malformed answer or a refused statement leaves no user of an
    earlier page behind. The meetings and the event log are never
    touched. *)
Theorem X14_zoom_users_all_or_nothing
    (P : Platform) (now : Z) (fuel : nat) (req : Request) (w : World) :
  let out := ZoomUsers.serve P now fuel req w in
  ((exists resp, out.1 = Ok resp /\ status resp = 200)
   \/ zoom_users out.2 = zoom_users w)
  /\ zoom_meetings out.2 = zoom_meetings w
  /\ zoom_events out.2 = zoom_events w.
Proof.
  intros out. subst out. split; [| split].
  - unfold ZoomUsers.serve. destruct (String.eqb (req_method req) "OPTIONS").
    + left. eexists. split; reflexivity.
    + apply (guarded_serve (R := users_kept)); [apply zoom_users_handle_guarded |].
      intros e. repeat sat_step.
  - enough (sat meetings_kept (fun _ => True) (ZoomUsers.serve P now fuel req)) as H
      by apply H.
    apply (bulk_zoom_users_serve P now (fun _ => False)); try done; [| tauto].
    intros objs _. apply sat_db. intros w0 r w2 H.
    destruct (Store.upsert_rows "id" objs [] (zoom_users w0)); [| discriminate].
    by injection H as _ <-.
  - enough (sat events_kept (fun _ => True) (ZoomUsers.serve P now fuel req)) as H
      by apply H.
    apply (bulk_zoom_users_serve P now (fun _ => False)); try done; [| tauto].
    intros objs _. apply sat_db. intros w0 r w2 H.
    destruct (Store.upsert_rows "id" objs [] (zoom_users w0)); [| discriminate].
    by injection H as _ <-.
Qed.

(** ** The user sync stores what the provider lists *)

(** a bulk upsert of rows with distinct keys is applied: each key holds the
    columns of its row over the ones stored, the other keys are as before *)
Lemma upsert_rows_distinct (key : string) (objs : list (list (string * jsval)))
    (keys seen : list string) (t : gmap string Row) :
  Forall2 (fun obj k => key_text (JS.assoc key obj) = Some k) objs keys ->
  NoDup keys -> (forall k, k ∈ keys -> k ∉ seen) ->
  exists t',
    Store.upsert_rows key objs seen t = Some t'
    /\ (forall i obj k, objs !! i = Some obj -> keys !! i = Some k ->
          t' !! k = Some (row_of obj ∪ default ∅ (t !! k)))
    /\ (forall k, k ∉ keys -> t' !! k = t !! k).
Proof.
  intros H. revert seen t. induction H as [| obj k objs keys Hk _ IH]; intros seen t Hnd Hseen.
  - exists t. repeat split; done.
  - apply NoDup_cons in Hnd as [Hnotin Hnd]. cbn [Store.upsert_rows]. rewrite Hk.
    rewrite bool_decide_eq_false_2 by (apply Hseen; by left).
    destruct (IH (k :: seen) (<[k := row_of obj ∪ default ∅ (t !! k)]> t) Hnd)
      as (t' & Hrun & Hrows & Hother).
    { intros k' Hin Hin'. apply elem_of_cons in Hin' as [-> | Hin']; [done |].
      apply (Hseen k'); [by right | done]. }
    exists t'. split; [exact Hrun |]. split.
    + intros [| i] obj' k' Hi Hki; cbn in Hi, Hki.
      * injection Hi as <-. injection Hki as <-.
        rewrite (Hother k Hnotin). apply lookup_insert_eq.
      * rewrite (Hrows i obj' k' Hi Hki).
        rewrite lookup_insert_ne; [done |].
        intros ->. apply Hnotin. by apply list_elem_of_lookup_2 in Hki.
    + intros k' Hk'. rewrite Hother by (intros Hin; apply Hk'; by right).
      apply lookup_insert_ne. intros ->. apply Hk'. by left.
Qed.

(** the pages of a listing, as [all_users] runs through them: only the
    requests are added to the world *)
Lemma all_users_listing_world (P : Platform) (accessToken nextPageToken : jsval)
    (bearer : string) (items : list jsval) (n : nat) :
  JS.String_ accessToken = Ok bearer ->
  listing P bearer nextPageToken items n ->
  forall (fuel : nat) (allUsers : list jsval) (w : World),
    (n <= fuel)%nat ->
    exists w',
      ZoomUsers.all_users P fuel accessToken nextPageToken allUsers w
      = (Ok (allUsers ++ items), w')
      /\ tables_kept w w' /\ faults w' = faults w
      /\ db_calls w' = db_calls w
      /\ length (http_calls w') = (length (http_calls w) + n)%nat.
Proof.
  intros Htok Hl. induction Hl as [tok next cursor users Hcur Hans Hend
                                  | tok next cursor users rest n Hcur Hans Hmore Hl IH];
    intros fuel allUsers w Hfuel.
  - destruct fuel as [| fuel]; [lia |].
    rewrite (all_users_turn P fuel accessToken tok bearer cursor allUsers users next w)
      by assumption.
    rewrite Hend. eexists. split; [reflexivity |].
    unfold tables_kept, db_calls, http_calls, requested. simpl.
    rewrite !List.filter_app, length_app. simpl. rewrite app_nil_r. done.
  - destruct fuel as [| fuel]; [lia |].
    rewrite (all_users_turn P fuel accessToken tok bearer cursor allUsers users next w)
      by assumption.
    rewrite Hmore.
    destruct (IH fuel (allUsers ++ users) (requested (users_request bearer cursor) w))
      as (w' & Hrun & Hkept & Hfaults & Hdb & Hcalls); [lia |].
    exists w'. rewrite Hrun, app_assoc. split; [reflexivity |].
    split; [exact Hkept |]. split; [exact Hfaults |].
    rewrite Hdb, Hcalls. unfold db_calls, http_calls, requested. simpl.
    rewrite !List.filter_app, length_app. simpl. rewrite app_nil_r. split; [done | lia].
Qed.

Lemma upsert_data_items (now : Z) (users : list jsval) :
  Forall is_item users ->
  exists objs,
    ZoomUsers.upsert_data now users = Ok objs
    /\ length objs = length users
    /\ Forall2 (fun u obj =>
                  JS.assoc "id" obj = Some (JS.get u "id")
                  /\ forall c, c ∈ user_columns ->
                               row_of obj !! c = Some (sql (JS.get u c)))
         users objs.
Proof.
  induction 1 as [| u us Hu _ (objs & Hrun & Hlen & Hall)].
  - exists []. repeat split; constructor.
  - eexists. cbn [ZoomUsers.upsert_data]. unfold ZoomUsers.upsert_datum.
    rewrite !(prop_item u _ Hu), Hrun.
    split; [reflexivity |]. split; [cbn; by rewrite Hlen |].
    constructor; [| exact Hall]. split; [reflexivity |].
    intros c Hc. rewrite row_of_lookup. unfold user_columns in Hc.
    repeat (apply elem_of_cons in Hc as [-> | Hc]; [reflexivity |]).
    by apply elem_of_nil in Hc.
Qed.

(** X15. An authorised run of the user sync with a credential outside the
    margin, a listing the fuel suffices for, users with distinct ids and a
    store that is up: the answer is 200 with the number of users listed,
    every listed user is stored under its id with the columns it was listed
    with, and the users that are not listed are as they were. *)
Theorem X15_zoom_users_stores_listing
    (P : Platform) (now : Z) (fuel : nat) (req : Request) (w : World)
    (tokenData : Row) (expiresAt : Z) (bearer : string)
    (users : list jsval) (keys : list string) (n : nat) :
  req_method req <> "OPTIONS"%string ->
  ZoomUsers.verifyCronAuth P req = Ok tt ->
  zoom_tokens w = Some tokenData -> faults w = [] ->
  date_ms (col tokenData "expires_at") = Some expiresAt ->
  300 * 1000 < expiresAt - now / 1000 * 1000 ->
  JS.String_ (col tokenData "access_token") = Ok bearer ->
  listing P bearer (JStr "") users n -> (n <= fuel)%nat ->
  Forall is_item users -> keyed user_key users keys -> NoDup keys ->
  let out := ZoomUsers.serve P now fuel req w in
  out.1 = Ok {| status := 200;
                body := Json (JObj [("success", JBool true);
                                    ("users_synced",
                                     JNum (Z.of_nat (length users)))]%string) |}
  /\ (forall i u k, users !! i = Some u -> keys !! i = Some k ->
        exists row, zoom_users out.2 !! k = Some row
                    /\ forall c, c ∈ user_columns -> row !! c = Some (sql (JS.get u c)))
  /\ (forall k, k ∉ keys -> zoom_users out.2 !! k = zoom_users w !! k)
  /\ length (http_calls out.2) = (length (http_calls w) + n)%nat.
Proof.
  intros Hmethod Hauth Hrow Hw Hexp Hfresh Htok Hl Hfuel Hitems Hkeys Hnd out. subst out.
  set (w0 := with_trace (fun t => t ++ [DbCall "zoom_tokens" "select" true])
               (with_faults [] w)).
  destruct (all_users_listing_world P (col tokenData "access_token") (JStr "") bearer
              users n Htok Hl fuel [] w0 Hfuel)
    as (w1 & Hrun & (Ht1 & Hu1 & Hm1 & He1) & Hf1 & Hdb1 & Hcalls1).
  destruct (upsert_data_items now users Hitems) as (objs & Hdata & Hlen & Hobjs).
  assert (Hkeyed : Forall2 (fun obj k => key_text (JS.assoc "id" obj) = Some k) objs keys).
  { clear -Hobjs Hkeys. revert keys Hkeys.
    induction Hobjs as [| u obj us objs [Hid _] _ IH]; intros keys Hkeys.
    - inversion Hkeys. constructor.
    - inversion Hkeys as [| ? k ? keys' Hk Hrest]; subst. constructor; [| by apply IH].
      by rewrite Hid. }
  destruct (upsert_rows_distinct "id" objs keys [] (zoom_users w1) Hkeyed Hnd)
    as (t' & Hup & Hrows & Hother).
  { intros k _ Hin. by apply elem_of_nil in Hin. }
  assert (Hcalls0 : http_calls w0 = http_calls w).
  { subst w0. unfold http_calls. cbn. rewrite List.filter_app. cbn. apply app_nil_r. }
  assert (Hserve : exists w2,
            ZoomUsers.serve P now fuel req w
            = (Ok {| status := 200;
                     body := Json (JObj [("success", JBool true);
                                         ("users_synced",
                                          JNum (Z.of_nat (length users)))]%string) |}, w2)
            /\ zoom_users w2 = (if 0 <? Z.of_nat (length users) then t' else zoom_users w1)
            /\ http_calls w2 = http_calls w1).
  { unfold ZoomUsers.serve. rewrite not_options by assumption.
    unfold try_catch, ZoomUsers.handle. unfold bind at 1. unfold lift at 1. rewrite Hauth.
    unfold bind at 1.
    rewrite (access_token_fresh P now w tokenData expiresAt Hrow Hexp
               ltac:(unfold store_up, up; rewrite Hw; discriminate) Hfresh).
    rewrite Hw. cbn [tail]. fold w0.
    unfold bind at 1. rewrite Hrun. cbn [app].
    unfold bind at 1. unfold lift at 1. rewrite Hdata, Hlen.
    destruct (0 <? Z.of_nat (length users)) eqn:Hsome.
    - unfold bind at 1. unfold bind at 1. unfold Store.upsert_users, db.
      rewrite Hf1. subst w0. cbn [faults with_trace with_faults]. cbn -[Store.upsert_rows].
      rewrite Hup. cbn. eexists. split; [reflexivity |]. split; [reflexivity |].
      unfold http_calls. cbn. rewrite List.filter_app. cbn. by rewrite app_nil_r.
    - unfold bind at 1. cbn. eexists. split; [reflexivity |]. done. }
  destruct Hserve as (w2 & -> & Husers & Hcalls2). cbn [fst snd].
  split; [reflexivity |]. rewrite Husers, Hcalls2, Hcalls1, Hcalls0.
  split; [| split; [| reflexivity]].
  - intros i u k Hi Hk.
    assert (Hsome : (0 <? Z.of_nat (length users)) = true).
    { apply Z.ltb_lt. apply lookup_lt_Some in Hi. lia. }
    rewrite Hsome.
    destruct (Forall2_lookup_l _ _ _ _ _ Hobjs Hi) as (obj & Hobj & _ & Hcols).
    exists (row_of obj ∪ default ∅ (zoom_users w1 !! k)).
    split; [by apply (Hrows i) |].
    intros c Hc. rewrite lookup_union, (Hcols c Hc).
    by destruct (default ∅ (zoom_users w1 !! k) !! c).
  - intros k Hk. destruct (0 <? Z.of_nat (length users)).
    + rewrite (Hother k Hk), Hu1. reflexivity.
    + rewrite Hu1. reflexivity.
Qed.

Lemma X15_zoom_users_stores_listing_witness :
  let out := ZoomUsers.serve Example.platform Example.now 2
               (Example.cron_request "") Example.world in
  out.1 = Ok {| status := 200;
                body := Json (JObj [("success", JBool true);
                                    ("users_synced", JNum 2)]%string) |}
  /\ (exists row, zoom_users out.2 !! "u2"%string = Some row
                  /\ row !! "email"%string = Some (JStr "u2@example.org"))
  /\ zoom_users out.2 !! "u0"%string = zoom_users Example.world !! "u0"%string.
Proof.
  intros out.
  destruct (X15_zoom_users_stores_listing Example.platform Example.now 2
              (Example.cron_request "") Example.world
              (Example.credential (Example.now + 3600000)) (Example.now + 3600000)
              "old-token"
              [Example.user "u1" "u1@example.org"; Example.user "u2" "u2@example.org"]
              ["u1"; "u2"]%string 2
              ltac:(discriminate) eq_refl eq_refl eq_refl eq_refl
              ltac:(vm_compute; reflexivity) eq_refl)
    as (Hresp & Hstored & Hother & _).
  - apply (listing_more Example.platform "old-token" (JStr "") (JStr "X") ""
             [Example.user "u1" "u1@example.org"] [Example.user "u2" "u2@example.org"] 1);
      [reflexivity | exact example_page1 | reflexivity |].
    apply (listing_last Example.platform "old-token" (JStr "X") (JStr "") "X"
             [Example.user "u2" "u2@example.org"]);
      [reflexivity | exact example_page2 | reflexivity].
  - lia.
  - repeat constructor; discriminate.
  - repeat constructor.
  - apply (bool_decide_unpack _). vm_compute. exact I.
  - split; [exact Hresp |]. split.
    + destruct (Hstored 1%nat (Example.user "u2" "u2@example.org") "u2"%string
                  eq_refl eq_refl) as (row & Hrow & Hcols).
      exists row. split; [exact Hrow |].
      apply (Hcols "email"%string). apply (bool_decide_unpack _). vm_compute. exact I.
    + apply Hother. apply (bool_decide_unpack _). vm_compute. exact I.
Defined.

(** ** The OAuth endpoint *)

Section OAuthSteps.

Variables (P : Platform) (A : Accounts) (now : Z).
Variables (query : list (string * string)) (req : Request).
Variables (ZOOM_CLIENT_ID ZOOM_CLIENT_SECRET : string).
Hypothesis Hmethod : req_method req <> "OPTIONS"%string.
Hypothesis Hid : Deno_env_get P "ZOOM_CLIENT_ID" = Some ZOOM_CLIENT_ID.
Hypothesis Hid_ne : ZOOM_CLIENT_ID <> EmptyString.
Hypothesis Hsecret : Deno_env_get P "ZOOM_CLIENT_SECRET" = Some ZOOM_CLIENT_SECRET.
Hypothesis Hsecret_ne : ZOOM_CLIENT_SECRET <> EmptyString.

Let oauth_catch := caught P.

(** the branch a request takes once the client credentials are there *)
Lemma oauth_serve_branch :
  ZoomOAuth.serve P A now query req
  = try_catch
      (if bool_decide (Url.get "action" query = Some "authorize"%string) then
         ZoomOAuth.authorize P A req ZOOM_CLIENT_ID
       else if negb (Str.is_empty (default EmptyString (Url.get "code" query))) then
         ZoomOAuth.callback P now (default EmptyString (Url.get "code" query))
           ZOOM_CLIENT_ID ZOOM_CLIENT_SECRET
       else if bool_decide (Url.get "action" query = Some "status"%string) then
         ZoomOAuth.check_status
       else ret (ZoomOAuth.info P))
      oauth_catch.
Proof.
  unfold ZoomOAuth.serve. rewrite not_options by assumption.
  unfold ZoomOAuth.handle. rewrite Hid, Hsecret.
  change (default EmptyString (Some ZOOM_CLIENT_ID)) with ZOOM_CLIENT_ID.
  change (default EmptyString (Some ZOOM_CLIENT_SECRET)) with ZOOM_CLIENT_SECRET.
  rewrite (is_empty_false _ Hid_ne), (is_empty_false _ Hsecret_ne). reflexivity.
Qed.

Lemma oauth_serve_callback (code : string) :
  Url.get "action" query <> Some "authorize"%string ->
  Url.get "code" query = Some code -> code <> EmptyString ->
  ZoomOAuth.serve P A now query req
  = try_catch (ZoomOAuth.callback P now code ZOOM_CLIENT_ID ZOOM_CLIENT_SECRET) oauth_catch.
Proof.
  intros Haction Hcode Hne. rewrite oauth_serve_branch.
  rewrite bool_decide_eq_false_2 by assumption. rewrite Hcode.
  change (default EmptyString (Some code)) with code.
  by rewrite (is_empty_false _ Hne).
Qed.

Variables (code : string) (response : HttpResponse) (tokens : jsval) (expires_in : Z).
Hypothesis Hfetch :
  fetch P (ZoomOAuth.token_request P code ZOOM_CLIENT_ID ZOOM_CLIENT_SECRET) = Some response.
Hypothesis Hok : resp_ok response = true.
Hypothesis Hjson : JSON_parse P (resp_text response) = Some tokens.
Hypothesis Htokens : is_item tokens.
Hypothesis Hexpires : to_number (JS.get tokens "expires_in") = Some expires_in.
Hypothesis Hrange : Z.abs (now + expires_in * 1000) <= 8640000000000000.

Let granted := granted_credential now tokens expires_in.

(** the callback when the provider grants the tokens: one request, then
    the upsert of the credential, whose failure is answered 500 *)
Lemma callback_granted (w : World) :
  ZoomOAuth.callback P now code ZOOM_CLIENT_ID ZOOM_CLIENT_SECRET w
  = let w1 := requested (ZoomOAuth.token_request P code ZOOM_CLIENT_ID ZOOM_CLIENT_SECRET)
                w in
    if bool_decide (store_up w) then
      (Ok (ZoomOAuth.json_response 200
             (JObj [("success", JBool true); ("message", JStr "Zoom connected")]%string)),
       with_trace (fun t => t ++ [DbCall "zoom_tokens" "upsert" true])
         (with_tokens (Some (row_of granted ∪ default ∅ (zoom_tokens w)))
            (with_faults (tail (faults w)) w1)))
    else
      (Ok (ZoomOAuth.json_response 500
             (JObj [("error", JStr "Failed to save tokens");
                    ("details", JStr (store_error_message P))]%string)),
       logged "Failed to save tokens:"
         (with_trace (fun t => t ++ [DbCall "zoom_tokens" "upsert" false])
            (with_faults (tail (faults w)) w1))).
Proof.
  unfold ZoomOAuth.callback. unfold bind at 1. unfold do_fetch, bind at 1. unfold emit.
  rewrite Hfetch. unfold ret at 1. rewrite Hok. cbn [negb].
  unfold bind at 1. unfold lift at 1, response_json. rewrite Hjson.
  rewrite !(prop_item tokens _ Htokens).
  unfold bind at 1. unfold lift at 1. unfold bind at 1. unfold lift at 1.
  rewrite Hexpires. cbn [mbind option_bind toISOString].
  apply Z.leb_le in Hrange. rewrite Hrange.
  unfold bind at 1. unfold lift at 1. unfold bind at 1. unfold lift at 1.
  unfold bind at 1. unfold ZoomOAuth.upsert_tokens, db, store_up, up, requested, logged.
  fold (granted_credential now tokens expires_in). fold granted.
  cbn [faults with_trace].
  destruct (faults w) as [| [|] fs]; cbn -[row_of granted].
  - rewrite bool_decide_eq_true_2 by discriminate. reflexivity.
  - rewrite bool_decide_eq_false_2 by (intros H; by apply H). reflexivity.
  - rewrite bool_decide_eq_true_2 by discriminate. reflexivity.
Qed.

End OAuthSteps.




(** ** The callback of the OAuth endpoint is not authenticated *)

(** X17. What the endpoint does with a request that carries a [code] (and is
    not [action=authorize]) depends on the code alone: the [state], the
    [Authorization] header and the body are not looked at, and the code is
    exchanged even when the action is [status]. *)
Theorem X17_oauth_callback_depends_on_code_only
    (P : Platform) (A : Accounts) (now : Z) (query query' : list (string * string))
    (req req' : Request) (w : World) (code : string) :
  req_method req <> "OPTIONS"%string -> req_method req' <> "OPTIONS"%string ->
  Url.get "code" query = Some code -> Url.get "code" query' = Some code ->
  code <> EmptyString ->
  Url.get "action" query <> Some "authorize"%string ->
  Url.get "action" query' <> Some "authorize"%string ->
  ZoomOAuth.serve P A now query req w = ZoomOAuth.serve P A now query' req' w.
Proof.
  intros Hm Hm' Hcode Hcode' Hne Haction Haction'.
  unfold ZoomOAuth.serve, ZoomOAuth.handle.
  rewrite !not_options by assumption. rewrite Hcode, Hcode'.
  rewrite (bool_decide_eq_false_2 _ Haction), (bool_decide_eq_false_2 _ Haction').
  change (default EmptyString (Some code)) with code.
  rewrite (is_empty_false code Hne). reflexivity.
Qed.

Lemma X17_oauth_callback_depends_on_code_only_witness :
  ZoomOAuth.serve Scenario.platform Scenario.accounts Example.now
    [("code", "abc"); ("state", "a1")]%string
    (Scenario.session_request "jwt-admin") Example.world
  = ZoomOAuth.serve Scenario.platform Scenario.accounts Example.now
      [("action", "status"); ("code", "abc"); ("state", "someone-else")]%string
      {| req_method := "GET"; req_headers := []; req_text := "" |} Example.world.
Proof.
  apply (X17_oauth_callback_depends_on_code_only Scenario.platform Scenario.accounts
           Example.now _ _ _ _ Example.world "abc");
    first [discriminate | reflexivity].
Defined.

(** ** The failures of the callback *)

(** X18. When the provider refuses the code, the callback answers 400 with the
    text of the provider and the store is not called. When the provider
    grants the tokens and the store then refuses the upsert, the answer is
    500 "Failed to save tokens" and the stored credential is the one from
    before: unlike the refresh of the cron trigger, the endpoint looks at
    the outcome of its write. *)
Theorem X18_oauth_callback_failures
    (P : Platform) (A : Accounts) (now : Z) (query : list (string * string))
    (req : Request) (w : World) (ZOOM_CLIENT_ID ZOOM_CLIENT_SECRET code : string)
    (response : HttpResponse) :
  req_method req <> "OPTIONS"%string ->
  Deno_env_get P "ZOOM_CLIENT_ID" = Some ZOOM_CLIENT_ID -> ZOOM_CLIENT_ID <> EmptyString ->
  Deno_env_get P "ZOOM_CLIENT_SECRET" = Some ZOOM_CLIENT_SECRET ->
  ZOOM_CLIENT_SECRET <> EmptyString ->
  Url.get "action" query <> Some "authorize"%string ->
  Url.get "code" query = Some code -> code <> EmptyString ->
  let request := ZoomOAuth.token_request P code ZOOM_CLIENT_ID ZOOM_CLIENT_SECRET in
  fetch P request = Some response ->
  (resp_ok response = false ->
   ZoomOAuth.serve P A now query req w
   = (Ok (ZoomOAuth.json_response 400
            (JObj [("error", JStr "Failed to get Zoom tokens");
                   ("details", JStr (resp_text response))]%string)),
      logged "Token exchange failed:" (requested request w)))
  /\ (forall tokens expires_in,
        resp_ok response = true ->
        JSON_parse P (resp_text response) = Some tokens -> is_item tokens ->
        to_number (JS.get tokens "expires_in") = Some expires_in ->
        Z.abs (now + expires_in * 1000) <= 8640000000000000 ->
        ~ store_up w ->
        let out := ZoomOAuth.serve P A now query req w in
        out.1 = Ok (ZoomOAuth.json_response 500
                      (JObj [("error", JStr "Failed to save tokens");
                             ("details", JStr (store_error_message P))]%string))
        /\ zoom_tokens out.2 = zoom_tokens w
        /\ http_calls out.2 = http_calls w ++ [HttpCall request]).
Proof.
  intros Hmethod Hid Hid_ne Hsecret Hsecret_ne Haction Hcode Hcode_ne request Hfetch.
  rewrite (oauth_serve_callback P A now query req ZOOM_CLIENT_ID ZOOM_CLIENT_SECRET
             Hmethod Hid Hid_ne Hsecret Hsecret_ne code Haction Hcode Hcode_ne).
  split.
  - intros Hok. unfold try_catch, ZoomOAuth.callback.
    unfold bind at 1. unfold do_fetch, bind at 1. unfold emit. fold request.
    rewrite Hfetch. unfold ret at 1. rewrite Hok. reflexivity.
  - intros tokens expires_in Hok Hjson Htokens Hexp Hrange Hdown out. subst out.
    unfold try_catch.
    rewrite (callback_granted P now ZOOM_CLIENT_ID ZOOM_CLIENT_SECRET code response tokens
               expires_in Hfetch Hok Hjson Htokens Hexp Hrange w).
    cbv zeta. rewrite bool_decide_eq_false_2 by assumption. cbn [fst snd].
    split; [reflexivity |]. split; [reflexivity |].
    unfold http_calls. cbn. rewrite !List.filter_app. cbn. by rewrite !app_nil_r.
Qed.

Lemma X18_oauth_callback_failures_witness :
  let out := ZoomOAuth.serve Scenario.platform Scenario.accounts Example.now
               [("code", "abc")]%string
               {| req_method := "GET"; req_headers := []; req_text := "" |}
               (with_faults [true] Example.world) in
  out.1 = Ok (ZoomOAuth.json_response 500
                (JObj [("error", JStr "Failed to save tokens");
                       ("details", JStr "PostgrestError")]%string))
  /\ zoom_tokens out.2 = zoom_tokens Example.world
  /\ length (http_calls out.2) = 1%nat.
Proof.
  intros out.
  destruct (X18_oauth_callback_failures Scenario.platform Scenario.accounts Example.now
              [("code", "abc")]%string
              {| req_method := "GET"; req_headers := []; req_text := "" |}
              (with_faults [true] Example.world) "client" "hush" "abc"
              {| resp_ok := true; resp_text := Example.tokens_text |}
              ltac:(discriminate) eq_refl ltac:(discriminate) eq_refl ltac:(discriminate)
              ltac:(discriminate) eq_refl ltac:(discriminate) eq_refl) as [_ H].
  destruct (H (JObj [("access_token", JStr "new-token"); ("refresh_token", JStr "r2");
                     ("expires_in", JNum 3600)]%string) 3600
              eq_refl eq_refl ltac:(split; discriminate) eq_refl
              ltac:(vm_compute; discriminate) ltac:(intros Hup; by apply Hup))
    as (Hresp & Htokens & Hcalls).
  split; [exact Hresp |]. split; [exact Htokens |].
  fold out in Hcalls. rewrite Hcalls. reflexivity.
Defined.

(** ** The authorisation step and the status of the OAuth endpoint *)

Lemma col_filter (r : Row) (cols : list string) (c : string) :
  c ∈ cols ->
  col (filter (fun kv : string * jsval => fst kv ∈ cols) r) c = col r c.
Proof.
  intros Hc. unfold col. destruct (r !! c) as [v |] eqn:E.
  - by rewrite (map_lookup_filter_Some_2 _ _ _ _ E).
  - rewrite (map_lookup_filter_None_2 _ r c); [done | by left].
Qed.

(** X19. [action=authorize] never calls the provider and changes no table. It
    answers 401 without an [Authorization] header or with a token that
    belongs to no session; with a valid session, of any user, it answers
    200 with the authorisation URL, whose [state] is the id of that user.
    The [code] of the request, if any, is not looked at. *)
Theorem X19_oauth_authorize
    (P : Platform) (A : Accounts) (now : Z) (query : list (string * string))
    (req : Request) (w : World) (ZOOM_CLIENT_ID ZOOM_CLIENT_SECRET : string) :
  req_method req <> "OPTIONS"%string ->
  Deno_env_get P "ZOOM_CLIENT_ID" = Some ZOOM_CLIENT_ID -> ZOOM_CLIENT_ID <> EmptyString ->
  Deno_env_get P "ZOOM_CLIENT_SECRET" = Some ZOOM_CLIENT_SECRET ->
  ZOOM_CLIENT_SECRET <> EmptyString ->
  Url.get "action" query = Some "authorize"%string ->
  let out := ZoomOAuth.serve P A now query req w in
  let authHeader := default EmptyString (headers_get "Authorization" (req_headers req)) in
  let token := Str.remove_first "Bearer " authHeader in
  (tables_kept w out.2 /\ http_calls out.2 = http_calls w)
  /\ (authHeader = EmptyString ->
      out = (Ok (ZoomOAuth.json_response 401
                   (JObj [("error", JStr "Authorization required")]%string)), w))
  /\ (authHeader <> EmptyString -> session_user A token = None \/ ~ store_up w ->
      out.1 = Ok (ZoomOAuth.json_response 401 (JObj [("error", JStr "Invalid token")]%string)))
  /\ (forall user state,
        authHeader <> EmptyString -> session_user A token = Some user -> store_up w ->
        JS.String_ (JS.get (JObj user) "id") = Ok state ->
        out.1 = Ok (ZoomOAuth.json_response 200
                      (JObj [("authorization_url",
                              JStr (ZoomOAuth.zoomAuthUrl P ZOOM_CLIENT_ID state));
                             ("redirect_uri", JStr (ZoomOAuth.REDIRECT_URI P))]%string))).
Proof.
  intros Hmethod Hid Hid_ne Hsecret Hsecret_ne Haction out authHeader token.
  assert (Hout : out = try_catch (ZoomOAuth.authorize P A req ZOOM_CLIENT_ID) (caught P) w).
  { subst out.
    rewrite (oauth_serve_branch P A now query req ZOOM_CLIENT_ID ZOOM_CLIENT_SECRET
               Hmethod Hid Hid_ne Hsecret Hsecret_ne).
    by rewrite bool_decide_eq_true_2 by assumption. }
  clearbody out. unfold try_catch, ZoomOAuth.authorize in Hout.
  fold authHeader in Hout. fold token in Hout.
  destruct (Str.is_empty authHeader) eqn:Hempty.
  - apply is_empty_true in Hempty. subst out.
    split; [split; [by unfold tables_kept | reflexivity] |]. split; [reflexivity |].
    split; [intros H; by destruct H |]. intros user state H. by destruct H.
  - assert (Hne : authHeader <> EmptyString) by (intros E; by rewrite E in Hempty).
    assert (Hcases : (session_user A token = None \/ ~ store_up w)
                     \/ exists user, session_user A token = Some user /\ store_up w).
    { destruct (session_user A token) as [user |]; [| by left; left].
      unfold store_up, up. destruct (faults w) as [| [|] fs]; cbn.
      - right. eexists. split; [reflexivity | discriminate].
      - left. right. intros H. by apply H.
      - right. eexists. split; [reflexivity | discriminate]. }
    destruct Hcases as [Hnone | (user & Huser & Hup)].
    + assert (Hrun : auth_getUser A token w
                     = (Ok None,
                        with_trace (fun t => t ++ [DbCall "auth.users" "getUser" false])
                          (with_faults (tail (faults w)) w))).
      { unfold auth_getUser, db. unfold store_up, up in Hnone.
        destruct Hnone as [Hnone | Hdown].
        - rewrite Hnone. by destruct (faults w) as [| [|] fs].
        - destruct (faults w) as [| [|] fs]; cbn [head] in Hdown;
            [exfalso; apply Hdown; discriminate | reflexivity
            | exfalso; apply Hdown; discriminate]. }
      unfold bind at 1 in Hout. rewrite Hrun in Hout. subst out. cbn [fst snd].
      split; [split; [by unfold tables_kept |] |].
      { unfold http_calls. cbn. rewrite List.filter_app. cbn. by rewrite app_nil_r. }
      split; [intros E; by destruct Hne |]. split; [reflexivity |].
      intros user state _ Hu Hup. destruct Hnone as [Hnone | Hdown]; [congruence | done].
    + assert (Hrun : auth_getUser A token w
                     = (Ok (Some (JObj user)),
                        with_trace (fun t => t ++ [DbCall "auth.users" "getUser" true])
                          (with_faults (tail (faults w)) w))).
      { unfold auth_getUser, db. unfold store_up, up in Hup. rewrite Huser.
        destruct (faults w) as [| [|] fs]; cbn [head] in Hup; try reflexivity.
        by destruct Hup. }
      unfold bind at 1 in Hout. rewrite Hrun in Hout.
      unfold bind at 1 in Hout. unfold lift at 1 in Hout. cbn [JS.prop] in Hout.
      unfold bind at 1 in Hout. unfold lift at 1 in Hout.
      destruct (JS.String_ (default JUndefined (JS.assoc "id" user))) as [state | e |] eqn:Hs;
        subst out; cbn [fst snd];
        (split; [split; [by unfold tables_kept |] |]);
        try (unfold http_calls; cbn; rewrite ?List.filter_app; cbn; by rewrite ?app_nil_r);
        (split; [intros E; by destruct Hne |]);
        (split; [intros _ [H | H]; [congruence | done] |]);
        intros user' state' _ Hu _ Hs'; rewrite Huser in Hu; injection Hu as <-;
        cbn [JS.get] in Hs'; rewrite Hs in Hs'; [by injection Hs' as <- | done | done].
Qed.

Lemma X19_oauth_authorize_witness :
  let out := ZoomOAuth.serve Scenario.platform Scenario.accounts Example.now
               [("action", "authorize"); ("code", "abc")]%string
               (Scenario.session_request "jwt-user") Example.world in
  out.1 = Ok (ZoomOAuth.json_response 200
                (JObj [("authorization_url",
                        JStr "https://zoom.us/oauth/authorize?response_type=code&client_id=client&redirect_uri=https%3A%2F%2Fchronos.example.org%2Ffunctions%2Fv1%2Fzoom-oauth&state=b2");
                       ("redirect_uri",
                        JStr "https://chronos.example.org/functions/v1/zoom-oauth")]%string))
  /\ http_calls out.2 = [] /\ zoom_tokens out.2 = zoom_tokens Example.world.
Proof.
  intros out.
  destruct (X19_oauth_authorize Scenario.platform Scenario.accounts Example.now
              [("action", "authorize"); ("code", "abc")]%string
              (Scenario.session_request "jwt-user") Example.world "client" "hush"
              ltac:(discriminate) eq_refl ltac:(discriminate) eq_refl ltac:(discriminate)
              eq_refl) as ((Hkept & Hquiet) & _ & _ & Hurl).
  split; [| split; [exact Hquiet | apply Hkept]].
  exact (Hurl [("id", JStr "b2"); ("email", JStr "user@example.org")]%string "b2"%string
           ltac:(discriminate) eq_refl ltac:(discriminate) eq_refl).
Defined.

(** X20. [action=status] (without a [code]) reads three columns of the
    credential and tells whether there is one: it needs no authorisation,
    calls no provider, changes no table, and its answer holds the expiry
    and the time of the last update, never a token. *)
Theorem X20_oauth_status
    (P : Platform) (A : Accounts) (now : Z) (query : list (string * string))
    (req : Request) (w : World) (ZOOM_CLIENT_ID ZOOM_CLIENT_SECRET : string) :
  req_method req <> "OPTIONS"%string ->
  Deno_env_get P "ZOOM_CLIENT_ID" = Some ZOOM_CLIENT_ID -> ZOOM_CLIENT_ID <> EmptyString ->
  Deno_env_get P "ZOOM_CLIENT_SECRET" = Some ZOOM_CLIENT_SECRET ->
  ZOOM_CLIENT_SECRET <> EmptyString ->
  Url.get "action" query = Some "status"%string ->
  default EmptyString (Url.get "code" query) = EmptyString ->
  let out := ZoomOAuth.serve P A now query req w in
  (tables_kept w out.2 /\ http_calls out.2 = http_calls w)
  /\ (zoom_tokens w = None \/ ~ store_up w ->
      out.1 = Ok (ZoomOAuth.json_response 200 (JObj [("configured", JBool false)]%string)))
  /\ (forall row, zoom_tokens w = Some row -> store_up w ->
        out.1 = Ok (ZoomOAuth.json_response 200
                      (JObj [("configured", JBool true);
                             ("expires_at", col row "expires_at");
                             ("updated_at", col row "updated_at")]%string))).
Proof.
  intros Hmethod Hid Hid_ne Hsecret Hsecret_ne Haction Hcode out.
  assert (Hout : out = try_catch ZoomOAuth.check_status (caught P) w).
  { subst out.
    rewrite (oauth_serve_branch P A now query req ZOOM_CLIENT_ID ZOOM_CLIENT_SECRET
               Hmethod Hid Hid_ne Hsecret Hsecret_ne).
    rewrite Haction, Hcode. reflexivity. }
  clearbody out. subst out.
  unfold try_catch, ZoomOAuth.check_status, bind, ZoomOAuth.select_status, db,
    store_up, up, tables_kept, http_calls.
  destruct (faults w) as [| [|] fs]; cbn [head]; cbn beta;
    destruct (zoom_tokens w) as [row |] eqn:Hrow; cbn -[filter];
    rewrite ?Hrow; cbn -[filter]; rewrite ?List.filter_app; cbn -[filter];
    rewrite ?app_nil_r;
    (split; [done |]);
    (split; [first [ reflexivity
                   | intros [H | H]; [discriminate H | exfalso; apply H; discriminate] ] |]);
    intros row' Hrow' Hup; try discriminate Hrow'; try (by exfalso; apply Hup);
    injection Hrow' as <-;
    rewrite !(col_filter row ["id"; "expires_at"; "updated_at"]%string)
      by (apply (bool_decide_unpack _); vm_compute; exact I);
    reflexivity.
Qed.

Lemma X20_oauth_status_witness :
  (ZoomOAuth.serve Scenario.platform Scenario.accounts Example.now
     [("action", "status")]%string
     {| req_method := "GET"; req_headers := []; req_text := "" |} Example.world).1
  = Ok (ZoomOAuth.json_response 200
          (JObj [("configured", JBool true);
                 ("expires_at", JNum (Example.now + 3600000));
                 ("updated_at", JNum 1699990000000)]%string)).
Proof.
  destruct (X20_oauth_status Scenario.platform Scenario.accounts Example.now
              [("action", "status")]%string
              {| req_method := "GET"; req_headers := []; req_text := "" |} Example.world
              "client" "hush"
              ltac:(discriminate) eq_refl ltac:(discriminate) eq_refl ltac:(discriminate)
              eq_refl eq_refl) as (_ & _ & H).
  apply (H (Example.credential (Example.now + 3600000)) eq_refl). discriminate.
Defined.

(** *** The profiles of the registered users *)

Lemma handle_new_user_fresh (now : Z) (NEW : Row) (k : string) (profiles : gmap string Row) :
  key_text (NEW !! "id"%string) = Some k -> profiles !! k = None ->
  exists profile,
    Schema.handle_new_user now NEW profiles = Some (<[k := profile]> profiles)
    /\ JS.is_str "admin" (col profile "role") = bool_decide (size profiles = 0%nat).
Proof.
  intros Hk Hfresh. unfold Schema.handle_new_user. rewrite Hk. cbn. rewrite Hfresh.
  eexists. split; [reflexivity |]. unfold col.
  rewrite lookup_insert_ne by discriminate. rewrite lookup_insert_ne by discriminate.
  rewrite lookup_insert_eq. cbn. by destruct (bool_decide (size profiles = 0%nat)).
Qed.

Lemma register_later (now : Z) (users : list Row) (ids : list string) :
  Forall2 (fun NEW k => key_text (NEW !! "id"%string) = Some k) users ids -> NoDup ids ->
  forall profiles,
    profiles <> ∅ -> (forall k, k ∈ ids -> profiles !! k = None) ->
    exists profiles',
      Schema.register now users profiles = Some profiles'
      /\ size profiles' = (size profiles + length users)%nat
      /\ (forall k, k ∈ ids \/ is_Some (profiles !! k) -> is_Some (profiles' !! k))
      /\ forall k, Schema.is_admin profiles' (Some k) = Schema.is_admin profiles (Some k).
Proof.
  induction 1 as [| NEW k users ids Hk Hrest IH]; intros Hdup profiles Hne Hfresh.
  { exists profiles. cbn. rewrite Nat.add_0_r. repeat split; try done.
    intros k [Hin | Hin]; [by apply elem_of_nil in Hin | done]. }
  apply NoDup_cons in Hdup as [Hnotin Hdup].
  destruct (handle_new_user_fresh now NEW k profiles Hk) as (profile & Hrun & Hrole).
  { apply Hfresh. by left. }
  assert (Hfresh_k : profiles !! k = None) by (apply Hfresh; by left).
  rewrite bool_decide_eq_false_2 in Hrole by (by rewrite map_size_empty_iff).
  destruct (IH Hdup (<[k := profile]> profiles))
    as (profiles' & Hreg & Hsize & Hdom & Hadmin).
  { apply insert_non_empty. }
  { intros k' Hin. rewrite lookup_insert_ne; [apply Hfresh; by right |].
    intros ->. by apply Hnotin. }
  exists profiles'. split; [cbn; rewrite Hrun; cbn; exact Hreg |]. split.
  { rewrite Hsize, map_size_insert_None by assumption. cbn. lia. }
  split.
  { intros k' Hin. apply Hdom. destruct (decide (k' = k)) as [-> |].
    - right. rewrite lookup_insert_eq. by eexists.
    - rewrite lookup_insert_ne by done. destruct Hin as [Hin | Hin]; [| by right].
      apply elem_of_cons in Hin as [-> | Hin]; [done | by left]. }
  intros k'. rewrite Hadmin. unfold Schema.is_admin.
  destruct (decide (k' = k)) as [-> |].
  - by rewrite lookup_insert_eq, Hfresh_k, Hrole.
  - by rewrite lookup_insert_ne.
Qed.

(** X21. The first user who registers becomes the administrator and nobody
    else does: after the registrations of users with distinct ids, one
    after the other from an empty table, every user has a profile and
    [is_admin] holds of the first one only; [is_first_user] holds before
    the first registration only. *)
Theorem X21_first_user_is_admin (now : Z) (users : list Row) (ids : list string) :
  Forall2 (fun NEW k => key_text (NEW !! "id"%string) = Some k) users ids -> NoDup ids ->
  exists profiles,
    Schema.register now users ∅ = Some profiles
    /\ size profiles = length users
    /\ (Schema.is_first_user profiles = true <-> users = [])
    /\ (forall k, k ∈ ids -> is_Some (profiles !! k))
    /\ (forall uid, Schema.is_admin profiles uid = true <-> uid <> None /\ uid = head ids).
Proof.
  intros Hkeys Hdup.
  enough (exists profiles,
            Schema.register now users ∅ = Some profiles
            /\ size profiles = length users
            /\ (forall k, k ∈ ids -> is_Some (profiles !! k))
            /\ (forall uid, Schema.is_admin profiles uid = true
                            <-> uid <> None /\ uid = head ids))
    as (profiles & Hreg & Hsize & Hdom & Hadmin).
  { exists profiles. repeat split; try done.
    - intros Hfirst. apply bool_decide_eq_true_1 in Hfirst. rewrite Hsize in Hfirst.
      by apply nil_length_inv.
    - intros ->. apply bool_decide_eq_true_2. by rewrite Hsize.
    - by apply Hadmin.
    - by apply Hadmin.
    - by apply Hadmin. }
  destruct Hkeys as [| NEW k users ids Hk Hrest].
  { exists ∅. cbn. split; [done |]. split; [done |]. split.
    - intros k Hin. by apply elem_of_nil in Hin.
    - intros [uid |]; cbn; [rewrite lookup_empty |]; split; try done; by intros []. }
  apply NoDup_cons in Hdup as [Hnotin Hdup].
  destruct (handle_new_user_fresh now NEW k ∅ Hk (lookup_empty k)) as (profile & Hrun & Hrole).
  rewrite bool_decide_eq_true_2 in Hrole by apply map_size_empty.
  destruct (register_later now users ids Hrest Hdup (<[k := profile]> ∅))
    as (profiles & Hreg & Hsize & Hdom & Hadmin).
  { apply insert_non_empty. }
  { intros k' Hin. rewrite lookup_insert_ne; [apply lookup_empty |].
    intros ->. by apply Hnotin. }
  exists profiles. split; [cbn; rewrite Hrun; cbn; exact Hreg |]. split.
  { rewrite Hsize, map_size_insert_None, map_size_empty by apply lookup_empty. done. }
  split.
  - intros k' Hin. apply Hdom. apply elem_of_cons in Hin as [-> | Hin]; [| by left].
    right. rewrite lookup_insert_eq. by eexists.
  - intros [uid |]; [| cbn; split; [done | by intros []]].
    rewrite Hadmin. unfold Schema.is_admin. cbn [head].
    destruct (decide (uid = k)) as [-> |].
    + rewrite lookup_insert_eq, Hrole. done.
    + rewrite lookup_insert_ne, lookup_empty by done.
      split; [done |]. intros [_ [=]]. done.
Qed.

Lemma X21_first_user_is_admin_witness :
  exists profiles,
    Schema.register Example.now
      [ {[ "id" := JStr "a1"; "email" := JStr "admin@example.org" ]};
        {[ "id" := JStr "b2"; "email" := JStr "user@example.org" ]} ]%string ∅ = Some profiles
    /\ Schema.is_admin profiles (Some "a1"%string) = true
    /\ Schema.is_admin profiles (Some "b2"%string) = false.
Proof.
  destruct (X21_first_user_is_admin Example.now
              [ {[ "id" := JStr "a1"; "email" := JStr "admin@example.org" ]};
                {[ "id" := JStr "b2"; "email" := JStr "user@example.org" ]} ]%string
              ["a1"; "b2"]%string)
    as (profiles & Hreg & _ & _ & _ & Hadmin).
  { repeat constructor. }
  { apply (bool_decide_unpack _). vm_compute. exact I. }
  exists profiles. split; [exact Hreg |]. split.
  - apply Hadmin. split; [discriminate | reflexivity].
  - destruct (Schema.is_admin profiles (Some "b2"%string)) eqn:Hb; [| reflexivity].
    apply Hadmin in Hb as [_ Hb]. discriminate Hb.
Defined.

(** *** The refresh by an administrator *)

Lemma role_filter (r : Row) :
  col (filter (fun kv : string * jsval => fst kv = "role"%string) r) "role" = col r "role".
Proof.
  unfold col. destruct (r !! "role"%string) as [v |] eqn:E.
  - by rewrite (map_lookup_filter_Some_2 _ _ _ _ E).
  - rewrite (map_lookup_filter_None_2 _ r "role"%string); [done | by left].
Qed.

Lemma up_dec (fs : list bool) : up fs \/ ~ up fs.
Proof.
  unfold up. destruct fs as [| [|] fs]; cbn;
    [left; discriminate | right; intros H; by apply H | left; discriminate].
Qed.

Lemma db_down {A} (table verb : string) (apply : World -> option (A * World)) (w : World) :
  ~ store_up w ->
  db table verb apply w
  = (Ok None, with_trace (fun t => t ++ [DbCall table verb false])
                (with_faults (tail (faults w)) w)).
Proof.
  unfold store_up, up, db. destruct (faults w) as [| [|] fs]; cbn; intros H;
    [exfalso; apply H; discriminate | reflexivity | exfalso; apply H; discriminate].
Qed.

Lemma db_up {A} (table verb : string) (apply : World -> option (A * World)) (w : World) :
  store_up w ->
  db table verb apply w
  = match apply (with_faults (tail (faults w)) w) with
    | Some (a, w2) => (Ok (Some a), with_trace (fun t => t ++ [DbCall table verb true]) w2)
    | None => (Ok None, with_trace (fun t => t ++ [DbCall table verb false])
                          (with_faults (tail (faults w)) w))
    end.
Proof.
  unfold store_up, up, db. destruct (faults w) as [| [|] fs]; cbn; intros H;
    [reflexivity | by destruct H | reflexivity].
Qed.

Lemma http_calls_db (table verb : string) (ok : bool) (w : World) :
  http_calls (with_trace (fun t => t ++ [DbCall table verb ok]) w) = http_calls w.
Proof. unfold http_calls. cbn. rewrite List.filter_app. cbn. by rewrite app_nil_r. Qed.

Lemma http_calls_console (msg : string) (w : World) :
  http_calls (with_trace (fun t => t ++ [ConsoleError msg]) w) = http_calls w.
Proof. unfold http_calls. cbn. rewrite List.filter_app. cbn. by rewrite app_nil_r. Qed.

Lemma http_calls_http (request : HttpRequest) (w : World) :
  http_calls (with_trace (fun t => t ++ [HttpCall request]) w)
  = http_calls w ++ [HttpCall request].
Proof. unfold http_calls. cbn. by rewrite List.filter_app. Qed.

(** the three outcomes of the check of the caller *)
Lemma verifyAdminAuth_run (A : Accounts) (req : Request) (w : World) :
  let authHeader := default EmptyString (headers_get "Authorization" (req_headers req)) in
  let token := Str.remove_first "Bearer " authHeader in
  authHeader <> EmptyString ->
  exists w',
    (tables_kept w w' /\ http_calls w' = http_calls w)
    /\ ((RefreshToken.verifyAdminAuth A req w = (Throw (Error "Invalid or expired token"), w')
         /\ (session_user A token = None \/ ~ store_up w))
        \/ exists user,
             session_user A token = Some user /\ store_up w
             /\ ((RefreshToken.verifyAdminAuth A req w
                  = (Throw (Error "Admin access required"), w')
                  /\ (Schema.is_admin (user_profiles A)
                        (key_text (Some (JS.get (JObj user) "id"))) = false
                      \/ ~ up (tail (faults w))))
                 \/ (RefreshToken.verifyAdminAuth A req w = (Ok (JObj user), w')
                     /\ Schema.is_admin (user_profiles A)
                          (key_text (Some (JS.get (JObj user) "id"))) = true
                     /\ up (tail (faults w))
                     /\ faults w' = tail (tail (faults w))))).
Proof.
  intros authHeader token Hne.
  remember (RefreshToken.verifyAdminAuth A req w) as out eqn:Hout.
  unfold RefreshToken.verifyAdminAuth in Hout.
  fold authHeader in Hout. fold token in Hout. rewrite (is_empty_false _ Hne) in Hout.
  unfold bind at 1 in Hout. unfold auth_getUser in Hout.
  destruct (up_dec (faults w)) as [Hup | Hdown].
  2:{ rewrite db_down in Hout by exact Hdown. subst out. eexists.
      split; [| left; split; [reflexivity | right; exact Hdown]].
      split; [by unfold tables_kept | by rewrite http_calls_db]. }
  rewrite db_up in Hout by exact Hup.
  destruct (session_user A token) as [user |] eqn:Huser; cbn [mbind option_bind] in Hout.
  2:{ subst out. eexists. split; [| left; split; [reflexivity | by left]].
      split; [by unfold tables_kept | by rewrite http_calls_db]. }
  set (w1 := with_trace _ (with_faults (tail (faults w)) w)) in Hout.
  assert (Hw1 : tables_kept w w1 /\ http_calls w1 = http_calls w)
    by (split; [by unfold tables_kept | unfold w1; by rewrite http_calls_db]).
  assert (Hf1 : faults w1 = tail (faults w)) by reflexivity.
  cbv beta iota in Hout. unfold bind at 1, lift at 1 in Hout. cbn [JS.prop] in Hout.
  change (default JUndefined (JS.assoc "id" user)) with (JS.get (JObj user) "id") in Hout.
  change (default JUndefined (JS.assoc "id" user)) with (JS.get (JObj user) "id").
  set (id := JS.get (JObj user) "id") in *.
  unfold bind at 1 in Hout. unfold RefreshToken.select_role in Hout.
  destruct (up_dec (faults w1)) as [Hup1 | Hdown1].
  2:{ rewrite db_down in Hout by exact Hdown1. subst out. eexists.
      split; [| right; exists user; split; [done |]; split; [done |]; left;
                split; [reflexivity | right; by rewrite <- Hf1]].
      split; [by unfold tables_kept | rewrite http_calls_db; apply Hw1]. }
  rewrite db_up in Hout by exact Hup1.
  destruct (key_text (Some id)) as [k |] eqn:Hk; cbn [mbind option_bind] in Hout.
  2:{ subst out. eexists.
      split; [| right; exists user; split; [done |]; split; [done |]; left;
                split; [reflexivity | left; (unfold Schema.is_admin; change (JS.get (JObj user) "id") with id;
                by rewrite Hk, ?Hr, ?Hrole)]].
      split; [by unfold tables_kept | rewrite http_calls_db; apply Hw1]. }
  destruct (user_profiles A !! k) as [r |] eqn:Hr; cbn [mbind option_bind] in Hout.
  2:{ subst out. eexists.
      split; [| right; exists user; split; [done |]; split; [done |]; left;
                split; [reflexivity | left; (unfold Schema.is_admin; change (JS.get (JObj user) "id") with id;
                by rewrite Hk, ?Hr, ?Hrole)]].
      split; [by unfold tables_kept | rewrite http_calls_db; apply Hw1]. }
  cbv beta iota in Hout. rewrite role_filter in Hout.
  destruct (JS.is_str "admin" (col r "role")) eqn:Hrole; cbn [negb] in Hout; subst out.
  - eexists.
    split; [| right; exists user; split; [done |]; split; [done |]; right;
              split; [reflexivity |]; split; [(unfold Schema.is_admin; change (JS.get (JObj user) "id") with id;
                by rewrite Hk, ?Hr, ?Hrole) |]; split; [by rewrite <- Hf1 | reflexivity]].
    split; [by unfold tables_kept | rewrite http_calls_db; apply Hw1].
  - eexists.
    split; [| right; exists user; split; [done |]; split; [done |]; left;
              split; [reflexivity | left; (unfold Schema.is_admin; change (JS.get (JObj user) "id") with id;
                by rewrite Hk, ?Hr, ?Hrole)]].
    split; [by unfold tables_kept | rewrite http_calls_db; apply Hw1].
Qed.

(** the answer of the [catch] to a refusal *)
Lemma refresh_refused
    (P : Platform) (A : Accounts) (resp_status : HttpRequest -> Z) (now : Z)
    (req : Request) (w w' : World) (e : Exn) :
  req_method req <> "OPTIONS"%string ->
  RefreshToken.verifyAdminAuth A req w = (Throw e, w') ->
  RefreshToken.serve P A resp_status now req w
  = (Ok {| status := RefreshToken.error_status (error_message P e);
           body := Json (JObj [("error", JStr (error_message P e))]%string) |},
     logged "error" w').
Proof.
  intros Hmethod Hrun. unfold RefreshToken.serve. rewrite not_options by assumption.
  unfold try_catch, RefreshToken.handle. unfold bind at 1. by rewrite Hrun.
Qed.

(** X22. Only an administrator gets through: a caller who is not one (no
    header, no session, or a session of a user whose profile is not that
    of an administrator) is answered 401 or 403, and for such a caller the
    provider is not called and no table changes. *)
Theorem X22_admin_refresh_only_admin
    (P : Platform) (A : Accounts) (resp_status : HttpRequest -> Z) (now : Z)
    (req : Request) (w : World) :
  let authHeader := default EmptyString (headers_get "Authorization" (req_headers req)) in
  let token := Str.remove_first "Bearer " authHeader in
  let out := RefreshToken.serve P A resp_status now req w in
  req_method req <> "OPTIONS"%string ->
  (forall user, session_user A token = Some user ->
     Schema.is_admin (user_profiles A) (key_text (Some (JS.get (JObj user) "id"))) = false) ->
  (tables_kept w out.2 /\ http_calls out.2 = http_calls w)
  /\ (authHeader = EmptyString -> out.1 = refusal 401 "Missing Authorization header"%string)
  /\ (authHeader <> EmptyString -> session_user A token = None \/ ~ store_up w ->
      out.1 = refusal 401 "Invalid or expired token"%string)
  /\ (authHeader <> EmptyString -> is_Some (session_user A token) -> store_up w ->
      out.1 = refusal 403 "Admin access required"%string).
Proof.
  intros authHeader token out Hmethod Hplain.
  destruct (decide (authHeader = EmptyString)) as [Hempty | Hne].
  - assert (Hrun : RefreshToken.verifyAdminAuth A req w
                   = (Throw (Error "Missing Authorization header"), w)).
    { unfold RefreshToken.verifyAdminAuth. fold authHeader. by rewrite Hempty. }
    assert (Hout : out = _) by exact (refresh_refused P A resp_status now req w w _ Hmethod Hrun).
    clearbody out. subst out. cbn [fst snd].
    split; [split; [by unfold tables_kept | apply http_calls_console] |].
    split; [intros _; reflexivity |]. split; intros H; by destruct H.
  - destruct (verifyAdminAuth_run A req w Hne) as (w' & (Hkept & Hquiet) & Hcases).
    fold authHeader in Hcases. fold token in Hcases.
    destruct Hcases as [(Hrun & Hwhy) | (user & Huser & Hup & [(Hrun & Hwhy) | (Hrun & Hadmin & _)])].
    + assert (Hout : out = _)
        by exact (refresh_refused P A resp_status now req w w' _ Hmethod Hrun).
      clearbody out. subst out. cbn [fst snd].
      split; [split; [exact Hkept | unfold logged; by rewrite http_calls_console] |].
      split; [intros E; by destruct Hne |]. split; [intros _ _; reflexivity |].
      intros _ [user Huser] Hup. destruct Hwhy as [Hnone | Hdown]; [congruence | done].
    + assert (Hout : out = _)
        by exact (refresh_refused P A resp_status now req w w' _ Hmethod Hrun).
      clearbody out. subst out. cbn [fst snd].
      split; [split; [exact Hkept | unfold logged; by rewrite http_calls_console] |].
      split; [intros E; by destruct Hne |].
      split; [intros _ [Hnone | Hdown]; [congruence | done] |]. intros _ _ _. reflexivity.
    + rewrite (Hplain user Huser) in Hadmin. discriminate Hadmin.
Qed.

Lemma X22_admin_refresh_only_admin_witness :
  (RefreshToken.serve Scenario.platform Scenario.accounts (fun _ => 200) Example.now
     (Scenario.session_request "jwt-user") Example.world).1
  = refusal 403 "Admin access required".
Proof.
  refine (proj2 (proj2 (proj2
            (X22_admin_refresh_only_admin Scenario.platform Scenario.accounts (fun _ => 200)
               Example.now (Scenario.session_request "jwt-user") Example.world
               ltac:(discriminate) _))) ltac:(discriminate) _ ltac:(discriminate)).
  - intros user Huser. vm_compute in Huser. injection Huser as <-. vm_compute. reflexivity.
  - vm_compute. eexists. reflexivity.
Defined.

Section RefreshSteps.

Variable P : Platform.
Variable A : Accounts.
Variable resp_status : HttpRequest -> Z.
Variable now : Z.
Variable req : Request.
Variable w : World.
Variable user : list (string * jsval).
Variables clientId clientSecret : string.

Let authHeader := default EmptyString (headers_get "Authorization" (req_headers req)).
Let token := Str.remove_first "Bearer " authHeader.

Hypothesis Hmethod : req_method req <> "OPTIONS"%string.
Hypothesis Hne : authHeader <> EmptyString.
Hypothesis Huser : session_user A token = Some user.
Hypothesis Hadmin :
  Schema.is_admin (user_profiles A) (key_text (Some (JS.get (JObj user) "id"))) = true.
Hypothesis Hup : store_up w.
Hypothesis Hup1 : up (tail (faults w)).

(** an administrator passes the check *)
Lemma admin_passes :
  exists w',
    RefreshToken.verifyAdminAuth A req w = (Ok (JObj user), w')
    /\ tables_kept w w' /\ http_calls w' = http_calls w
    /\ faults w' = tail (tail (faults w)).
Proof.
  destruct (verifyAdminAuth_run A req w Hne) as (w' & (Hkept & Hquiet) & Hcases).
  fold authHeader in Hcases. fold token in Hcases. exists w'.
  destruct Hcases
    as [(_ & [Hnone | Hdown])
       | (user' & Huser' & _ & [(_ & [Hplain | Hdown]) | (Hrun & _ & _ & Hfaults)])];
    try congruence; try done.
  rewrite Huser in Huser'. injection Huser' as <-. done.
Qed.

Hypothesis Hid : Deno_env_get P "ZOOM_CLIENT_ID" = Some clientId.
Hypothesis Hid_ne : clientId <> EmptyString.
Hypothesis Hsecret : Deno_env_get P "ZOOM_CLIENT_SECRET" = Some clientSecret.
Hypothesis Hsecret_ne : clientSecret <> EmptyString.

(** without a stored credential, the answer mentions a token *)
Lemma refresh_no_credential :
  zoom_tokens w = None \/ ~ up (tail (tail (faults w))) ->
  let out := RefreshToken.serve P A resp_status now req w in
  out.1 = refusal 401 "No token record found in DB"
  /\ tables_kept w out.2 /\ http_calls out.2 = http_calls w.
Proof.
  intros Hnone out.
  destruct admin_passes as (w' & Hrun & Hkept & Hquiet & Hfaults).
  assert (Hout : out = RefreshToken.serve P A resp_status now req w) by reflexivity.
  clearbody out. unfold RefreshToken.serve in Hout. rewrite not_options in Hout by assumption.
  unfold try_catch, RefreshToken.handle in Hout. unfold bind at 1 in Hout.
  rewrite Hrun, Hid, Hsecret in Hout.
  change (default EmptyString (Some clientId)) with clientId in Hout.
  change (default EmptyString (Some clientSecret)) with clientSecret in Hout.
  rewrite (is_empty_false _ Hid_ne), (is_empty_false _ Hsecret_ne) in Hout.
  cbn [orb] in Hout. unfold bind at 1 in Hout. unfold Store.select_tokens in Hout.
  assert (Hrow : zoom_tokens w' = zoom_tokens w) by apply Hkept.
  destruct (up_dec (faults w')) as [Hup2 | Hdown2].
  - rewrite db_up in Hout by exact Hup2. cbn [zoom_tokens with_faults] in Hout.
    destruct Hnone as [Hnone | Hdown]; [| by rewrite <- Hfaults in Hdown].
    rewrite Hrow, Hnone in Hout.
    assert (Hres : out = (refusal 401 "No token record found in DB",
                          logged "error"
                            (with_trace
                               (fun t => t ++ [DbCall "zoom_tokens" "select" false])
                               (with_faults (tail (faults w')) w'))))
      by (rewrite Hout; reflexivity).
    clear Hout. subst out. cbn [fst snd].
    split; [reflexivity |]. unfold logged. rewrite http_calls_console, http_calls_db.
    split; [exact Hkept | exact Hquiet].
  - rewrite db_down in Hout by exact Hdown2.
    assert (Hres : out = (refusal 401 "No token record found in DB",
                          logged "error"
                            (with_trace
                               (fun t => t ++ [DbCall "zoom_tokens" "select" false])
                               (with_faults (tail (faults w')) w'))))
      by (rewrite Hout; reflexivity).
    clear Hout. subst out. cbn [fst snd].
    split; [reflexivity |]. unfold logged. rewrite http_calls_console, http_calls_db.
    split; [exact Hkept | exact Hquiet].
Qed.

Hypothesis Hup2 : up (tail (tail (faults w))).

Variable row : Row.
Variable k refresh_token : string.
Variable response : HttpResponse.
Variable newTokens : jsval.
Variable expires_in : Z.

Let request := RefreshToken.refresh_request clientId clientSecret refresh_token.
Let granted := refreshed_credential now newTokens expires_in row.

Hypothesis Hrow : zoom_tokens w = Some row.
Hypothesis Hkey : key_text (row !! "id"%string) = Some k.
Hypothesis Hrt : JS.String_ (col row "refresh_token") = Ok refresh_token.
Hypothesis Hfetch : fetch P request = Some response.
Hypothesis Hok : resp_ok response = true.
Hypothesis Hjson : JSON_parse P (resp_text response) = Some newTokens.
Hypothesis Hitem : is_item newTokens.
Hypothesis Hexpires : to_number (JS.get newTokens "expires_in") = Some expires_in.
Hypothesis Hrange : Z.abs (now + expires_in * 1000) <= 8640000000000000.

(** the refresh once the provider has granted new tokens: the update of
    the credential, whose failure is reported *)
Lemma refresh_granted :
  let out := RefreshToken.serve P A resp_status now req w in
  let message := String.append "Failed to update DB: " (store_error_message P) in
  (zoom_users out.2 = zoom_users w /\ zoom_meetings out.2 = zoom_meetings w
   /\ zoom_events out.2 = zoom_events w)
  /\ http_calls out.2 = http_calls w ++ [HttpCall request]
  /\ if bool_decide (up (tail (tail (tail (faults w))))) then
       out.1 = Ok {| status := 200;
                     body := Json (JObj [("success", JBool true);
                                         ("expires_at",
                                          JNum (now + expires_in * 1000))]%string) |}
       /\ zoom_tokens out.2 = Some (row_of granted ∪ row)
     else
       out.1 = refusal (RefreshToken.error_status message) message
       /\ zoom_tokens out.2 = Some row.
Proof.
  intros out message.
  destruct admin_passes as (w' & Hrun & Hkept & Hquiet & Hfaults).
  assert (Hout : out = RefreshToken.serve P A resp_status now req w) by reflexivity.
  clearbody out. unfold RefreshToken.serve in Hout. rewrite not_options in Hout by assumption.
  unfold try_catch, RefreshToken.handle in Hout. unfold bind at 1 in Hout.
  rewrite Hrun, Hid, Hsecret in Hout.
  change (default EmptyString (Some clientId)) with clientId in Hout.
  change (default EmptyString (Some clientSecret)) with clientSecret in Hout.
  rewrite (is_empty_false _ Hid_ne), (is_empty_false _ Hsecret_ne) in Hout.
  cbn [orb] in Hout. unfold bind at 1 in Hout. unfold Store.select_tokens in Hout.
  destruct Hkept as (Htokens & Husers & Hmeetings & Hevents).
  rewrite db_up in Hout by (unfold store_up; by rewrite Hfaults).
  cbn [zoom_tokens with_faults] in Hout. rewrite Htokens, Hrow in Hout.
  cbn [mbind option_bind] in Hout.
  set (w3 := with_trace _ (with_faults (tail (faults w')) w')) in Hout.
  unfold bind at 1 in Hout. unfold lift at 1 in Hout. rewrite Hrt in Hout.
  fold request in Hout.
  unfold bind at 1 in Hout. unfold do_fetch, bind at 1 in Hout. unfold emit in Hout.
  rewrite Hfetch in Hout. unfold ret at 1 in Hout. rewrite Hok in Hout. cbn [negb] in Hout.
  unfold bind at 1 in Hout. unfold lift at 1, response_json in Hout. rewrite Hjson in Hout.
  rewrite !(prop_item newTokens _ Hitem) in Hout.
  unfold bind at 1 in Hout. unfold lift at 1 in Hout.
  unfold bind at 1 in Hout. unfold lift at 1 in Hout.
  unfold bind at 1 in Hout. unfold lift at 1 in Hout.
  rewrite Hexpires in Hout. cbn [mbind option_bind toISOString] in Hout.
  apply Z.leb_le in Hrange. rewrite Hrange in Hout.
  unfold bind at 1 in Hout. unfold lift at 1 in Hout.
  fold (refreshed_credential now newTokens expires_in row) in Hout. fold granted in Hout.
  set (w4 := with_trace _ w3) in Hout.
  assert (Hf4 : faults w4 = tail (tail (tail (faults w)))) by (cbn; by rewrite Hfaults).
  assert (Hq4 : http_calls w4 = http_calls w ++ [HttpCall request]).
  { unfold w4. rewrite http_calls_http. unfold w3. rewrite http_calls_db. cbn.
    by rewrite <- Hquiet. }
  assert (Ht4 : zoom_tokens w4 = Some row) by (cbn; by rewrite Htokens).
  assert (Hid_col : exists v, row !! "id"%string = Some v /\ col row "id" = v).
  { unfold col. destruct (row !! "id"%string) as [v |]; [by exists v | discriminate Hkey]. }
  destruct Hid_col as (v & Hv & Hcol). rewrite Hcol in Hout. rewrite Hv in Hkey.
  unfold bind at 1 in Hout. unfold RefreshToken.update_tokens_by_id in Hout.
  rewrite <- Hf4. destruct (up_dec (faults w4)) as [Hup3 | Hdown3].
  - rewrite bool_decide_eq_true_2 by exact Hup3.
    rewrite db_up in Hout by exact Hup3. rewrite Hkey in Hout.
    cbn [mbind option_bind zoom_tokens with_faults] in Hout.
    rewrite Ht4 in Hout. cbn [fmap option_fmap option_map] in Hout.
    rewrite Hv, Hkey, bool_decide_eq_true_2 in Hout by reflexivity.
    assert (Hres : out = (Ok {| status := 200;
                                body := Json (JObj [("success", JBool true);
                                                    ("expires_at",
                                                     JNum (now + expires_in * 1000))]%string) |},
                          with_trace (fun t => t ++ [DbCall "zoom_tokens" "update" true])
                            (with_tokens (Some (row_of granted ∪ row))
                               (with_faults (tail (faults w4)) w4))))
      by (rewrite Hout; reflexivity).
    clear Hout. subst out. cbn [fst snd].
    split; [by cbn |]. split; [by rewrite http_calls_db |]. by split.
  - rewrite bool_decide_eq_false_2 by exact Hdown3.
    rewrite db_down in Hout by exact Hdown3.
    assert (Hres : out = (refusal (RefreshToken.error_status message) message,
                          logged "error"
                            (with_trace (fun t => t ++ [DbCall "zoom_tokens" "update" false])
                               (with_faults (tail (faults w4)) w4))))
      by (rewrite Hout; reflexivity).
    clear Hout. subst out. cbn [fst snd].
    split; [by cbn |]. unfold logged. rewrite http_calls_console, http_calls_db.
    split; [exact Hq4 |]. split; [reflexivity |]. cbn. by rewrite Htokens.
Qed.

(** the refresh when the provider refuses: nothing is written *)
Lemma refresh_refused_by_provider (refusing : HttpResponse) :
  fetch P request = Some refusing -> resp_ok refusing = false ->
  let out := RefreshToken.serve P A resp_status now req w in
  let message :=
    String.append "Zoom API Error "
      (String.append (pretty (resp_status request))
         (String.append ": " (resp_text refusing))) in
  out.1 = refusal (RefreshToken.error_status message) message
  /\ tables_kept w out.2
  /\ http_calls out.2 = http_calls w ++ [HttpCall request].
Proof.
  clear Hfetch Hok Hjson Hitem Hexpires Hrange Hkey.
  intros Hrefusing Hno out message.
  destruct admin_passes as (w' & Hrun & Hkept & Hquiet & Hfaults).
  assert (Hout : out = RefreshToken.serve P A resp_status now req w) by reflexivity.
  clearbody out. unfold RefreshToken.serve in Hout. rewrite not_options in Hout by assumption.
  unfold try_catch, RefreshToken.handle in Hout. unfold bind at 1 in Hout.
  rewrite Hrun, Hid, Hsecret in Hout.
  change (default EmptyString (Some clientId)) with clientId in Hout.
  change (default EmptyString (Some clientSecret)) with clientSecret in Hout.
  rewrite (is_empty_false _ Hid_ne), (is_empty_false _ Hsecret_ne) in Hout.
  cbn [orb] in Hout. unfold bind at 1 in Hout. unfold Store.select_tokens in Hout.
  destruct Hkept as (Htokens & Husers & Hmeetings & Hevents).
  rewrite db_up in Hout by (unfold store_up; by rewrite Hfaults).
  cbn [zoom_tokens with_faults] in Hout. rewrite Htokens, Hrow in Hout.
  cbn [mbind option_bind] in Hout.
  set (w3 := with_trace _ (with_faults (tail (faults w')) w')) in Hout.
  unfold bind at 1 in Hout. unfold lift at 1 in Hout. rewrite Hrt in Hout.
  fold request in Hout.
  unfold bind at 1 in Hout. unfold do_fetch, bind at 1 in Hout. unfold emit in Hout.
  rewrite Hrefusing in Hout. unfold ret at 1 in Hout. rewrite Hno in Hout.
  cbn [negb] in Hout.
  assert (Hres : out = (refusal (RefreshToken.error_status message) message,
                        logged "error" (with_trace (fun t => t ++ [HttpCall request]) w3)))
    by (rewrite Hout; reflexivity).
  clear Hout. subst out. cbn [fst snd]. split; [reflexivity |].
  split; [unfold tables_kept; cbn; by rewrite Htokens, Husers, Hmeetings, Hevents |].
  unfold logged. rewrite http_calls_console, http_calls_http. unfold w3.
  rewrite http_calls_db. cbn. by rewrite <- Hquiet.
Qed.

End RefreshSteps.

Lemma error_status_refuses (message : string) : RefreshToken.error_status message <> 200.
Proof.
  unfold RefreshToken.error_status.
  by destruct (Str.includes "Admin" message),
       (Str.includes "Authorization" message || Str.includes "token" message).
Qed.



(** X24. When the store refuses the update of the credential, the refresh by
    an administrator says so: the answer is not 200 and tells that the
    update failed. The provider has been asked for new tokens by then,
    and the stored credential is the old one. *)
Theorem X24_admin_refresh_update_failure
    (P : Platform) (A : Accounts) (resp_status : HttpRequest -> Z) (now : Z)
    (req : Request) (w : World) (user : list (string * jsval))
    (clientId clientSecret : string) (row : Row) (k refresh_token : string)
    (response : HttpResponse) (newTokens : jsval) (expires_in : Z) (fs : list bool) :
  let authHeader := default EmptyString (headers_get "Authorization" (req_headers req)) in
  let token := Str.remove_first "Bearer " authHeader in
  let request := RefreshToken.refresh_request clientId clientSecret refresh_token in
  let out := RefreshToken.serve P A resp_status now req w in
  let message := String.append "Failed to update DB: " (store_error_message P) in
  req_method req <> "OPTIONS"%string ->
  authHeader <> EmptyString -> session_user A token = Some user ->
  Schema.is_admin (user_profiles A) (key_text (Some (JS.get (JObj user) "id"))) = true ->
  Deno_env_get P "ZOOM_CLIENT_ID" = Some clientId -> clientId <> EmptyString ->
  Deno_env_get P "ZOOM_CLIENT_SECRET" = Some clientSecret -> clientSecret <> EmptyString ->
  faults w = false :: false :: false :: true :: fs ->
  zoom_tokens w = Some row -> key_text (row !! "id"%string) = Some k ->
  JS.String_ (col row "refresh_token") = Ok refresh_token ->
  fetch P request = Some response -> resp_ok response = true ->
  JSON_parse P (resp_text response) = Some newTokens -> is_item newTokens ->
  to_number (JS.get newTokens "expires_in") = Some expires_in ->
  Z.abs (now + expires_in * 1000) <= 8640000000000000 ->
  (exists st, out.1 = refusal st message /\ st <> 200)
  /\ zoom_tokens out.2 = Some row
  /\ http_calls out.2 = http_calls w ++ [HttpCall request].
Proof.
  intros authHeader token request out message Hmethod Hne Huser Hadmin Hid Hid_ne Hsecret
    Hsecret_ne Hfaults Hrow Hkey Hrt Hfetch Hok Hjson Hitem Hexpires Hrange.
  assert (Hup : up (faults w)) by (rewrite Hfaults; discriminate).
  assert (Hup' : up (tail (faults w))) by (rewrite Hfaults; discriminate).
  assert (Hup'' : up (tail (tail (faults w)))) by (rewrite Hfaults; discriminate).
  destruct (refresh_granted P A resp_status now req w user clientId clientSecret
              Hmethod Hne Huser Hadmin Hup Hup' Hid Hid_ne Hsecret Hsecret_ne Hup''
              row k refresh_token response newTokens expires_in
              Hrow Hkey Hrt Hfetch Hok Hjson Hitem Hexpires Hrange)
    as (_ & Hcalls & Hupdate).
  rewrite bool_decide_eq_false_2 in Hupdate
    by (rewrite Hfaults; intros H; by apply H).
  destruct Hupdate as [Hanswer Hstored].
  split; [| done]. eexists. split; [exact Hanswer | apply error_status_refuses].
Qed.

Lemma X24_admin_refresh_update_failure_witness :
  let out := RefreshToken.serve Scenario.platform Scenario.accounts (fun _ => 200) Example.now
               (Scenario.session_request "jwt-admin")
               (with_faults [false; false; false; true] Scenario.world) in
  out.1 = refusal 500 "Failed to update DB: PostgrestError"
  /\ zoom_tokens out.2 = Some Scenario.credential.
Proof.
  intros out.
  destruct (X24_admin_refresh_update_failure Scenario.platform Scenario.accounts (fun _ => 200)
              Example.now (Scenario.session_request "jwt-admin")
              (with_faults [false; false; false; true] Scenario.world)
              [("id", JStr "a1"); ("email", JStr "admin@example.org")]%string
              "client" "hush" Scenario.credential "1" "r1"
              {| resp_ok := true; resp_text := Example.tokens_text |}
              Scenario.new_tokens 3600 []
              ltac:(discriminate) ltac:(discriminate) eq_refl eq_refl
              eq_refl ltac:(discriminate) eq_refl ltac:(discriminate)
              eq_refl eq_refl eq_refl eq_refl eq_refl eq_refl eq_refl
              ltac:(split; discriminate) eq_refl ltac:(vm_compute; discriminate))
    as ((st & Hanswer & _) & Hstored & _).
  split; [| exact Hstored]. reflexivity.
Defined.

(** X25. An administrator who asks for a refresh when no credential can be
    read (none is stored, or the read fails) is answered 401 -- the status
    the [catch] derives from the word "token" in the message -- and the
    provider is not called. *)
Theorem X25_admin_refresh_no_credential
    (P : Platform) (A : Accounts) (resp_status : HttpRequest -> Z) (now : Z)
    (req : Request) (w : World) (user : list (string * jsval))
    (clientId clientSecret : string) :
  let authHeader := default EmptyString (headers_get "Authorization" (req_headers req)) in
  let token := Str.remove_first "Bearer " authHeader in
  let out := RefreshToken.serve P A resp_status now req w in
  req_method req <> "OPTIONS"%string ->
  authHeader <> EmptyString -> session_user A token = Some user ->
  Schema.is_admin (user_profiles A) (key_text (Some (JS.get (JObj user) "id"))) = true ->
  store_up w -> up (tail (faults w)) ->
  Deno_env_get P "ZOOM_CLIENT_ID" = Some clientId -> clientId <> EmptyString ->
  Deno_env_get P "ZOOM_CLIENT_SECRET" = Some clientSecret -> clientSecret <> EmptyString ->
  zoom_tokens w = None \/ ~ up (tail (tail (faults w))) ->
  out.1 = refusal 401 "No token record found in DB"
  /\ tables_kept w out.2 /\ http_calls out.2 = http_calls w.
Proof.
  intros authHeader token out Hmethod Hne Huser Hadmin Hup Hup' Hid Hid_ne Hsecret Hsecret_ne
    Hnone.
  exact (refresh_no_credential P A resp_status now req w user clientId clientSecret
           Hmethod Hne Huser Hadmin Hup Hup' Hid Hid_ne Hsecret Hsecret_ne Hnone).
Qed.

Lemma X25_admin_refresh_no_credential_witness :
  (RefreshToken.serve Scenario.platform Scenario.accounts (fun _ => 200) Example.now
     (Scenario.session_request "jwt-admin") (with_tokens None Example.world)).1
  = refusal 401 "No token record found in DB".
Proof.
  refine (proj1 (X25_admin_refresh_no_credential Scenario.platform Scenario.accounts
                   (fun _ => 200) Example.now (Scenario.session_request "jwt-admin")
                   (with_tokens None Example.world)
                   [("id", JStr "a1"); ("email", JStr "admin@example.org")]%string
                   "client" "hush"
                   ltac:(discriminate) ltac:(discriminate) eq_refl eq_refl
                   ltac:(discriminate) ltac:(discriminate)
                   eq_refl ltac:(discriminate) eq_refl ltac:(discriminate)
                   (or_introl eq_refl))).
Defined.

(** *** The meeting sync of the second function of refresh-zoom-token *)

Section MapSet.

Context {V : Type}.
Implicit Types (es : list (string * V)) (k : string) (v : V).

Lemma Map_set_keys k v es k' :
  k' ∈ (ZoomMeetings.Map_set k v es).*1 <-> k' ∈ es.*1 \/ k' = k.
Proof.
  induction es as [| [k0 v0] es IH]; cbn.
  - rewrite list_elem_of_singleton. split; [by right | intros [H | H]; [| done]].
    by apply elem_of_nil in H.
  - destruct (String.eqb_spec k0 k) as [-> | Hne]; cbn.
    + rewrite !elem_of_cons. tauto.
    + rewrite !elem_of_cons, IH. tauto.
Qed.

Lemma Map_set_NoDup k v es : NoDup es.*1 -> NoDup (ZoomMeetings.Map_set k v es).*1.
Proof.
  induction es as [| [k0 v0] es IH]; cbn; intros Hnd.
  - apply NoDup_singleton.
  - apply NoDup_cons in Hnd as [Hnotin Hnd].
    destruct (String.eqb_spec k0 k) as [-> | Hne]; cbn.
    + by apply NoDup_cons.
    + apply NoDup_cons. split; [| by apply IH].
      rewrite Map_set_keys. intros [H | H]; [done | by apply Hne].
Qed.

Lemma Map_set_new k v es : (k, v) ∈ ZoomMeetings.Map_set k v es.
Proof.
  induction es as [| [k0 v0] es IH]; cbn.
  - by left.
  - destruct (String.eqb_spec k0 k) as [-> | Hne]; [by left | by right].
Qed.

Lemma Map_set_old k v es k' v' :
  k' <> k -> (k', v') ∈ es -> (k', v') ∈ ZoomMeetings.Map_set k v es.
Proof.
  intros Hne. induction es as [| [k0 v0] es IH]; cbn; intros Hin.
  - by apply elem_of_nil in Hin.
  - apply elem_of_cons in Hin as [[= <- <-] | Hin].
    + rewrite (proj2 (String.eqb_neq k' k)) by done. by left.
    + destruct (String.eqb_spec k0 k) as [-> | Hne0]; right; [| by apply IH].
      done.
Qed.

Lemma Map_set_from k v es k' v' :
  (k', v') ∈ ZoomMeetings.Map_set k v es -> (k' = k /\ v' = v) \/ (k', v') ∈ es.
Proof.
  induction es as [| [k0 v0] es IH]; cbn; intros Hin.
  - apply list_elem_of_singleton in Hin as [= -> ->]. by left.
  - destruct (String.eqb_spec k0 k) as [-> | Hne0].
    + apply elem_of_cons in Hin as [[= -> ->] | Hin]; [by left | right; by right].
    + apply elem_of_cons in Hin as [[= -> ->] | Hin]; [right; by left |].
      destruct (IH Hin) as [H | H]; [by left | right; by right].
Qed.

End MapSet.

Lemma last_at_exists (keys : list string) (key : string) :
  key ∈ keys -> exists i, last_at keys i key.
Proof.
  induction keys as [| k keys IH]; intros Hin; [by apply elem_of_nil in Hin |].
  destruct (decide (key ∈ keys)) as [Hlater | Hnot].
  - destruct (IH Hlater) as (i & Hi & Hlast). exists (S i). split; [exact Hi |].
    intros [| j] Hj; [lia |]. apply Hlast. lia.
  - apply elem_of_cons in Hin as [-> | Hin]; [| done]. exists 0%nat. split; [reflexivity |].
    intros [| j] Hj; [lia |]. cbn. intros Hk. apply Hnot.
    by apply list_elem_of_lookup_2 in Hk.
Qed.

Lemma deduplicate_from (now : Z) (ms : list jsval) (keys : list string) :
  Forall2 listed_key ms keys ->
  forall acc, NoDup acc.*1 ->
  exists unique,
    ZoomMeetings.deduplicate now ms acc = Ok unique
    /\ NoDup unique.*1
    /\ (forall key, key ∈ unique.*1 <-> key ∈ acc.*1 \/ key ∈ keys)
    /\ (forall key row, (key, row) ∈ acc -> key ∉ keys -> (key, row) ∈ unique)
    /\ (forall i m key, ms !! i = Some m -> last_at keys i key ->
          (key, ZoomMeetings.meeting_row now m key) ∈ unique)
    /\ (forall key row, (key, row) ∈ unique ->
          (key, row) ∈ acc
          \/ exists i m, ms !! i = Some m /\ keys !! i = Some key
                         /\ row = ZoomMeetings.meeting_row now m key).
Proof.
  induction 1 as [| m key0 ms keys (id & Hid & Hkey) _ IH]; intros acc Hnd.
  - exists acc. split; [reflexivity |]. split; [exact Hnd |]. split.
    { intros key. split; [by left | intros [H | H]; [done | by apply elem_of_nil in H]]. }
    split; [done |]. split; [intros i m key Hi; discriminate Hi |]. intros key row Hin. by left.
  - cbn [ZoomMeetings.deduplicate]. rewrite Hid, Hkey.
    set (acc' := ZoomMeetings.Map_set key0 (ZoomMeetings.meeting_row now m key0) acc).
    destruct (IH acc' (Map_set_NoDup _ _ _ Hnd))
      as (unique & Hrun & Hnd' & Hkeys & Hacc & Hlast & Hfrom).
    exists unique. split; [exact Hrun |]. split; [exact Hnd' |]. split.
    { intros key. rewrite Hkeys. unfold acc'. rewrite Map_set_keys, elem_of_cons. tauto. }
    split.
    { intros key row Hin Hnot. apply Hacc.
      - apply Map_set_old; [| exact Hin]. intros ->. apply Hnot. by left.
      - intros H. apply Hnot. by right. }
    split.
    { intros [| i] m' key Hi [Hk Hafter]; cbn in Hi, Hk.
      - injection Hi as <-. injection Hk as <-. apply Hacc; [apply Map_set_new |].
        intros Hin. apply list_elem_of_lookup_1 in Hin as [j Hj].
        apply (Hafter (S j)); [lia | exact Hj].
      - apply (Hlast i m' key Hi). split; [exact Hk |].
        intros j Hj. apply (Hafter (S j)). lia. }
    intros key row Hin. destruct (Hfrom key row Hin) as [Hin' | (i & m' & Hi & Hk & ->)].
    + apply Map_set_from in Hin' as [[-> ->] | Hin']; [| by left].
      right. by exists 0%nat, m.
    + right. by exists (S i), m'.
Qed.

(** X26. The meetings to write are deduplicated by id: whatever the provider
    lists, under one user or several, the rows handed to the store have
    distinct ids, there is one for every id listed, and the row of an id
    is the one of the meeting listed last with it. *)
Theorem X26_meetings_deduplicated (now : Z) (allMeetings : list jsval) (keys : list string) :
  Forall2 listed_key allMeetings keys ->
  exists uniqueMeetings,
    ZoomMeetings.deduplicate now allMeetings [] = Ok uniqueMeetings
    /\ NoDup uniqueMeetings.*1
    /\ (forall key, key ∈ uniqueMeetings.*1 <-> key ∈ keys)
    /\ (forall key row,
          (key, row) ∈ uniqueMeetings
          <-> exists i m, allMeetings !! i = Some m /\ last_at keys i key
                          /\ row = ZoomMeetings.meeting_row now m key).
Proof.
  intros Hkeys.
  destruct (deduplicate_from now allMeetings keys Hkeys [] (NoDup_nil_2))
    as (unique & Hrun & Hnd & Hdom & _ & Hlast & Hfrom).
  exists unique. split; [exact Hrun |]. split; [exact Hnd |]. split.
  { intros key. rewrite Hdom. split; [intros [H | H]; [by apply elem_of_nil in H | done] |].
    by right. }
  intros key row. split.
  - intros Hin. destruct (Hfrom key row Hin) as [H | (i0 & m0 & Hi0 & Hk0 & _)];
      [by apply elem_of_nil in H |].
    destruct (last_at_exists keys key) as (i & Hi).
    { by apply list_elem_of_lookup_2 in Hk0. }
    destruct (Forall2_lookup_r _ _ _ _ _ Hkeys (proj1 Hi)) as (m & Hm & _).
    exists i, m. split; [exact Hm |]. split; [exact Hi |].
    pose proof (Hlast i m key Hm Hi) as Hin'.
    apply (elem_of_list_to_map_1 (M := gmap string)) in Hin, Hin'; try exact Hnd.
    congruence.
  - intros (i & m & Hm & Hi & ->). by apply (Hlast i m key).
Qed.

Lemma X26_meetings_deduplicated_witness :
  let first := JObj [("id", JNum 456); ("topic", JStr "Retro")]%string in
  let other := JObj [("id", JStr "789"); ("topic", JStr "Kickoff")]%string in
  let again := JObj [("id", JNum 456); ("topic", JStr "Retro, moved")]%string in
  exists uniqueMeetings,
    ZoomMeetings.deduplicate Example.now [first; other; again] [] = Ok uniqueMeetings
    /\ NoDup uniqueMeetings.*1
    /\ ("456"%string, ZoomMeetings.meeting_row Example.now again "456") ∈ uniqueMeetings.
Proof.
  intros first other again.
  destruct (X26_meetings_deduplicated Example.now [first; other; again]
              ["456"; "789"; "456"]%string)
    as (unique & Hrun & Hnd & _ & Hrows).
  { repeat constructor; eexists; split; reflexivity. }
  exists unique. split; [exact Hrun |]. split; [exact Hnd |].
  apply Hrows. exists 2%nat, again. split; [reflexivity |]. split; [| reflexivity].
  split; [reflexivity |]. intros [| [| [| j]]] Hj; try lia; discriminate.
Defined.

Lemma rejections_ok {A B} (f : A -> B) (l : list A) :
  ZoomMeetings.rejections (map (fun x => Ok (f x)) l) = [].
Proof. unfold ZoomMeetings.rejections. by induction l. Qed.

Lemma fulfilled_ok {A B} (f : A -> B) (l : list A) :
  ZoomMeetings.fulfilled (map (fun x => Ok (f x)) l) = map f l.
Proof. unfold ZoomMeetings.fulfilled. induction l; [done |]. cbn. by f_equal. Qed.

Section MeetingsSteps.

Variable P : Platform.
Variable race : list Exn -> Exn.
Variable now : Z.

(** a credential outside the margin is used as it is *)
Lemma meetings_access_token_fresh (w : World) (tokenData : Row) (expiresAt : Z) :
  zoom_tokens w = Some tokenData -> store_up w ->
  date_ms (col tokenData "expires_at") = Some expiresAt ->
  300 * 1000 < expiresAt - now / 1000 * 1000 ->
  ZoomMeetings.access_token P now w
  = (Ok (col tokenData "access_token"),
     with_trace (fun t => t ++ [DbCall "zoom_tokens" "select" true])
       (with_faults (tail (faults w)) w)).
Proof.
  intros Hrow Hup Hexp Hfresh. unfold ZoomMeetings.access_token. unfold bind at 1.
  unfold Store.select_tokens. rewrite db_up by exact Hup.
  cbn [zoom_tokens with_faults]. rewrite Hrow. cbn [mbind option_bind]. rewrite Hexp.
  assert (H : (expiresAt - 300 * 1000 <=? now / 1000 * 1000) = false)
    by (apply Z.leb_gt; lia).
  by rewrite H.
Qed.

(** the requests for the meetings are started in the order of the users *)
Lemma start_all_run (accessToken : jsval) (bearer : string)
    (users : list jsval) (uids : list string) (w : World) :
  JS.String_ accessToken = Ok bearer ->
  Forall2 listed_user users uids ->
  exists w',
    ZoomMeetings.start_all accessToken users w
    = (Ok (map (fun uid => Ok (ZoomMeetings.meetings_request uid bearer)) uids), w')
    /\ tables_kept w w' /\ faults w' = faults w
    /\ http_calls w'
       = http_calls w
         ++ map (fun uid => HttpCall (ZoomMeetings.meetings_request uid bearer)) uids.
Proof.
  intros Hbearer Husers. revert w.
  induction Husers as [| user uid users uids (id & Hid & Huid) _ IH]; intros w.
  - exists w. cbn. rewrite app_nil_r. by unfold tables_kept.
  - cbn [ZoomMeetings.start_all]. unfold bind at 1.
    assert (Hstart : ZoomMeetings.start accessToken user w
                     = (Ok (Ok (ZoomMeetings.meetings_request uid bearer)),
                        requested (ZoomMeetings.meetings_request uid bearer) w)).
    { unfold ZoomMeetings.start, try_catch, bind, lift. by rewrite Hid, Huid, Hbearer. }
    rewrite Hstart.
    destruct (IH (requested (ZoomMeetings.meetings_request uid bearer) w))
      as (w' & Hrun & Hkept & Hfaults & Hcalls).
    exists w'. unfold bind at 1. rewrite Hrun. split; [reflexivity |].
    split; [exact Hkept |]. split; [exact Hfaults |].
    rewrite Hcalls. unfold requested. rewrite http_calls_http. cbn [map].
    by rewrite <- app_assoc.
Qed.

(** every request is answered with the meetings of its user *)
Lemma Promise_all_fulfilled (bearer : string) (uids : list string)
    (listings : list (list jsval)) :
  Forall2 (fun uid ms =>
             ZoomMeetings.settle P (ZoomMeetings.meetings_request uid bearer)
             = Ok (JArr ms)) uids listings ->
  ZoomMeetings.Promise_all P race
    (map (fun uid => Ok (ZoomMeetings.meetings_request uid bearer)) uids)
  = Ok (map JArr listings).
Proof.
  intros Hall. unfold ZoomMeetings.Promise_all.
  rewrite rejections_ok, fulfilled_ok.
  assert (Hresults : map (ZoomMeetings.settle P)
                       (map (fun uid => ZoomMeetings.meetings_request uid bearer) uids)
                     = map (fun ms => Ok (JArr ms)) listings).
  { induction Hall as [| uid ms uids listings Hone _ IH]; [done |]. cbn.
    by rewrite Hone, IH. }
  by rewrite Hresults, rejections_ok, fulfilled_ok.
Qed.

Lemma flat_listings (listings : list (list jsval)) :
  ZoomMeetings.flat (map JArr listings) = concat listings.
Proof.
  unfold ZoomMeetings.flat. induction listings as [| ms listings IH]; [done |].
  cbn. by rewrite IH.
Qed.

End MeetingsSteps.

Lemma meeting_rows_keyed (now : Z) (ms : list jsval) (keys : list string)
    (unique : list (string * list (string * jsval))) :
  (forall key row, (key, row) ∈ unique ->
     exists i m, ms !! i = Some m /\ keys !! i = Some key
                 /\ row = ZoomMeetings.meeting_row now m key) ->
  Forall2 (fun obj k => key_text (JS.assoc "meeting_id" obj) = Some k) unique.*2 unique.*1.
Proof.
  induction unique as [| [key row] unique IH]; intros Hfrom; [constructor |].
  cbn. constructor.
  - destruct (Hfrom key row) as (i & m & _ & _ & ->); [by left | reflexivity].
  - apply IH. intros key' row' Hin. apply Hfrom. by right.
Qed.

(** X27. An authorised run of the meeting sync with a credential outside the
    margin and a store that is up: the users are asked for once -- one
    page, whatever the answer says of further pages -- then the meetings
    of each listed user; the answer is 200 with the number of users and the
    number of distinct meeting ids; every listed meeting is stored under
    its id, with the columns of its last listing over the stored ones, by
    one statement that the duplicates cannot make fail; the meetings that
    are not listed are as they were. *)
Theorem X27_zoom_meetings_stores_listing
    (P : Platform) (race : list Exn -> Exn) (now : Z) (req : Request) (w : World)
    (tokenData : Row) (expiresAt : Z) (bearer : string)
    (response : HttpResponse) (usersData : jsval)
    (users : list jsval) (uids : list string)
    (listings : list (list jsval)) (keys : list string) :
  req_method req <> "OPTIONS"%string ->
  ZoomMeetings.verifyCronAuth P req = Ok tt ->
  zoom_tokens w = Some tokenData -> faults w = [] ->
  date_ms (col tokenData "expires_at") = Some expiresAt ->
  300 * 1000 < expiresAt - now / 1000 * 1000 ->
  JS.String_ (col tokenData "access_token") = Ok bearer ->
  fetch P (ZoomMeetings.users_request bearer) = Some response ->
  resp_ok response = true ->
  JSON_parse P (resp_text response) = Some usersData ->
  JS.prop usersData "users" = Ok (JArr users) ->
  Forall2 listed_user users uids ->
  Forall2 (fun uid ms =>
             ZoomMeetings.settle P (ZoomMeetings.meetings_request uid bearer)
             = Ok (JArr ms)) uids listings ->
  Forall2 listed_key (concat listings) keys ->
  let out := ZoomMeetings.serve P race now req w in
  out.1 = Ok {| status := 200;
                body := Json (JObj [("success", JBool true);
                                    ("users_scanned", JNum (Z.of_nat (length users)));
                                    ("meetings_synced",
                                     JNum (Z.of_nat (length (remove_dups keys))))]%string) |}
  /\ (forall i m key, concat listings !! i = Some m -> last_at keys i key ->
        zoom_meetings out.2 !! key
        = Some (row_of (ZoomMeetings.meeting_row now m key)
                  ∪ default ∅ (zoom_meetings w !! key)))
  /\ (forall key, key ∉ keys -> zoom_meetings out.2 !! key = zoom_meetings w !! key)
  /\ http_calls out.2
     = http_calls w
       ++ HttpCall (ZoomMeetings.users_request bearer)
          :: map (fun uid => HttpCall (ZoomMeetings.meetings_request uid bearer)) uids.
Proof.
  intros Hmethod Hauth Hrow Hw Hexp Hfresh Hbearer Hfetch Hok Hjson Husers Huids Hlist Hkeys
    out.
  set (w0 := with_trace (fun t => t ++ [DbCall "zoom_tokens" "select" true])
               (with_faults [] w)).
  set (w1 := requested (ZoomMeetings.users_request bearer) w0).
  destruct (start_all_run (col tokenData "access_token") bearer users uids w1 Hbearer Huids)
    as (w2 & Hstart & (_ & _ & Hm2 & _) & Hf2 & Hcalls2).
  destruct (deduplicate_from now (concat listings) keys Hkeys [] NoDup_nil_2)
    as (unique & Hdedup & Hnd & Hdom & _ & Hlast & Hfrom).
  assert (Hfrom' : forall key row, (key, row) ∈ unique ->
            exists i m, concat listings !! i = Some m /\ keys !! i = Some key
                        /\ row = ZoomMeetings.meeting_row now m key).
  { intros key row Hin. destruct (Hfrom key row Hin) as [H | H]; [| exact H].
    by apply elem_of_nil in H. }
  destruct (upsert_rows_distinct "meeting_id" unique.*2 unique.*1 [] (zoom_meetings w2)
              (meeting_rows_keyed now _ _ _ Hfrom') Hnd)
    as (t' & Hup & Hrows & Hother).
  { intros k _ Hin. by apply elem_of_nil in Hin. }
  assert (Hlen : length unique.*2 = length (remove_dups keys)).
  { rewrite !length_fmap, <- (length_fmap fst unique). apply Permutation_length.
    apply NoDup_Permutation; [exact Hnd | apply NoDup_remove_dups |].
    intros key. rewrite Hdom, elem_of_remove_dups. split; [| by right].
    intros [H | H]; [by apply elem_of_nil in H | done]. }
  assert (Hserve : exists w3,
            out = (Ok {| status := 200;
                         body := Json (JObj [("success", JBool true);
                                             ("users_scanned",
                                              JNum (Z.of_nat (length users)));
                                             ("meetings_synced",
                                              JNum (Z.of_nat (length (remove_dups keys))))
                                            ]%string) |}, w3)
            /\ zoom_meetings w3
               = (if 0 <? Z.of_nat (length unique.*2) then t' else zoom_meetings w2)
            /\ http_calls w3 = http_calls w2).
  { subst out. unfold ZoomMeetings.serve. rewrite not_options by assumption.
    unfold try_catch, ZoomMeetings.handle. unfold bind at 1. unfold lift at 1. rewrite Hauth.
    unfold bind at 1.
    rewrite (meetings_access_token_fresh P now w tokenData expiresAt Hrow
               ltac:(unfold store_up, up; rewrite Hw; discriminate) Hexp Hfresh).
    rewrite Hw. cbn [tail]. fold w0.
    unfold bind at 1. unfold ZoomMeetings.all_users. unfold bind at 1. unfold lift at 1.
    rewrite Hbearer. unfold bind at 1. unfold do_fetch, bind at 1. unfold emit.
    rewrite Hfetch. unfold ret at 1. rewrite Hok. cbn [negb].
    unfold bind at 1. unfold lift at 1, response_json. rewrite Hjson.
    unfold bind at 1. unfold lift at 1. rewrite Husers.
    unfold ret at 1. cbn [JS.or_else JS.truthy].
    fold (requested (ZoomMeetings.users_request bearer) w0). fold w1.
    unfold bind at 1. rewrite Hstart.
    unfold bind at 1. unfold lift at 1.
    rewrite (Promise_all_fulfilled P race bearer uids listings Hlist).
    rewrite flat_listings.
    unfold bind at 1. unfold lift at 1. rewrite Hdedup.
    change (map snd unique) with (unique.*2). rewrite Hlen.
    destruct (0 <? Z.of_nat (length (remove_dups keys))) eqn:Hsome.
    - unfold bind at 1. unfold bind at 1. unfold ZoomMeetings.upsert_meetings, db.
      rewrite Hf2. cbn [faults with_trace with_faults requested w1 w0].
      cbn -[Store.upsert_rows]. rewrite Hup. cbn. eexists. split; [reflexivity |].
      split; [reflexivity |].
      unfold http_calls. cbn. rewrite List.filter_app. cbn. by rewrite app_nil_r.
    - unfold bind at 1. cbn. eexists. split; [reflexivity |]. done. }
  destruct Hserve as (w3 & Hout & Hmeetings & Hcalls3). clearbody out. subst out.
  cbn [fst snd]. split; [reflexivity |]. rewrite Hmeetings, Hcalls3, Hcalls2.
  assert (Hcalls1 : http_calls w1 = http_calls w ++ [HttpCall (ZoomMeetings.users_request bearer)]).
  { unfold w1, requested. rewrite http_calls_http. unfold w0. by rewrite http_calls_db. }
  assert (Hm0 : zoom_meetings w2 = zoom_meetings w) by exact Hm2.
  split; [| split].
  - intros i m key Hi Hlast_i.
    pose proof (Hlast i m key Hi Hlast_i) as Hin.
    apply list_elem_of_lookup_1 in Hin as [n Hn].
    assert (Hsome : (0 <? Z.of_nat (length unique.*2)) = true).
    { apply Z.ltb_lt. rewrite length_fmap. apply lookup_lt_Some in Hn. lia. }
    rewrite Hsome, <- Hm0.
    apply (Hrows n); rewrite list_lookup_fmap, Hn; reflexivity.
  - intros key Hkey. destruct (0 <? Z.of_nat (length unique.*2)); [| exact (f_equal (.!! key) Hm0)].
    rewrite Hother, Hm0; [reflexivity |]. rewrite Hdom. intros [H | H]; [| done].
    by apply elem_of_nil in H.
  - rewrite Hcalls1, <- app_assoc. reflexivity.
Qed.

Lemma X27_zoom_meetings_stores_listing_witness :
  let out := ZoomMeetings.serve Scenario.listed (fun _ => Raised "none") Example.now
               (Example.cron_request "") Example.world in
  out.1 = Ok {| status := 200;
                body := Json (JObj [("success", JBool true); ("users_scanned", JNum 2);
                                    ("meetings_synced", JNum 2)]%string) |}
  /\ zoom_meetings out.2 !! "456"%string
     = Some (row_of (ZoomMeetings.meeting_row Example.now Scenario.retro_moved "456") ∪ ∅)
  /\ zoom_meetings out.2 !! "123"%string = zoom_meetings Example.world !! "123"%string
  /\ length (http_calls out.2) = 3%nat.
Proof.
  intros out.
  destruct (X27_zoom_meetings_stores_listing Scenario.listed (fun _ => Raised "none")
              Example.now (Example.cron_request "") Example.world
              (Example.credential (Example.now + 3600000)) (Example.now + 3600000)
              "old-token"
              {| resp_ok := true; resp_text := Scenario.users_page_text |}
              Scenario.users_page
              [JObj [("id", JStr "u1")]; JObj [("id", JStr "u2")]]%string
              ["u1"; "u2"]%string
              [[Scenario.retro; Scenario.kickoff]; [Scenario.retro_moved]]
              ["456"; "789"; "456"]%string
              ltac:(discriminate) eq_refl eq_refl eq_refl eq_refl
              ltac:(vm_compute; reflexivity) eq_refl eq_refl eq_refl eq_refl eq_refl)
    as (Hresp & Hstored & Hother & Hcalls).
  - repeat constructor; eexists; split; reflexivity.
  - repeat constructor.
  - repeat constructor; eexists; split; reflexivity.
  - split; [exact Hresp |]. split; [| split].
    + apply (Hstored 2%nat Scenario.retro_moved "456"%string eq_refl).
      split; [reflexivity |]. intros [| [| [| j]]] Hj; try lia; discriminate.
    + apply Hother. apply (bool_decide_unpack _). vm_compute. exact I.
    + fold out in Hcalls. rewrite Hcalls. reflexivity.
Defined.

(** the meeting sync, for any relation that the token row does not matter
    to *)
Section MeetingsFrame.

Variable P : Platform.
Variable race : list Exn -> Exn.
Variable now : Z.
Context {R : World -> World -> Prop} `{!Frame R}.
Hypothesis R_tokens : forall t w, R w (with_tokens t w).

Lemma sat_meetings_access_token : sat R (fun _ => True) (ZoomMeetings.access_token P now).
Proof.
  unfold ZoomMeetings.access_token.
  apply (sat_bind (fun _ => True)); [by apply sat_select_tokens |]. intros tokenData _.
  repeat first [apply sat_update_tokens; assumption | sat_step].
Qed.

Lemma sat_meetings_all_users (accessToken : jsval) :
  sat R (fun _ => True) (ZoomMeetings.all_users P accessToken).
Proof. unfold ZoomMeetings.all_users. repeat sat_step. Qed.

Lemma sat_start (accessToken user : jsval) :
  sat R (fun _ => True) (ZoomMeetings.start accessToken user).
Proof.
  unfold ZoomMeetings.start. repeat first [apply sat_emit | sat_step].
Qed.

Lemma sat_start_all (accessToken : jsval) (users : list jsval) :
  sat R (fun _ => True) (ZoomMeetings.start_all accessToken users).
Proof.
  induction users as [| user users IH]; cbn [ZoomMeetings.start_all]; [sat_step |].
  apply (sat_bind (fun _ => True)); [apply sat_start |]. intros p _.
  apply (sat_bind (fun _ => True)); [apply IH |]. intros ps _. sat_step.
Qed.

(** up to the statement that writes the meetings *)
Lemma meetings_handle_guarded (req : Request) :
  (forall objs, guarded R (fun _ : unit => True)
                  (let* stored := ZoomMeetings.upsert_meetings objs in
                   if stored is None then throw (Raised "PostgrestError") else ret tt)) ->
  guarded R (fun resp => status resp = 200) (ZoomMeetings.handle P race now req).
Proof.
  intros Hupsert. unfold ZoomMeetings.handle.
  apply (guarded_bind (fun _ => True)); [sat_step |]. intros _ _.
  apply (guarded_bind (fun _ => True)); [apply sat_meetings_access_token |].
  intros accessToken _.
  apply (guarded_bind (fun _ => True)); [apply sat_meetings_all_users |]. intros users _.
  destruct users as [| | | | | users |]; try apply guarded_throw.
  apply (guarded_bind (fun _ => True)); [apply sat_start_all |]. intros meetingsPromises _.
  apply (guarded_bind (fun _ => True)); [sat_step |]. intros results _.
  apply (guarded_bind (fun _ => True)); [sat_step |]. intros uniqueMeetings _.
  apply guarded_then_ret; try reflexivity.
  destruct (0 <? Z.of_nat (length (map snd uniqueMeetings))); [apply Hupsert |].
  by apply guarded_ret.
Qed.

Lemma sat_meetings_serve (req : Request) :
  (forall objs, sat R (fun _ => True) (ZoomMeetings.upsert_meetings objs)) ->
  sat R (fun _ => True) (ZoomMeetings.serve P race now req).
Proof.
  intros Hupsert. unfold ZoomMeetings.serve. sat_step; [sat_step |].
  sat_step; [| repeat sat_step].
  unfold ZoomMeetings.handle.
  repeat first [ apply sat_meetings_access_token | apply sat_meetings_all_users
               | apply sat_start_all | apply Hupsert | sat_step ].
Qed.

End MeetingsFrame.

(** X28. The meeting sync writes the meetings with one statement at the end: it
    answers 200, or the meeting table is as it was -- a user whose
    meetings cannot be read, a malformed listing or a refused statement
    leaves nothing half written. The users and the event log are never
    touched, and no stored meeting is removed. *)
Theorem X28_zoom_meetings_all_or_nothing
    (P : Platform) (race : list Exn -> Exn) (now : Z) (req : Request) (w : World) :
  let out := ZoomMeetings.serve P race now req w in
  ((exists resp, out.1 = Ok resp /\ status resp = 200)
   \/ zoom_meetings out.2 = zoom_meetings w)
  /\ zoom_users out.2 = zoom_users w
  /\ zoom_events out.2 = zoom_events w
  /\ (forall k, is_Some (zoom_meetings w !! k) -> is_Some (zoom_meetings out.2 !! k)).
Proof.
  intros out. subst out. split; [| split; [| split]].
  - unfold ZoomMeetings.serve. destruct (String.eqb (req_method req) "OPTIONS").
    + left. eexists. split; reflexivity.
    + apply (guarded_serve (R := meetings_kept)).
      * apply (meetings_handle_guarded P race now (R := meetings_kept)
                 (fun _ _ => eq_refl)).
        intros objs w0. unfold bind, ZoomMeetings.upsert_meetings, db, meetings_kept.
        destruct (faults w0) as [| [|] fs]; cbn -[Store.upsert_rows];
          try destruct (Store.upsert_rows "meeting_id" objs [] (zoom_meetings w0)) as [u |];
          cbn; done.
      * intros e. repeat sat_step.
  - enough (sat users_kept (fun _ => True) (ZoomMeetings.serve P race now req)) as H
      by apply H.
    apply (sat_meetings_serve P race now (fun _ _ => eq_refl)).
    intros objs. apply sat_db. intros w0 r w2 H.
    destruct (Store.upsert_rows "meeting_id" objs [] (zoom_meetings w0)); [| discriminate].
    by injection H as _ <-.
  - enough (sat events_kept (fun _ => True) (ZoomMeetings.serve P race now req)) as H
      by apply H.
    apply (sat_meetings_serve P race now (fun _ _ => eq_refl)).
    intros objs. apply sat_db. intros w0 r w2 H.
    destruct (Store.upsert_rows "meeting_id" objs [] (zoom_meetings w0)); [| discriminate].
    by injection H as _ <-.
  - enough (sat grows (fun _ => True) (ZoomMeetings.serve P race now req)) as H
      by apply H.
    apply (sat_meetings_serve P race now grows_tokens).
    intros objs. apply sat_db. intros w0 r w2 H.
    destruct (Store.upsert_rows "meeting_id" objs [] (zoom_meetings w0)) as [u |] eqn:E;
      [| discriminate].
    injection H as _ <-. split; simpl; [done |].
    intros k. eapply upsert_rows_grows; eassumption.
Qed.

(** X29. When the provider refuses the refresh an administrator asks for, the
    answer is not 200 and carries the status and the text of the refusal;
    the provider was asked once, and no table has changed. *)
Theorem X29_admin_refresh_provider_refusal
    (P : Platform) (A : Accounts) (resp_status : HttpRequest -> Z) (now : Z)
    (req : Request) (w : World) (user : list (string * jsval))
    (clientId clientSecret : string) (row : Row) (refresh_token : string)
    (refusing : HttpResponse) :
  let authHeader := default EmptyString (headers_get "Authorization" (req_headers req)) in
  let token := Str.remove_first "Bearer " authHeader in
  let request := RefreshToken.refresh_request clientId clientSecret refresh_token in
  let out := RefreshToken.serve P A resp_status now req w in
  let message :=
    String.append "Zoom API Error "
      (String.append (pretty (resp_status request))
         (String.append ": " (resp_text refusing))) in
  req_method req <> "OPTIONS"%string ->
  authHeader <> EmptyString -> session_user A token = Some user ->
  Schema.is_admin (user_profiles A) (key_text (Some (JS.get (JObj user) "id"))) = true ->
  Deno_env_get P "ZOOM_CLIENT_ID" = Some clientId -> clientId <> EmptyString ->
  Deno_env_get P "ZOOM_CLIENT_SECRET" = Some clientSecret -> clientSecret <> EmptyString ->
  faults w = [] ->
  zoom_tokens w = Some row ->
  JS.String_ (col row "refresh_token") = Ok refresh_token ->
  fetch P request = Some refusing -> resp_ok refusing = false ->
  (exists st, out.1 = refusal st message /\ st <> 200)
  /\ tables_kept w out.2
  /\ http_calls out.2 = http_calls w ++ [HttpCall request].
Proof.
  intros authHeader token request out message Hmethod Hne Huser Hadmin Hid Hid_ne Hsecret
    Hsecret_ne Hfaults Hrow Hrt Hfetch Hno.
  assert (Hup : up (faults w)) by (rewrite Hfaults; discriminate).
  assert (Hup' : up (tail (faults w))) by (rewrite Hfaults; discriminate).
  assert (Hup'' : up (tail (tail (faults w)))) by (rewrite Hfaults; discriminate).
  destruct (refresh_refused_by_provider P A resp_status now req w user clientId clientSecret
              Hmethod Hne Huser Hadmin Hup Hup' Hid Hid_ne Hsecret Hsecret_ne Hup''
              row refresh_token Hrow Hrt refusing Hfetch Hno)
    as (Hanswer & Hkept & Hcalls).
  split; [| done]. eexists. split; [exact Hanswer | apply error_status_refuses].
Qed.

Lemma X29_admin_refresh_provider_refusal_witness :
  let out := RefreshToken.serve Scenario.declined Scenario.accounts (fun _ => 400) Example.now
               (Scenario.session_request "jwt-admin") Scenario.world in
  out.1 = refusal 500 "Zoom API Error 400: invalid_grant"
  /\ zoom_tokens out.2 = Some Scenario.credential.
Proof.
  intros out.
  destruct (X29_admin_refresh_provider_refusal Scenario.declined Scenario.accounts
              (fun _ => 400) Example.now (Scenario.session_request "jwt-admin")
              Scenario.world
              [("id", JStr "a1"); ("email", JStr "admin@example.org")]%string
              "client" "hush" Scenario.credential "r1"
              {| resp_ok := false; resp_text := "invalid_grant" |}
              ltac:(discriminate) ltac:(discriminate) eq_refl eq_refl
              eq_refl ltac:(discriminate) eq_refl ltac:(discriminate)
              eq_refl eq_refl eq_refl eq_refl eq_refl)
    as ((st & Hanswer & _) & Hkept & _).
  split; [| apply Hkept]. reflexivity.
Defined.

(** X30. The meeting sync does nothing for a request that does not carry the
    configured secret: neither the store nor the provider is called. The
    answer is 401 when the [Authorization] header is missing and 500
    otherwise, a wrong secret included. *)
Theorem X30_zoom_meetings_gate
    (P : Platform) (race : list Exn -> Exn) (now : Z) (req : Request) (w : World) :
  let authHeader := default EmptyString (headers_get "Authorization" (req_headers req)) in
  req_method req <> "OPTIONS"%string ->
  (forall secret, Deno_env_get P "CRON_SECRET" = Some secret -> secret <> EmptyString ->
                  Str.remove_first "Bearer " authHeader <> secret) ->
  exists st message,
    ZoomMeetings.serve P race now req w = (refusal st message, logged "error" w)
    /\ (authHeader = EmptyString -> st = 401)
    /\ (authHeader <> EmptyString -> st = 500).
Proof.
  intros authHeader Hmethod Hwrong. subst authHeader.
  unfold ZoomMeetings.serve, try_catch, ZoomMeetings.handle, bind, lift.
  rewrite not_options by assumption. unfold ZoomMeetings.verifyCronAuth.
  destruct (headers_get "Authorization" (req_headers req)) as [h |]; cbn [default] in *.
  2:{ eexists _, _. split; [reflexivity |]. split; [reflexivity | done]. }
  destruct (Str.is_empty h) eqn:Hh.
  { apply is_empty_true in Hh as ->. eexists _, _. split; [reflexivity |].
    split; [reflexivity | done]. }
  assert (Hne : h <> EmptyString) by (intros ->; discriminate Hh).
  destruct (Deno_env_get P "CRON_SECRET") as [secret |].
  2:{ eexists _, _. split; [reflexivity |]. split; [done | reflexivity]. }
  destruct (Str.is_empty secret) eqn:Hs.
  { eexists _, _. split; [reflexivity |]. split; [done | reflexivity]. }
  assert (Hsecret : secret <> EmptyString) by (intros ->; discriminate Hs).
  specialize (Hwrong secret eq_refl Hsecret).
  change (Str.remove_first "Bearer " h <> secret) in Hwrong.
  apply String.eqb_neq in Hwrong.
  rewrite Hwrong. eexists _, _. split; [reflexivity |]. split; [done | reflexivity].
Qed.

Lemma X30_zoom_meetings_gate_witness :
  ZoomMeetings.serve Scenario.listed (fun _ => Raised "none") Example.now
    {| req_method := "POST"; req_headers := [("Authorization", "Bearer guess")]%string;
       req_text := "" |} Example.world
  = (refusal 500 "Invalid authorization", logged "error" Example.world).
Proof.
  destruct (X30_zoom_meetings_gate Scenario.listed (fun _ => Raised "none") Example.now
              {| req_method := "POST";
                 req_headers := [("Authorization", "Bearer guess")]%string;
                 req_text := "" |} Example.world ltac:(discriminate))
    as (st & message & Hrun & _ & _).
  - intros secret Hsecret _. vm_compute in Hsecret. injection Hsecret as <-. discriminate.
  - reflexivity.
Defined.

